(** * audio_async_loopback: IEC 61937 burst extraction, mode arbiter and sinks

    A shallow embedding of the parts of audio_async_loopback that decide
    how an S/PDIF capture stream is parsed and routed:

    - [Iec61937]: the sample-level state machine of iec_61937.c;
    - [Arbiter]: the chunk-level IEC 60958 state machine of main.c;
    - [PcmSink], [Ac3Sink]: the ring buffers of pcm_sink.c and ac3_sink.c,
      with the part of [*_sink_process] that runs under the lock and one
      turn of [output_thread];
    - [ControlLoop]: [calculate_rate_ratio], shared by both sinks.

    C integers are [Z] with the wrap-around of their type written out;
    arrays are lists updated with stdpp's insert; an access outside an
    array, which C leaves undefined, makes the step return [None]. *)

From Stdlib Require Import ZArith Lia Bool List SpecFloat.
From stdpp Require Import base option list.

Local Open Scope Z_scope.

(** ** Machine integers *)

(** [size_t] on the LP64 targets the program is built for. *)
Definition SIZE_WIDTH : Z := 64.
Definition to_size (z : Z) : Z := z mod 2 ^ SIZE_WIDTH.
Definition to_u32 (z : Z) : Z := z mod 2 ^ 32.
Definition to_u16 (z : Z) : Z := z mod 2 ^ 16.
Definition to_u8 (z : Z) : Z := z mod 2 ^ 8.

Definition to_i32 (z : Z) : Z := (z + 2 ^ 31) mod 2 ^ 32 - 2 ^ 31.

(** [arr[i] = v] on an array of [size] elements; undefined outside it. *)
Definition array_store {A} (size : Z) (arr : list A) (i : Z) (v : A) : option (list A) :=
  if (0 <=? i) && (i <? size) then Some (<[Z.to_nat i := v]> arr) else None.

(** [arr[i]]; undefined outside the array. *)
Definition array_load {A} (arr : list A) (i : Z) : option A :=
  if 0 <=? i then arr !! Z.to_nat i else None.

(** [__builtin_bswap16]: exchange the two bytes of a 16-bit value. *)
Definition bswap16 (x : Z) : Z := (x mod 256) * 256 + (x / 256) mod 256.

(** ** The IEC 61937 state machine (iec_61937.c, iec_61937.h) *)

Module Iec61937.

Definition IEC_61937_SYNC_WORD_0 : Z := 0xF872.
Definition IEC_61937_SYNC_WORD_1 : Z := 0x4E1F.
Definition IEC_61937_DATA_TYPE_MASK : Z := 0x7F.
Definition IEC_61937_MAX_BURST_PAYLOAD : Z := 0x10000.
Definition IEC_61937_DATA_TYPE_AC3 : Z := 0x01.
Definition IEC_61937_DATA_TYPE_EXTENDED : Z := 0x1F.

Inductive iec_61937_state : Set :=
  | IEC_61937_STATE_FIRST_0
  | IEC_61937_STATE_SECOND_0
  | IEC_61937_STATE_THIRD_0
  | IEC_61937_STATE_FOURTH_0
  | IEC_61937_STATE_SYNC_0
  | IEC_61937_STATE_SYNC_1
  | IEC_61937_STATE_DATA_TYPE
  | IEC_61937_STATE_LENGTH
  | IEC_61937_STATE_PAYLOAD.

(** The enumerators' values, which [iec_61937_fsm_run] compares with [>]. *)
Definition state_value (s : iec_61937_state) : Z :=
  match s with
  | IEC_61937_STATE_FIRST_0 => 0
  | IEC_61937_STATE_SECOND_0 => 1
  | IEC_61937_STATE_THIRD_0 => 2
  | IEC_61937_STATE_FOURTH_0 => 3
  | IEC_61937_STATE_SYNC_0 => 4
  | IEC_61937_STATE_SYNC_1 => 5
  | IEC_61937_STATE_DATA_TYPE => 6
  | IEC_61937_STATE_LENGTH => 7
  | IEC_61937_STATE_PAYLOAD => 8
  end.

(** [struct iec_61937_fsm]. The callback and its handle are not state: a
    call of [packet_cb] is returned by the step as a [packet]. *)
Record iec_61937_fsm : Type := {
  state : iec_61937_state;
  data_type : Z;          (* uint8_t *)
  payload_len : Z;        (* size_t *)
  bytes_received : Z;     (* size_t *)
  payload : list Z        (* uint8_t [IEC_61937_MAX_BURST_PAYLOAD] *)
}.

(** What [packet_cb] is called with: the data type, the length, and the
    [len] bytes the callee can read through the payload pointer. *)
Record packet : Type := {
  pkt_data_type : Z;
  pkt_len : Z;
  pkt_payload : list Z
}.

Definition set_state (inst : iec_61937_fsm) (s : iec_61937_state) : iec_61937_fsm :=
  {| state := s; data_type := data_type inst; payload_len := payload_len inst;
     bytes_received := bytes_received inst; payload := payload inst |}.

Definition set_data_type (inst : iec_61937_fsm) (d : Z) : iec_61937_fsm :=
  {| state := state inst; data_type := d; payload_len := payload_len inst;
     bytes_received := bytes_received inst; payload := payload inst |}.

Definition set_payload_len (inst : iec_61937_fsm) (n : Z) : iec_61937_fsm :=
  {| state := state inst; data_type := data_type inst; payload_len := n;
     bytes_received := bytes_received inst; payload := payload inst |}.

Definition set_bytes_received (inst : iec_61937_fsm) (n : Z) : iec_61937_fsm :=
  {| state := state inst; data_type := data_type inst; payload_len := payload_len inst;
     bytes_received := n; payload := payload inst |}.

(** [iec_61937_fsm_init]: memset to zero, state FIRST_0. *)
Definition iec_61937_fsm_init : iec_61937_fsm :=
  {| state := IEC_61937_STATE_FIRST_0; data_type := 0; payload_len := 0;
     bytes_received := 0;
     payload := replicate (Z.to_nat IEC_61937_MAX_BURST_PAYLOAD) 0 |}.

(** [inst->payload[inst->bytes_received] = v; inst->bytes_received++;]
    A write outside the 65536-byte array is undefined: [None]. *)
Definition payload_push (inst : iec_61937_fsm) (v : Z) : option iec_61937_fsm :=
  let i := bytes_received inst in
  if (0 <=? i) && (i <? IEC_61937_MAX_BURST_PAYLOAD) then
    Some {| state := state inst; data_type := data_type inst;
            payload_len := payload_len inst;
            bytes_received := to_size (i + 1);
            payload := <[Z.to_nat i := to_u8 v]> (payload inst) |}
  else None.

(** The [switch] of [iec_61937_fsm_run] on the byte-swapped [sample]:
    the new instance and the callback invocation, if any. *)
Definition fsm_switch (inst : iec_61937_fsm) (sample : Z)
  : option (iec_61937_fsm * option packet) :=
  match state inst with
  | IEC_61937_STATE_FIRST_0 =>
      if sample =? 0 then Some (set_state inst IEC_61937_STATE_SECOND_0, None)
      else Some (inst, None)
  | IEC_61937_STATE_SECOND_0 =>
      if sample =? 0 then Some (set_state inst IEC_61937_STATE_THIRD_0, None)
      else Some (set_state inst IEC_61937_STATE_FIRST_0, None)
  | IEC_61937_STATE_THIRD_0 =>
      if sample =? 0 then Some (set_state inst IEC_61937_STATE_FOURTH_0, None)
      else Some (set_state inst IEC_61937_STATE_FIRST_0, None)
  | IEC_61937_STATE_FOURTH_0 =>
      if sample =? 0 then Some (set_state inst IEC_61937_STATE_SYNC_0, None)
      else Some (set_state inst IEC_61937_STATE_FIRST_0, None)
  | IEC_61937_STATE_SYNC_0 =>
      if sample =? 0 then Some (inst, None)
      else if sample =? IEC_61937_SYNC_WORD_0
      then Some (set_state inst IEC_61937_STATE_SYNC_1, None)
      else Some (set_state inst IEC_61937_STATE_FIRST_0, None)
  | IEC_61937_STATE_SYNC_1 =>
      if sample =? IEC_61937_SYNC_WORD_1
      then Some (set_state inst IEC_61937_STATE_DATA_TYPE, None)
      else Some (set_state inst IEC_61937_STATE_FIRST_0, None)
  | IEC_61937_STATE_DATA_TYPE =>
      let inst1 := set_data_type inst (to_u8 (Z.land sample IEC_61937_DATA_TYPE_MASK)) in
      let inst2 := set_state inst1 IEC_61937_STATE_LENGTH in
      if data_type inst2 =? IEC_61937_DATA_TYPE_EXTENDED
      then Some (set_state inst2 IEC_61937_STATE_FIRST_0, None)
      else Some (inst2, None)
  | IEC_61937_STATE_LENGTH =>
      if data_type inst =? IEC_61937_DATA_TYPE_AC3 then
        let inst1 := set_bytes_received inst 0 in
        let inst2 := set_payload_len inst1 (sample / 8) in
        Some (set_state inst2 IEC_61937_STATE_PAYLOAD, None)
      else Some (set_state inst IEC_61937_STATE_FIRST_0, None)
  | IEC_61937_STATE_PAYLOAD =>
      inst1 ← (if 2 <=? to_size (payload_len inst - bytes_received inst) then
                 inst' ← payload_push inst (Z.shiftr sample 8);
                 payload_push inst' sample
               else payload_push inst (Z.shiftr sample 8));
      if payload_len inst1 =? bytes_received inst1 then
        Some (set_state inst1 IEC_61937_STATE_FIRST_0,
              Some {| pkt_data_type := data_type inst1;
                      pkt_len := bytes_received inst1;
                      pkt_payload := take (Z.to_nat (bytes_received inst1)) (payload inst1) |})
      else Some (inst1, None)
  end.

(** [iec_61937_fsm_run]: one sample; the result is the new instance, the
    returned lock flag and the callback invocation, if any. *)
Definition iec_61937_fsm_run (inst : iec_61937_fsm) (s16le_sample : Z)
  : option (iec_61937_fsm * bool * option packet) :=
  let sample := bswap16 s16le_sample in
  '(inst', cb) ← fsm_switch inst sample;
  let ret := state_value IEC_61937_STATE_SYNC_1 <? state_value (state inst') in
  Some (inst', ret, cb).

(** A stream of samples: the final instance, the flag each call returned
    and the callbacks, in order. *)
Fixpoint fsm_feed (inst : iec_61937_fsm) (samples : list Z)
  : option (iec_61937_fsm * list bool * list packet) :=
  match samples with
  | [] => Some (inst, [], [])
  | s :: rest =>
      '(inst1, ret, cb) ← iec_61937_fsm_run inst s;
      '(inst2, rets, cbs) ← fsm_feed inst1 rest;
      Some (inst2, ret :: rets, option_list cb ++ cbs)
  end.

End Iec61937.

(** ** The IEC 60958 mode arbiter (main.c) *)

Module Arbiter.

Definition INPUT_CHUNK_SIZE : Z := 512.
Definition IEC_61937_DETECTION_WINDOW : Z := 64.

Inductive iec_60958_state : Set :=
  | IEC_60958_STATE_UNKNOWN
  | IEC_60958_STATE_PCM
  | IEC_60958_STATE_61937.

(** The calls the arbiter makes into the two sinks, in program order. *)
Inductive sink_call : Type :=
  | pcm_sink_open (latency_us : Z)
  | pcm_sink_close
  | pcm_sink_process (data : list Z)
  | ac3_sink_open (latency_us : Z)
  | ac3_sink_close
  | ac3_sink_process (data : list Z) (len : Z).

(** [struct iec_60958]; the two sink structures are owned by the sinks and
    appear here through the calls made on them. *)
Record iec_60958 : Type := {
  state : iec_60958_state;
  iec_61937_fsm_inst : Iec61937.iec_61937_fsm;
  non_61937_chunks : Z;   (* size_t *)
  sink_latency_us : Z     (* uint32_t *)
}.

Definition set_state (inst : iec_60958) (s : iec_60958_state) : iec_60958 :=
  {| state := s; iec_61937_fsm_inst := iec_61937_fsm_inst inst;
     non_61937_chunks := non_61937_chunks inst;
     sink_latency_us := sink_latency_us inst |}.

Definition set_fsm (inst : iec_60958) (f : Iec61937.iec_61937_fsm) : iec_60958 :=
  {| state := state inst; iec_61937_fsm_inst := f;
     non_61937_chunks := non_61937_chunks inst;
     sink_latency_us := sink_latency_us inst |}.

Definition set_non_61937_chunks (inst : iec_60958) (n : Z) : iec_60958 :=
  {| state := state inst; iec_61937_fsm_inst := iec_61937_fsm_inst inst;
     non_61937_chunks := n;
     sink_latency_us := sink_latency_us inst |}.

(** [iec_61937_packet_handler]: the callback registered with the state
    machine; [inst] is the arbiter at the time of the call. *)
Definition iec_61937_packet_handler (inst : iec_60958) (p : Iec61937.packet)
  : list sink_call :=
  match state inst with
  | IEC_60958_STATE_61937 =>
      if Iec61937.pkt_data_type p =? Iec61937.IEC_61937_DATA_TYPE_AC3
      then [ac3_sink_process (Iec61937.pkt_payload p) (Iec61937.pkt_len p)]
      else []
  | _ => []
  end.

(** [process_chunk_iec_61937]: the chunk is taken two bytes at a time;
    [chunk_size] is the length of the list. An odd length makes the loop
    read [chunk[i + 1]] past the end: [None]. *)
Fixpoint process_chunk_iec_61937 (inst : Iec61937.iec_61937_fsm) (chunk : list Z)
  : option (Iec61937.iec_61937_fsm * bool * list Iec61937.packet) :=
  match chunk with
  | [] => Some (inst, false, [])
  | [_] => None
  | b0 :: b1 :: rest =>
      let sample := to_u16 (Z.lor b0 (Z.shiftl b1 8)) in
      '(inst1, r, cb) ← Iec61937.iec_61937_fsm_run inst sample;
      '(inst2, ret, cbs) ← process_chunk_iec_61937 inst1 rest;
      Some (inst2, r || ret, option_list cb ++ cbs)
  end.

(** The call of [process_chunk_iec_61937] at the head of every case of
    [iec_60958_process]: the state machine is advanced, and the callback
    runs, once per burst, while the arbiter is still in its old state. *)
Definition run_chunk (inst : iec_60958) (chunk : list Z)
  : option (iec_60958 * bool * list sink_call) :=
  '(f, locked, pkts) ← process_chunk_iec_61937 (iec_61937_fsm_inst inst) chunk;
  Some (set_fsm inst f, locked, concat (map (iec_61937_packet_handler inst) pkts)).

(** [iec_60958_init] (with the latency [main] stores right after it). *)
Definition iec_60958_init (latency_us : Z) : iec_60958 :=
  {| state := IEC_60958_STATE_UNKNOWN;
     iec_61937_fsm_inst := Iec61937.iec_61937_fsm_init;
     non_61937_chunks := 0;
     sink_latency_us := latency_us |}.

(** [iec_60958_process]: one chunk; the new arbiter and the sink calls made. *)
Definition iec_60958_process (inst : iec_60958) (chunk : list Z)
  : option (iec_60958 * list sink_call) :=
  match state inst with
  | IEC_60958_STATE_UNKNOWN =>
      '(inst1, locked, cbs) ← run_chunk inst chunk;
      if (locked : bool) then
        let inst2 := set_non_61937_chunks inst1 0 in
        let inst3 := set_state inst2 IEC_60958_STATE_61937 in
        Some (inst3, cbs ++ [ac3_sink_open (sink_latency_us inst3)])
      else
        let inst2 := set_non_61937_chunks inst1 (to_size (non_61937_chunks inst1 + 1)) in
        if IEC_61937_DETECTION_WINDOW <=? non_61937_chunks inst2 then
          let inst3 := set_state inst2 IEC_60958_STATE_PCM in
          Some (inst3, cbs ++ [pcm_sink_open (sink_latency_us inst3)])
        else Some (inst2, cbs)
  | IEC_60958_STATE_PCM =>
      '(inst1, locked, cbs) ← run_chunk inst chunk;
      if (locked : bool) then
        let inst2 := set_non_61937_chunks inst1 0 in
        let inst3 := set_state inst2 IEC_60958_STATE_61937 in
        Some (inst3, cbs ++ [pcm_sink_close; ac3_sink_open (sink_latency_us inst3)])
      else Some (inst1, cbs ++ [pcm_sink_process chunk])
  | IEC_60958_STATE_61937 =>
      '(inst1, locked, cbs) ← run_chunk inst chunk;
      if (locked : bool) then Some (set_non_61937_chunks inst1 0, cbs)
      else
        let inst2 := set_non_61937_chunks inst1 (to_size (non_61937_chunks inst1 + 1)) in
        if IEC_61937_DETECTION_WINDOW <=? non_61937_chunks inst2 then
          let inst3 := set_state inst2 IEC_60958_STATE_PCM in
          Some (inst3, cbs ++ [ac3_sink_close; pcm_sink_open (sink_latency_us inst3)])
        else Some (inst2, cbs)
  end.

(** The read loop of [main] on the chunks read so far. *)
Fixpoint iec_60958_run (inst : iec_60958) (chunks : list (list Z))
  : option (iec_60958 * list sink_call) :=
  match chunks with
  | [] => Some (inst, [])
  | c :: rest =>
      '(inst1, calls1) ← iec_60958_process inst c;
      '(inst2, calls2) ← iec_60958_run inst1 rest;
      Some (inst2, calls1 ++ calls2)
  end.

(** Which sinks are open: [thread_run] of each sink structure, false after
    the memset of [iec_60958_init], set by [*_sink_open], cleared by
    [*_sink_close]. *)
Record sinks : Set := { pcm_thread_run : bool; ac3_thread_run : bool }.

Definition no_sink : sinks := {| pcm_thread_run := false; ac3_thread_run := false |}.

Definition sink_effect (s : sinks) (c : sink_call) : sinks :=
  match c with
  | pcm_sink_open _ => {| pcm_thread_run := true; ac3_thread_run := ac3_thread_run s |}
  | pcm_sink_close => {| pcm_thread_run := false; ac3_thread_run := ac3_thread_run s |}
  | ac3_sink_open _ => {| pcm_thread_run := pcm_thread_run s; ac3_thread_run := true |}
  | ac3_sink_close => {| pcm_thread_run := pcm_thread_run s; ac3_thread_run := false |}
  | pcm_sink_process _ | ac3_sink_process _ _ => s
  end.

(** The sinks after all of [calls], and after each of them. *)
Definition sinks_after (s : sinks) (calls : list sink_call) : sinks :=
  fold_left sink_effect calls s.

Fixpoint sinks_during (s : sinks) (calls : list sink_call) : list sinks :=
  match calls with
  | [] => []
  | c :: rest => sink_effect s c :: sinks_during (sink_effect s c) rest
  end.

Definition at_most_one_open (s : sinks) : Prop :=
  pcm_thread_run s = false ∨ ac3_thread_run s = false.

(** A call that needs its sink open finds it open. *)
Definition call_on_open_sink (s : sinks) (c : sink_call) : Prop :=
  match c with
  | pcm_sink_close | pcm_sink_process _ => pcm_thread_run s = true
  | ac3_sink_close | ac3_sink_process _ _ => ac3_thread_run s = true
  | pcm_sink_open _ | ac3_sink_open _ =>
      pcm_thread_run s = false ∧ ac3_thread_run s = false
  end.

Fixpoint calls_in_order (s : sinks) (calls : list sink_call) : Prop :=
  match calls with
  | [] => True
  | c :: rest => call_on_open_sink s c ∧ calls_in_order (sink_effect s c) rest
  end.

End Arbiter.

(** ** Floating point

    [double] is IEEE 754 binary64 and every operation rounds to nearest,
    ties to even, as specified by the standard library's [SpecFloat]. The
    ring buffers hold [float] values that are only moved. *)

Module B64.

Definition prec : Z := 53.
Definition emax : Z := 1024.

Definition add : spec_float -> spec_float -> spec_float := SFadd prec emax.
Definition sub : spec_float -> spec_float -> spec_float := SFsub prec emax.
Definition mul : spec_float -> spec_float -> spec_float := SFmul prec emax.
Definition div : spec_float -> spec_float -> spec_float := SFdiv prec emax.
Definition leb : spec_float -> spec_float -> bool := SFleb.

(** Conversion of an integer to [double]. *)
Definition of_Z (z : Z) : spec_float := binary_normalize prec emax z 0 false.

Definition zero : spec_float := S754_zero false.
Definition one : spec_float := of_Z 1.

(** Conversion of a [double] to [int32_t]: truncation toward zero,
    undefined when the value is not finite or does not fit. *)
Definition to_i32 (x : spec_float) : option Z :=
  match x with
  | S754_zero _ => Some 0
  | S754_finite s m e =>
      let mag := if 0 <=? e then Z.shiftl (Z.pos m) e else Z.shiftr (Z.pos m) (- e) in
      let z := cond_Zopp s mag in
      if (- 2 ^ 31 <=? z) && (z <? 2 ^ 31) then Some z else None
  | _ => None
  end.

End B64.

Definition float : Type := spec_float.

(** ** The control loop: [calculate_rate_ratio] of pcm_sink.c and ac3_sink.c

    The two sinks carry the same function over their own constants, which
    are the parameters here. *)

Module ControlLoop.

(** The fields [history], [histidx] and [average] of a sink structure. *)
Record control : Type := {
  history : list Z;   (* int32_t [BUFFER_HIST_SIZE] *)
  histidx : Z;        (* uint32_t *)
  average : Z         (* int32_t, informational *)
}.

Section Params.
Variable BUFFER_TARGET_SAMPLES : Z.
Variable SAMPLE_BUFFER_SIZE_MASK : Z.
Variable BUFFER_HIST_SIZE : Z.
Variable LOOP_GAIN : spec_float.

(** [buffer_used]: [(write_idx - read_idx) & MASK] on [uint32_t]. *)
Definition buffer_used (write_idx read_idx : Z) : Z :=
  Z.land (to_u32 (write_idx - read_idx)) SAMPLE_BUFFER_SIZE_MASK.

(** [buffer_space_avail]: [MASK - buffer_used]. *)
Definition buffer_space_avail (write_idx read_idx : Z) : Z :=
  to_u32 (SAMPLE_BUFFER_SIZE_MASK - buffer_used write_idx read_idx).

(** The clamp of the offset to [-TARGET, TARGET]. *)
Definition clamp_offset (offset : Z) : Z :=
  if offset <? - BUFFER_TARGET_SAMPLES then - BUFFER_TARGET_SAMPLES
  else if BUFFER_TARGET_SAMPLES <? offset then BUFFER_TARGET_SAMPLES
  else offset.

(** [accum = 0; for (i ...) accum += history[i];] *)
Definition accumulate (history : list Z) : spec_float :=
  fold_left (fun accum h => B64.add accum (B64.of_Z h)) history B64.zero.

(** [calculate_rate_ratio]: the updated control fields and the ratio. *)
Definition calculate_rate_ratio (c : control) (write_idx read_idx : Z)
  : option (control * spec_float) :=
  let tmp := to_i32 (buffer_used write_idx read_idx) in
  let mult := LOOP_GAIN in
  let offset := clamp_offset (to_i32 (BUFFER_TARGET_SAMPLES - tmp)) in
  history' ← array_store BUFFER_HIST_SIZE (history c) (histidx c) offset;
  let histidx' := Z.land (to_u32 (histidx c + 1)) (to_u32 (BUFFER_HIST_SIZE - 1)) in
  let accum := accumulate history' in
  let accum := B64.div accum (B64.of_Z BUFFER_HIST_SIZE) in
  average' ← B64.to_i32 accum;
  Some ({| history := history'; histidx := histidx'; average := average' |},
        B64.add (B64.mul mult accum) B64.one).

(** The control fields after the memset of [*_sink_open]. *)
Definition control_init : control :=
  {| history := replicate (Z.to_nat BUFFER_HIST_SIZE) 0; histidx := 0; average := 0 |}.

(** Successive calls, each at the ring indices the sink has at that
    moment: the ratios returned. *)
Fixpoint control_run (c : control) (indices : list (Z * Z)) : option (list spec_float) :=
  match indices with
  | [] => Some []
  | (w, r) :: rest =>
      '(c', ratio) ← calculate_rate_ratio c w r;
      ratios ← control_run c' rest;
      Some (ratio :: ratios)
  end.

End Params.

End ControlLoop.

(** ** The PCM sink (pcm_sink.c, pcm_sink.h, config.h) *)

Module PcmSink.

Definition INPUT_CHUNK_SIZE : Z := 512.
Definition PCM_SINK_BUFFER_TARGET_SAMPLES : Z := 128.
Definition PCM_SINK_SAMPLE_BUFFER_SIZE : Z := 2048.
Definition PCM_SINK_SAMPLE_BUFFER_SIZE_MASK : Z := to_u32 (PCM_SINK_SAMPLE_BUFFER_SIZE - 1).
Definition PCM_SINK_OUTPUT_CHUNK_SIZE : Z := 32.

(** [0.000004] as the nearest [double]. *)
Definition PCM_SINK_LOOP_GAIN : spec_float :=
  S754_finite false 0x10C6F7A0B5ED8D (-70).

(** Modelled from the spec: config.h under src/ does not define
    [PCM_SINK_BUFFER_HIST_SIZE], the length of [history]; the spec asks for
    a power of two and recommends 16. *)
Definition PCM_SINK_BUFFER_HIST_SIZE : Z := 16.

(** [struct pcm_sink]: the fields the producer and the consumer share.
    [src_ratio] is [src_data.src_ratio]. *)
Record pcm_sink : Type := {
  thread_run : bool;
  buffer : list float;    (* float [PCM_SINK_SAMPLE_BUFFER_SIZE] *)
  read_idx : Z;           (* uint32_t *)
  write_idx : Z;          (* uint32_t *)
  src_ratio : spec_float;
  ctl : ControlLoop.control
}.

Definition buffer_space_avail (inst : pcm_sink) : Z :=
  ControlLoop.buffer_space_avail PCM_SINK_SAMPLE_BUFFER_SIZE_MASK
    (write_idx inst) (read_idx inst).

Definition buffer_used (inst : pcm_sink) : Z :=
  ControlLoop.buffer_used PCM_SINK_SAMPLE_BUFFER_SIZE_MASK
    (write_idx inst) (read_idx inst).

Definition calculate_rate_ratio (inst : pcm_sink)
  : option (ControlLoop.control * spec_float) :=
  ControlLoop.calculate_rate_ratio
    PCM_SINK_BUFFER_TARGET_SAMPLES PCM_SINK_SAMPLE_BUFFER_SIZE_MASK
    PCM_SINK_BUFFER_HIST_SIZE PCM_SINK_LOOP_GAIN
    (ctl inst) (write_idx inst) (read_idx inst).

(** [pcm_sink_open]: the structure is zeroed, the write index starts at
    the target and the worker is started. *)
Definition pcm_sink_open : pcm_sink :=
  {| thread_run := true;
     buffer := replicate (Z.to_nat PCM_SINK_SAMPLE_BUFFER_SIZE) (S754_zero false);
     read_idx := 0;
     write_idx := PCM_SINK_BUFFER_TARGET_SAMPLES;
     src_ratio := B64.one;
     ctl := ControlLoop.control_init PCM_SINK_BUFFER_HIST_SIZE |}.

(** [pcm_sink_close]: the worker is told to stop and joined. *)
Definition pcm_sink_close (inst : pcm_sink) : pcm_sink :=
  {| thread_run := false; buffer := buffer inst; read_idx := read_idx inst;
     write_idx := write_idx inst; src_ratio := src_ratio inst; ctl := ctl inst |}.

(** [for (i = 0; i < will_queue; i++) { buffer[write_idx] = tmp_output_buf[i];
    write_idx++; write_idx &= MASK; }] with [n] iterations left. *)
Fixpoint queue_loop (n : nat) (i : Z) (tmp_output_buf : list float)
    (buffer : list float) (write_idx : Z) : option (list float * Z) :=
  match n with
  | O => Some (buffer, write_idx)
  | S n' =>
      v ← array_load tmp_output_buf i;
      buffer' ← array_store PCM_SINK_SAMPLE_BUFFER_SIZE buffer write_idx v;
      let write_idx' := Z.land (to_u32 (write_idx + 1)) PCM_SINK_SAMPLE_BUFFER_SIZE_MASK in
      queue_loop n' (i + 1) tmp_output_buf buffer' write_idx'
  end.

(** [pcm_sink_process] from [pthread_mutex_lock] on. The resampler is
    external: [tmp_output_buf] and [output_frames_gen] are what
    [src_process] left behind for this chunk. *)
Definition pcm_sink_process (inst : pcm_sink)
    (tmp_output_buf : list float) (output_frames_gen : Z) : option pcm_sink :=
  '(c, ratio) ← calculate_rate_ratio inst;
  let can_queue := buffer_space_avail inst in
  let will_queue :=
    if can_queue <? output_frames_gen * 2 then can_queue
    else to_u32 (output_frames_gen * 2) in
  '(buffer', write_idx') ←
    queue_loop (Z.to_nat will_queue) 0 tmp_output_buf (buffer inst) (write_idx inst);
  Some {| thread_run := thread_run inst; buffer := buffer'; read_idx := read_idx inst;
          write_idx := write_idx'; src_ratio := ratio; ctl := c |}.

(** [for (i = 0; i < CHUNK; i++) { tmp[i] = buffer[read_idx]; read_idx++;
    read_idx &= MASK; }] with [n] iterations left. *)
Fixpoint copy_loop (n : nat) (buffer : list float) (read_idx : Z)
  : option (list float * Z) :=
  match n with
  | O => Some ([], read_idx)
  | S n' =>
      v ← array_load buffer read_idx;
      let read_idx' := Z.land (to_u32 (read_idx + 1)) PCM_SINK_SAMPLE_BUFFER_SIZE_MASK in
      '(tmp, read_idx'') ← copy_loop n' buffer read_idx';
      Some (v :: tmp, read_idx'')
  end.

(** What one turn of the worker's loop comes to. *)
Inductive turn : Type :=
  | Waiting                      (* blocked in pthread_cond_wait *)
  | Terminated                   (* pthread_exit *)
  | Written (tmp : list float).  (* one chunk handed to pa_simple_write *)

(** [output_thread]: one turn of the [while (1)] loop, under the lock. *)
Definition output_thread (inst : pcm_sink) : option (pcm_sink * turn) :=
  if (buffer_used inst <? PCM_SINK_OUTPUT_CHUNK_SIZE) && thread_run inst
  then Some (inst, Waiting)
  else if negb (thread_run inst) then Some (inst, Terminated)
  else
    '(tmp, read_idx') ←
      copy_loop (Z.to_nat PCM_SINK_OUTPUT_CHUNK_SIZE) (buffer inst) (read_idx inst);
    Some ({| thread_run := thread_run inst; buffer := buffer inst; read_idx := read_idx';
             write_idx := write_idx inst; src_ratio := src_ratio inst; ctl := ctl inst |},
          Written tmp).

(** The two threads take the lock in some order: a schedule. *)
Inductive op : Type :=
  | Push (tmp_output_buf : list float) (output_frames_gen : Z)
  | Pop.

Definition step (inst : pcm_sink) (o : op) : option pcm_sink :=
  match o with
  | Push tmp_output_buf output_frames_gen =>
      pcm_sink_process inst tmp_output_buf output_frames_gen
  | Pop => fst <$> output_thread inst
  end.

Fixpoint run (inst : pcm_sink) (ops : list op) : option pcm_sink :=
  match ops with
  | [] => Some inst
  | o :: rest => inst' ← step inst o; run inst' rest
  end.

(** [float] is IEEE 754 binary32. *)
Definition f32_of_Z (z : Z) : spec_float := binary_normalize 24 128 z 0 false.
Definition f32_mul : spec_float -> spec_float -> spec_float := SFmul 24 128.
Definition f32_div : spec_float -> spec_float -> spec_float := SFdiv 24 128.

(** Conversion of a [uint16_t] to [int16_t]. *)
Definition to_i16 (z : Z) : Z := (z + 2 ^ 15) mod 2 ^ 16 - 2 ^ 15.

(** [tmp = data[(i * 2u) + 1u]; tmp <<= 8u; tmp |= data[i * 2u];
    s16le_sample = tmp;] *)
Definition s16le_sample (data : list Z) (i : Z) : option Z :=
  hi ← array_load data (to_u32 (to_u32 (i * 2) + 1));
  let tmp := to_u16 hi in
  let tmp := to_u16 (Z.shiftl tmp 8) in
  lo ← array_load data (to_u32 (i * 2));
  let tmp := to_u16 (Z.lor tmp lo) in
  Some (to_i16 tmp).

(** [(1.0f / (1u << 15u))] *)
Definition PCM_SCALE : spec_float := f32_div (f32_of_Z 1) (f32_of_Z (Z.shiftl 1 15)).

(** [s16le_sample * (1.0f / (1u << 15u))] *)
Definition sample_to_float (s : Z) : float := f32_mul (f32_of_Z s) PCM_SCALE.

(** [for (i = 0; i < nr_samples; i++) ... tmp_input_buf[i] = ...] with [n]
    iterations left: the values stored in [tmp_input_buf], in order. *)
Fixpoint convert_loop (n : nat) (i : Z) (data : list Z) : option (list float) :=
  match n with
  | O => Some []
  | S n' =>
      s ← s16le_sample data i;
      rest ← convert_loop n' (to_u32 (i + 1)) data;
      Some (sample_to_float s :: rest)
  end.

(** The conversion at the head of [pcm_sink_process]. *)
Definition convert_chunk (data : list Z) : option (list float) :=
  convert_loop (Z.to_nat (INPUT_CHUNK_SIZE / 2)) 0 data.

End PcmSink.

(** ** The AC-3 sink (ac3_sink.c, ac3_sink.h, config.h) *)

Module Ac3Sink.

Definition AC3_SINK_NUM_CHANNELS : Z := 6.
Definition AC3_SINK_OUTPUT_CHUNK_SIZE : Z := 96.
Definition AC3_SINK_SAMPLE_BUFFER_SIZE : Z := 32768.
Definition AC3_SINK_SAMPLE_BUFFER_SIZE_MASK : Z := to_u32 (AC3_SINK_SAMPLE_BUFFER_SIZE - 1).

(** [0.0000013334] as the nearest [double]. *)
Definition AC3_SINK_LOOP_GAIN : spec_float :=
  S754_finite false 0x165EE8CDF22C51 (-72).

(** Modelled from the spec: ac3_sink.c uses [AC3_SINK_BUFFER_TARGET_SAMPLES],
    which config.h under src/ does not define (it has
    [AC3_BUFFER_TARGET_SAMPLES], 384); the spec gives the AC-3 target fill
    as 384. *)
Definition AC3_SINK_BUFFER_TARGET_SAMPLES : Z := 384.

(** Modelled from the spec: config.h under src/ does not define
    [AC3_SINK_BUFFER_HIST_SIZE], the length of [history]; the spec asks for
    a power of two and recommends 16. *)
Definition AC3_SINK_BUFFER_HIST_SIZE : Z := 16.

(** [struct ac3_sink]: the fields the producer and the consumer share. *)
Record ac3_sink : Type := {
  thread_run : bool;
  buffer : list float;    (* float [AC3_SINK_SAMPLE_BUFFER_SIZE] *)
  read_idx : Z;           (* uint32_t *)
  write_idx : Z;          (* uint32_t *)
  src_ratio : spec_float;
  ctl : ControlLoop.control
}.

Definition buffer_space_avail (inst : ac3_sink) : Z :=
  ControlLoop.buffer_space_avail AC3_SINK_SAMPLE_BUFFER_SIZE_MASK
    (write_idx inst) (read_idx inst).

Definition buffer_used (inst : ac3_sink) : Z :=
  ControlLoop.buffer_used AC3_SINK_SAMPLE_BUFFER_SIZE_MASK
    (write_idx inst) (read_idx inst).

Definition calculate_rate_ratio (inst : ac3_sink)
  : option (ControlLoop.control * spec_float) :=
  ControlLoop.calculate_rate_ratio
    AC3_SINK_BUFFER_TARGET_SAMPLES AC3_SINK_SAMPLE_BUFFER_SIZE_MASK
    AC3_SINK_BUFFER_HIST_SIZE AC3_SINK_LOOP_GAIN
    (ctl inst) (write_idx inst) (read_idx inst).

(** [ac3_sink_open]. *)
Definition ac3_sink_open : ac3_sink :=
  {| thread_run := true;
     buffer := replicate (Z.to_nat AC3_SINK_SAMPLE_BUFFER_SIZE) (S754_zero false);
     read_idx := 0;
     write_idx := AC3_SINK_BUFFER_TARGET_SAMPLES;
     src_ratio := B64.one;
     ctl := ControlLoop.control_init AC3_SINK_BUFFER_HIST_SIZE |}.

(** [tmp_output_buf[ch][i]] *)
Definition sample_at (tmp_output_buf : list (list float)) (ch i : Z) : option float :=
  chan ← array_load tmp_output_buf ch;
  array_load chan i.

(** [buffer[write_idx] = tmp_output_buf[ch][i]; write_idx++;
    write_idx &= MASK;] *)
Definition queue_channel (tmp_output_buf : list (list float)) (ch i : Z)
    (st : list float * Z) : option (list float * Z) :=
  let '(buffer, write_idx) := st in
  v ← sample_at tmp_output_buf ch i;
  buffer' ← array_store AC3_SINK_SAMPLE_BUFFER_SIZE buffer write_idx v;
  Some (buffer', Z.land (to_u32 (write_idx + 1)) AC3_SINK_SAMPLE_BUFFER_SIZE_MASK).

(** The body of the copy loop: front left, front right, center, LFE,
    rear left, rear right. *)
Definition queue_frame (tmp_output_buf : list (list float)) (i : Z)
    (st : list float * Z) : option (list float * Z) :=
  st ← queue_channel tmp_output_buf 0 i st;
  st ← queue_channel tmp_output_buf 1 i st;
  st ← queue_channel tmp_output_buf 2 i st;
  st ← queue_channel tmp_output_buf 3 i st;
  st ← queue_channel tmp_output_buf 4 i st;
  queue_channel tmp_output_buf 5 i st.

(** [for (i = 0; i < output_frames_gen; i++) ...] with [n] iterations left. *)
Fixpoint queue_loop (n : nat) (i : Z) (tmp_output_buf : list (list float))
    (st : list float * Z) : option (list float * Z) :=
  match n with
  | O => Some st
  | S n' =>
      st' ← queue_frame tmp_output_buf i st;
      queue_loop n' (i + 1) tmp_output_buf st'
  end.

(** [ac3_sink_process] from [pthread_mutex_lock] on. The decoder and the
    resamplers are external: [tmp_output_buf] (one array per channel) and
    [output_frames_gen] are what they left behind for this frame. The
    second component tells whether the frame was queued. *)
Definition ac3_sink_process (inst : ac3_sink)
    (tmp_output_buf : list (list float)) (output_frames_gen : Z)
  : option (ac3_sink * bool) :=
  '(c, ratio) ← calculate_rate_ratio inst;
  let can_queue := buffer_space_avail inst in
  if can_queue <? output_frames_gen * 6 then
    Some ({| thread_run := thread_run inst; buffer := buffer inst;
             read_idx := read_idx inst; write_idx := write_idx inst;
             src_ratio := ratio; ctl := c |}, false)
  else
    '(buffer', write_idx') ←
      queue_loop (Z.to_nat output_frames_gen) 0 tmp_output_buf
        (buffer inst, write_idx inst);
    Some ({| thread_run := thread_run inst; buffer := buffer'; read_idx := read_idx inst;
             write_idx := write_idx'; src_ratio := ratio; ctl := c |}, true).

(** [ac3_sink_close]: the worker is told to stop and joined. *)
Definition ac3_sink_close (inst : ac3_sink) : ac3_sink :=
  {| thread_run := false; buffer := buffer inst; read_idx := read_idx inst;
     write_idx := write_idx inst; src_ratio := src_ratio inst; ctl := ctl inst |}.

(** [for (i = 0; i < CHUNK; i++) { tmp[i] = buffer[read_idx]; read_idx++;
    read_idx &= MASK; }] with [n] iterations left. *)
Fixpoint copy_loop (n : nat) (buffer : list float) (read_idx : Z)
  : option (list float * Z) :=
  match n with
  | O => Some ([], read_idx)
  | S n' =>
      v ← array_load buffer read_idx;
      let read_idx' := Z.land (to_u32 (read_idx + 1)) AC3_SINK_SAMPLE_BUFFER_SIZE_MASK in
      '(tmp, read_idx'') ← copy_loop n' buffer read_idx';
      Some (v :: tmp, read_idx'')
  end.

(** [output_thread]: one turn of the [while (1)] loop, under the lock. *)
Definition output_thread (inst : ac3_sink) : option (ac3_sink * PcmSink.turn) :=
  if (buffer_used inst <? AC3_SINK_OUTPUT_CHUNK_SIZE) && thread_run inst
  then Some (inst, PcmSink.Waiting)
  else if negb (thread_run inst) then Some (inst, PcmSink.Terminated)
  else
    '(tmp, read_idx') ←
      copy_loop (Z.to_nat AC3_SINK_OUTPUT_CHUNK_SIZE) (buffer inst) (read_idx inst);
    Some ({| thread_run := thread_run inst; buffer := buffer inst; read_idx := read_idx';
             write_idx := write_idx inst; src_ratio := src_ratio inst; ctl := ctl inst |},
          PcmSink.Written tmp).

(** The two threads take the lock in some order: a schedule. *)
Inductive op : Type :=
  | Push (tmp_output_buf : list (list float)) (output_frames_gen : Z)
  | Pop.

Definition step (inst : ac3_sink) (o : op) : option ac3_sink :=
  match o with
  | Push tmp_output_buf output_frames_gen =>
      fst <$> ac3_sink_process inst tmp_output_buf output_frames_gen
  | Pop => fst <$> output_thread inst
  end.

Fixpoint run (inst : ac3_sink) (ops : list op) : option ac3_sink :=
  match ops with
  | [] => Some inst
  | o :: rest => inst' ← step inst o; run inst' rest
  end.

End Ac3Sink.

(** ** The specification's wording, for comparison with the code *)

Module Spec.

(** The transition table of the specification: rows FIRST_0 to SYNC_1,
    columns [s == 0], [s == 0xF872], [s == 0x4E1F], else. *)
Definition table (st : Iec61937.iec_61937_state) (s : Z) : Iec61937.iec_61937_state :=
  match st with
  | Iec61937.IEC_61937_STATE_FIRST_0 =>
      if s =? 0 then Iec61937.IEC_61937_STATE_SECOND_0
      else Iec61937.IEC_61937_STATE_FIRST_0
  | Iec61937.IEC_61937_STATE_SECOND_0 =>
      if s =? 0 then Iec61937.IEC_61937_STATE_THIRD_0
      else Iec61937.IEC_61937_STATE_FIRST_0
  | Iec61937.IEC_61937_STATE_THIRD_0 =>
      if s =? 0 then Iec61937.IEC_61937_STATE_FOURTH_0
      else Iec61937.IEC_61937_STATE_FIRST_0
  | Iec61937.IEC_61937_STATE_FOURTH_0 =>
      if s =? 0 then Iec61937.IEC_61937_STATE_SYNC_0
      else Iec61937.IEC_61937_STATE_FIRST_0
  | Iec61937.IEC_61937_STATE_SYNC_0 =>
      if s =? 0 then Iec61937.IEC_61937_STATE_SYNC_0
      else if s =? 0xF872 then Iec61937.IEC_61937_STATE_SYNC_1
      else Iec61937.IEC_61937_STATE_FIRST_0
  | Iec61937.IEC_61937_STATE_SYNC_1 =>
      if s =? 0x4E1F then Iec61937.IEC_61937_STATE_DATA_TYPE
      else Iec61937.IEC_61937_STATE_FIRST_0
  | other => other
  end.

(** One step of the specification's machine in the states before PAYLOAD:
    the table, then the DATA_TYPE and LENGTH rules. Samples are the
    byte-swapped ones. The remaining fields keep their values. *)
Definition fsm_step (inst : Iec61937.iec_61937_fsm) (s : Z) : Iec61937.iec_61937_fsm :=
  match Iec61937.state inst with
  | Iec61937.IEC_61937_STATE_DATA_TYPE =>
      let data_type := Z.land s 0x7F in
      {| Iec61937.state :=
           if data_type =? 0x1F then Iec61937.IEC_61937_STATE_FIRST_0
           else Iec61937.IEC_61937_STATE_LENGTH;
         Iec61937.data_type := data_type;
         Iec61937.payload_len := Iec61937.payload_len inst;
         Iec61937.bytes_received := Iec61937.bytes_received inst;
         Iec61937.payload := Iec61937.payload inst |}
  | Iec61937.IEC_61937_STATE_LENGTH =>
      if Iec61937.data_type inst =? 0x01 then
        {| Iec61937.state := Iec61937.IEC_61937_STATE_PAYLOAD;
           Iec61937.data_type := Iec61937.data_type inst;
           Iec61937.payload_len := s / 8;
           Iec61937.bytes_received := 0;
           Iec61937.payload := Iec61937.payload inst |}
      else Iec61937.set_state inst Iec61937.IEC_61937_STATE_FIRST_0
  | st => Iec61937.set_state inst (table st s)
  end.

(** The specification's [locked] signal: beyond SYNC_1. *)
Definition beyond_sync_1 (st : Iec61937.iec_61937_state) : Prop :=
  st = Iec61937.IEC_61937_STATE_DATA_TYPE ∨
  st = Iec61937.IEC_61937_STATE_LENGTH ∨
  st = Iec61937.IEC_61937_STATE_PAYLOAD.

(** A synthesized AC-3 burst: the data-type word and the payload bytes. *)
Record burst : Type := { burst_pc : Z; burst_payload : list Z }.

(** Payload bytes packed two per 16-bit word, high byte first; an odd
    last byte is followed by the pad byte. *)
Fixpoint pack_words (pad : Z) (bytes : list Z) : list Z :=
  match bytes with
  | [] => []
  | [hi] => [hi * 256 + pad]
  | hi :: lo :: rest => (hi * 256 + lo) :: pack_words pad rest
  end.

(** The 16-bit words of a burst: four zero words, the two sync words, the
    data-type word, the length in bits, the payload. *)
Definition burst_words (pad : Z) (b : burst) : list Z :=
  [0; 0; 0; 0; 0xF872; 0x4E1F; burst_pc b;
   8 * Z.of_nat (length (burst_payload b))] ++ pack_words pad (burst_payload b).

(** The words as the capture delivers them: S16LE samples whose byte swap
    is the word. *)
Definition captured (words : list Z) : list Z := map bswap16 words.

Definition byte (b : Z) : Prop := 0 <= b < 256.

(** A valid AC-3 burst: the low 7 bits of the data-type word are 0x01, the
    payload is not empty and its length in bits fits the 16-bit length
    word. *)
Definition valid_burst (b : burst) : Prop :=
  0 <= burst_pc b < 65536 ∧ Z.land (burst_pc b) 0x7F = 0x01 ∧
  0 < Z.of_nat (length (burst_payload b)) <= 8191 ∧ Forall byte (burst_payload b).

(** The callback expected for a burst. *)
Definition burst_packet (b : burst) : Iec61937.packet :=
  {| Iec61937.pkt_data_type := 1;
     Iec61937.pkt_len := Z.of_nat (length (burst_payload b));
     Iec61937.pkt_payload := burst_payload b |}.

(** The mode arbiter of the specification. *)
Inductive mode : Set := UNKNOWN | PCM | IEC61937.

Inductive action : Type :=
  | OpenAc3 | CloseAc3 | OpenPcm | ClosePcm | ForwardPcm (chunk : list Z).

(** The detection window. *)
Definition W : Z := 64.

(** One chunk: the new mode, the new non_61937_count and the actions, in
    the order the specification lists them. *)
Definition arbiter_step (m : mode) (count : Z) (locked : bool) (chunk : list Z)
  : mode * Z * list action :=
  match m with
  | UNKNOWN =>
      if locked then (IEC61937, 0, [OpenAc3])
      else if count + 1 =? W then (PCM, count + 1, [OpenPcm])
      else (UNKNOWN, count + 1, [])
  | PCM =>
      if locked then (IEC61937, 0, [ClosePcm; OpenAc3])
      else (PCM, count, [ForwardPcm chunk])
  | IEC61937 =>
      if locked then (IEC61937, 0, [])
      else if count + 1 =? W then (PCM, count + 1, [CloseAc3; OpenPcm])
      else (IEC61937, count + 1, [])
  end.

Definition mode_of (s : Arbiter.iec_60958_state) : mode :=
  match s with
  | Arbiter.IEC_60958_STATE_UNKNOWN => UNKNOWN
  | Arbiter.IEC_60958_STATE_PCM => PCM
  | Arbiter.IEC_60958_STATE_61937 => IEC61937
  end.

(** The sink call an action stands for. *)
Definition call_of (latency_us : Z) (a : action) : Arbiter.sink_call :=
  match a with
  | OpenAc3 => Arbiter.ac3_sink_open latency_us
  | CloseAc3 => Arbiter.ac3_sink_close
  | OpenPcm => Arbiter.pcm_sink_open latency_us
  | ClosePcm => Arbiter.pcm_sink_close
  | ForwardPcm chunk => Arbiter.pcm_sink_process chunk
  end.

End Spec.

(** ** Invariants used below *)

(** The payload array keeps its 65536 bytes. *)
Definition fsm_wf (inst : Iec61937.iec_61937_fsm) : Prop :=
  Z.of_nat (length (Iec61937.payload inst)) = Iec61937.IEC_61937_MAX_BURST_PAYLOAD.

(** The length parsed in LENGTH is a 16-bit count of bits over 8, and
    PAYLOAD is only entered for AC-3. *)
Definition fsm_len_inv (inst : Iec61937.iec_61937_fsm) : Prop :=
  0 <= Iec61937.payload_len inst <= 8191 ∧
  (Iec61937.state inst = Iec61937.IEC_61937_STATE_PAYLOAD ->
   Iec61937.data_type inst = Iec61937.IEC_61937_DATA_TYPE_AC3).

(** What is observed of an instance in the examples. *)
Definition fsm_view (r : Iec61937.iec_61937_fsm * list bool * list Iec61937.packet)
  : Iec61937.iec_61937_state * Z * Z * list Iec61937.packet :=
  (Iec61937.state r.1.1, Iec61937.payload_len r.1.1,
   Iec61937.bytes_received r.1.1, r.2).

(** A burst header whose length word is zero, then one more word. *)
Definition zero_length_stream : list Z :=
  Spec.captured [0; 0; 0; 0; 0xF872; 0x4E1F; 0x0001; 0x0000; 0x0000].

(** The samples [process_chunk_iec_61937] assembles from a chunk. *)
Fixpoint chunk_samples (chunk : list Z) : list Z :=
  match chunk with
  | b0 :: b1 :: rest => to_u16 (Z.lor b0 (Z.shiftl b1 8)) :: chunk_samples rest
  | _ => []
  end.

(** The counter in each arbiter state. *)
Definition arbiter_inv (inst : Arbiter.iec_60958) : Prop :=
  match Arbiter.state inst with
  | Arbiter.IEC_60958_STATE_PCM =>
      Arbiter.non_61937_chunks inst = Arbiter.IEC_61937_DETECTION_WINDOW
  | _ => 0 <= Arbiter.non_61937_chunks inst < Arbiter.IEC_61937_DETECTION_WINDOW
  end.

(** The sinks each arbiter state goes with. *)
Definition sinks_of_state (s : Arbiter.iec_60958_state) : Arbiter.sinks :=
  match s with
  | Arbiter.IEC_60958_STATE_UNKNOWN => Arbiter.no_sink
  | Arbiter.IEC_60958_STATE_PCM =>
      {| Arbiter.pcm_thread_run := true; Arbiter.ac3_thread_run := false |}
  | Arbiter.IEC_60958_STATE_61937 =>
      {| Arbiter.pcm_thread_run := false; Arbiter.ac3_thread_run := true |}
  end.

(** The control fields of a sink at any time after [*_sink_open]: the
    history holds [size] clamped offsets and [histidx] is inside it. *)
Definition control_ok (target size : Z) (c : ControlLoop.control) : Prop :=
  Z.of_nat (length (ControlLoop.history c)) = size ∧
  0 <= ControlLoop.histidx c < size ∧
  Forall (λ h, - target <= h <= target) (ControlLoop.history c).

(** [1 - G*T] and [1 + G*T], computed in [double] like the ratio itself. *)
Definition ratio_lower (gain : spec_float) (target : Z) : spec_float :=
  B64.sub B64.one (B64.mul gain (B64.of_Z target)).

Definition ratio_upper (gain : spec_float) (target : Z) : spec_float :=
  B64.add B64.one (B64.mul gain (B64.of_Z target)).

Definition ratio_in_bounds (gain : spec_float) (target : Z) (ratio : spec_float) : bool :=
  B64.leb (ratio_lower gain target) ratio && B64.leb ratio (ratio_upper gain target).

(** A [double] divided by 16, when nothing is lost: its exponent less 4. *)
Definition scale_16 (x : spec_float) : spec_float :=
  match x with
  | S754_finite s m e => S754_finite s m (e - 4)
  | _ => x
  end.

(** The end of [calculate_rate_ratio] on a history of 16 entries that add
    up to [sum]: the average is defined and the ratio is within the
    bounds. [one], [lower] and [upper] are 1.0 and the two bounds, computed
    once. *)
Definition sum_in_bounds (gain one lower upper : spec_float) (sum : Z) : bool :=
  let accum := scale_16 (B64.of_Z sum) in
  match B64.to_i32 accum with
  | Some _ =>
      let ratio := B64.add (B64.mul gain accum) one in
      B64.leb lower ratio && B64.leb ratio upper
  | None => false
  end.

(** [p] on [lo], [lo + 1], ..., [n] values in all. *)
Fixpoint forall_range (n : nat) (lo : Z) (p : Z -> bool) : bool :=
  match n with
  | O => true
  | S n' => p lo && forall_range n' (lo + 1) p
  end.

(** Every sum a history of 16 clamped offsets can have. *)
Definition all_sums_in_bounds (gain : spec_float) (target : Z) : bool :=
  let one := B64.one in
  let lower := ratio_lower gain target in
  let upper := ratio_upper gain target in
  forall_range (Z.to_nat (2 * 16 * target + 1)) (- (16 * target))
    (sum_in_bounds gain one lower upper).

(** Values written one after the other into a ring of [size] slots,
    starting at slot [w]: the ring and the next slot. *)
Fixpoint ring_write (size : Z) (ring : list float) (w : Z) (vs : list float)
  : list float * Z :=
  match vs with
  | [] => (ring, w)
  | v :: rest => ring_write size (<[Z.to_nat w := v]> ring) ((w + 1) mod size) rest
  end.

(** The samples of [n] frames from frame [i] on, in the order the AC-3
    copy loop takes them; [f ch i] is the sample of channel [ch] in frame
    [i]. *)
Fixpoint frames_from (f : Z -> Z -> float) (i : Z) (n : nat) : list float :=
  match n with
  | O => []
  | S n' => [f 0 i; f 1 i; f 2 i; f 3 i; f 4 i; f 5 i] ++ frames_from f (i + 1) n'
  end.

(** An AC-3 sink at any time after [ac3_sink_open]. *)
Definition ac3_ok (inst : Ac3Sink.ac3_sink) : Prop :=
  Z.of_nat (length (Ac3Sink.buffer inst)) = Ac3Sink.AC3_SINK_SAMPLE_BUFFER_SIZE ∧
  0 <= Ac3Sink.write_idx inst < Ac3Sink.AC3_SINK_SAMPLE_BUFFER_SIZE ∧
  0 <= Ac3Sink.read_idx inst < Ac3Sink.AC3_SINK_SAMPLE_BUFFER_SIZE ∧
  control_ok Ac3Sink.AC3_SINK_BUFFER_TARGET_SAMPLES Ac3Sink.AC3_SINK_BUFFER_HIST_SIZE
    (Ac3Sink.ctl inst).

(** What is observed of a PCM sink in the examples. *)
Definition pcm_indices (inst : PcmSink.pcm_sink) : Z * Z :=
  (PcmSink.write_idx inst, PcmSink.read_idx inst).

(** Eight chunks resampled at a ratio of one (128 frames each) and queued
    while the worker does not get to run. *)
Definition eight_pushes : list PcmSink.op :=
  replicate 8 (PcmSink.Push (replicate 512 (S754_zero false)) 128).

(** ** Concrete inputs for the examples *)

(** A three-byte AC-3 burst. *)
Definition example_burst : Spec.burst :=
  {| Spec.burst_pc := 0x0001; Spec.burst_payload := [0xAB; 0xCD; 0xEF] |}.

(** That burst, then the header of a two-byte burst. *)
Definition example_stream : list Z :=
  Spec.captured (Spec.burst_words 0 example_burst
                 ++ [0; 0; 0; 0; 0xF872; 0x4E1F; 0x0001; 16]).

(** A chunk of silence, and a chunk that starts with a one-byte burst. *)
Definition silent_chunk : list Z := replicate 512 0.

Definition burst_chunk : list Z :=
  [0; 0; 0; 0; 0; 0; 0; 0; 0xF8; 0x72; 0x4E; 0x1F; 0x00; 0x01; 0x00; 0x08; 0xAB; 0xCD]
  ++ replicate 494 0.

(** What is observed of the arbiter in the examples. *)
Definition arbiter_view (r : Arbiter.iec_60958 * list Arbiter.sink_call)
  : Arbiter.iec_60958_state * Z * list Arbiter.sink_call :=
  (Arbiter.state r.1, Arbiter.non_61937_chunks r.1, r.2).

(** One decoded frame of one sample per channel. *)
Definition one_frame : list (list float) :=
  [[B64.of_Z 10]; [B64.of_Z 11]; [B64.of_Z 12]; [B64.of_Z 13]; [B64.of_Z 14]; [B64.of_Z 15]].


(** ** Further invariants and inputs *)

(** The machine as long as no burst of length zero has been announced. *)
Definition fsm_safe (inst : Iec61937.iec_61937_fsm) : Prop :=
  fsm_wf inst ∧
  0 <= Iec61937.bytes_received inst <= Iec61937.payload_len inst ∧
  Iec61937.payload_len inst <= 8191 ∧
  (Iec61937.state inst = Iec61937.IEC_61937_STATE_PAYLOAD ->
   Iec61937.bytes_received inst < Iec61937.payload_len inst).

(** A stream of words that holds a burst preamble: four zero words, any
    number of further zero words, then the two sync words. *)
Definition preamble_in (words : list Z) : Prop :=
  ∃ pre k post,
    words = pre ++ [0; 0; 0; 0] ++ replicate k 0 ++ [0xF872; 0x4E1F] ++ post.

(** What the words seen so far end with, in each state of the machine. *)
Definition seen_in_state (seen : list Z) (st : Iec61937.iec_61937_state) : Prop :=
  match st with
  | Iec61937.IEC_61937_STATE_FIRST_0 => True
  | Iec61937.IEC_61937_STATE_SECOND_0 => ∃ pre, seen = pre ++ [0]
  | Iec61937.IEC_61937_STATE_THIRD_0 => ∃ pre, seen = pre ++ [0; 0]
  | Iec61937.IEC_61937_STATE_FOURTH_0 => ∃ pre, seen = pre ++ [0; 0; 0]
  | Iec61937.IEC_61937_STATE_SYNC_0 =>
      ∃ pre k, seen = pre ++ [0; 0; 0; 0] ++ replicate k 0
  | Iec61937.IEC_61937_STATE_SYNC_1 =>
      ∃ pre k, seen = pre ++ [0; 0; 0; 0] ++ replicate k 0 ++ [0xF872]
  | _ => preamble_in seen
  end.

(** The machine is still looking for the sync words. *)
Definition hunting (st : Iec61937.iec_61937_state) : Prop :=
  Iec61937.state_value st <= Iec61937.state_value Iec61937.IEC_61937_STATE_SYNC_0.

(** The state after a zero word, while the machine looks for the sync
    words. *)
Definition zero_step (st : Iec61937.iec_61937_state) : Iec61937.iec_61937_state :=
  match st with
  | Iec61937.IEC_61937_STATE_FIRST_0 => Iec61937.IEC_61937_STATE_SECOND_0
  | Iec61937.IEC_61937_STATE_SECOND_0 => Iec61937.IEC_61937_STATE_THIRD_0
  | Iec61937.IEC_61937_STATE_THIRD_0 => Iec61937.IEC_61937_STATE_FOURTH_0
  | Iec61937.IEC_61937_STATE_FOURTH_0 => Iec61937.IEC_61937_STATE_SYNC_0
  | _ => st
  end.

(** The state after [n] zero words. *)
Definition after_zeros (st : Iec61937.iec_61937_state) (n : nat) : Iec61937.iec_61937_state :=
  Nat.iter n zero_step st.

(** A packet as the callback can use it: [len] bytes, at least one. *)
Definition packet_ok (p : Iec61937.packet) : Prop :=
  1 <= Iec61937.pkt_len p <= 8191 ∧
  Z.of_nat (length (Iec61937.pkt_payload p)) = Iec61937.pkt_len p.

(** The bytes of a chunk taken in pairs as big-endian 16-bit words, the
    order in which the words of IEC 61937 are transmitted. *)
Fixpoint be_words (chunk : list Z) : list Z :=
  match chunk with
  | b0 :: b1 :: rest => (b0 * 256 + b1) :: be_words rest
  | _ => []
  end.

(** The bytes that carry [words] in that order. *)
Definition bytes_of_words (words : list Z) : list Z :=
  flat_map (λ w, [w / 256; w mod 256]) words.

(** The sink calls for [chunks] in none of which the state machine locks,
    when the arbiter is in state [st] with [count] chunks counted: nothing
    until the detection window is full, then the switch to PCM, then every
    chunk forwarded. *)
Definition quiet_calls (st : Arbiter.iec_60958_state) (count latency_us : Z)
    (chunks : list (list Z)) : list Arbiter.sink_call :=
  match st with
  | Arbiter.IEC_60958_STATE_PCM => map Arbiter.pcm_sink_process chunks
  | _ =>
      if count + Z.of_nat (length chunks) <? Arbiter.IEC_61937_DETECTION_WINDOW then []
      else
        match st with
        | Arbiter.IEC_60958_STATE_61937 => [Arbiter.ac3_sink_close]
        | _ => []
        end
        ++ [Arbiter.pcm_sink_open latency_us]
        ++ map Arbiter.pcm_sink_process
             (drop (Z.to_nat (Arbiter.IEC_61937_DETECTION_WINDOW - count)) chunks)
  end.

(** The arbiter state and counter after such chunks. *)
Definition quiet_state (st : Arbiter.iec_60958_state) (count : Z) (n : nat)
  : Arbiter.iec_60958_state * Z :=
  match st with
  | Arbiter.IEC_60958_STATE_PCM => (st, count)
  | _ =>
      if count + Z.of_nat n <? Arbiter.IEC_61937_DETECTION_WINDOW
      then (st, count + Z.of_nat n)
      else (Arbiter.IEC_60958_STATE_PCM, Arbiter.IEC_61937_DETECTION_WINDOW)
  end.

(** The call that hands a burst to the AC-3 sink. *)
Definition burst_call (b : Spec.burst) : Arbiter.sink_call :=
  Arbiter.ac3_sink_process (Spec.burst_payload b)
    (Z.of_nat (length (Spec.burst_payload b))).

(** An arbiter that has locked on a stream and waits for the next burst. *)
Definition locked_arbiter : Arbiter.iec_60958 :=
  Arbiter.set_state (Arbiter.iec_60958_init 0) Arbiter.IEC_60958_STATE_61937.

(** 65 chunks of digital silence. *)
Definition long_silence : list (list Z) := replicate 65 silent_chunk.

(** ** The rings as queues *)

(** The [n] values read from a ring of [size] slots, from slot [r] on. *)
Fixpoint ring_read (size : Z) (ring : list float) (r : Z) (n : nat) : list float :=
  match n with
  | O => []
  | S n' => option_list (ring !! Z.to_nat r) ++ ring_read size ring ((r + 1) mod size) n'
  end.

(** A PCM sink at any time after [pcm_sink_open]. *)
Definition pcm_ok (inst : PcmSink.pcm_sink) : Prop :=
  Z.of_nat (length (PcmSink.buffer inst)) = PcmSink.PCM_SINK_SAMPLE_BUFFER_SIZE ∧
  0 <= PcmSink.write_idx inst < PcmSink.PCM_SINK_SAMPLE_BUFFER_SIZE ∧
  0 <= PcmSink.read_idx inst < PcmSink.PCM_SINK_SAMPLE_BUFFER_SIZE ∧
  control_ok PcmSink.PCM_SINK_BUFFER_TARGET_SAMPLES PcmSink.PCM_SINK_BUFFER_HIST_SIZE
    (PcmSink.ctl inst).

(** The samples waiting in a sink, oldest first. *)
Definition pcm_queue (inst : PcmSink.pcm_sink) : list float :=
  ring_read PcmSink.PCM_SINK_SAMPLE_BUFFER_SIZE (PcmSink.buffer inst)
    (PcmSink.read_idx inst) (Z.to_nat (PcmSink.buffer_used inst)).

Definition ac3_queue (inst : Ac3Sink.ac3_sink) : list float :=
  ring_read Ac3Sink.AC3_SINK_SAMPLE_BUFFER_SIZE (Ac3Sink.buffer inst)
    (Ac3Sink.read_idx inst) (Z.to_nat (Ac3Sink.buffer_used inst)).

(** The samples a worker hands to [pa_simple_write] in one turn. *)
Definition turn_output (t : PcmSink.turn) : list float :=
  match t with
  | PcmSink.Written tmp => tmp
  | _ => []
  end.

(** A schedule of the PCM sink: the samples the worker hands to
    [pa_simple_write], in order. *)
Fixpoint pcm_written (inst : PcmSink.pcm_sink) (ops : list PcmSink.op)
  : option (list float) :=
  match ops with
  | [] => Some []
  | PcmSink.Push tmp_output_buf output_frames_gen :: rest =>
      inst' ← PcmSink.pcm_sink_process inst tmp_output_buf output_frames_gen;
      pcm_written inst' rest
  | PcmSink.Pop :: rest =>
      '(inst', t) ← PcmSink.output_thread inst;
      out ← pcm_written inst' rest;
      Some (turn_output t ++ out)
  end.

(** A producer step as the resampler leaves it: [output_frames_gen]
    frames of two samples, all of them in [tmp_output_buf]. *)
Definition pcm_op_ok (o : PcmSink.op) : Prop :=
  match o with
  | PcmSink.Push tmp_output_buf output_frames_gen =>
      0 <= output_frames_gen ∧ 2 * output_frames_gen <= Z.of_nat (length tmp_output_buf)
  | PcmSink.Pop => True
  end.

(** A schedule of the PCM sink: the sink as each producer step leaves
    it. *)
Fixpoint pcm_after_pushes (inst : PcmSink.pcm_sink) (ops : list PcmSink.op)
  : option (list PcmSink.pcm_sink) :=
  match ops with
  | [] => Some []
  | PcmSink.Push tmp_output_buf output_frames_gen :: rest =>
      inst' ← PcmSink.pcm_sink_process inst tmp_output_buf output_frames_gen;
      after ← pcm_after_pushes inst' rest;
      Some (inst' :: after)
  | PcmSink.Pop :: rest =>
      '(inst', _) ← PcmSink.output_thread inst;
      pcm_after_pushes inst' rest
  end.

(** The ring is full: the write index is one slot behind the read
    index. *)
Definition pcm_full (inst : PcmSink.pcm_sink) : Prop :=
  (PcmSink.write_idx inst - PcmSink.read_idx inst) mod 2048 = 2047.

(** What a producer step kept of the chunk generated for it, with the
    sink it left: the whole chunk, or a prefix of it that filled the
    ring. *)
Definition pcm_kept (q : list float * PcmSink.pcm_sink) (generated : list float) : Prop :=
  q.1 `prefix_of` generated ∧ (q.1 = generated ∨ pcm_full q.2).

(** The samples the resampler generated for each producer step. *)
Definition pcm_generated (o : PcmSink.op) : list (list float) :=
  match o with
  | PcmSink.Push tmp_output_buf output_frames_gen =>
      [take (Z.to_nat (2 * output_frames_gen)) tmp_output_buf]
  | PcmSink.Pop => []
  end.

(** Chunks of 128 resampled frames: three with the worker running in
    between, then five while it does not get to run, the last of which
    does not fit. *)
Definition pcm_schedule : list PcmSink.op :=
  [PcmSink.Push (replicate 256 (B64.of_Z 1)) 128; PcmSink.Pop;
   PcmSink.Push (replicate 256 (B64.of_Z 2)) 128; PcmSink.Pop; PcmSink.Pop;
   PcmSink.Push (replicate 256 (B64.of_Z 3)) 128;
   PcmSink.Push (replicate 256 (B64.of_Z 4)) 128;
   PcmSink.Push (replicate 256 (B64.of_Z 5)) 128;
   PcmSink.Push (replicate 256 (B64.of_Z 6)) 128;
   PcmSink.Push (replicate 256 (B64.of_Z 7)) 128;
   PcmSink.Push (replicate 256 (B64.of_Z 8)) 128].

(** A decoded and resampled AC-3 frame in the order it goes to the
    output: frame by frame, channels 0 to 5. *)
Definition ac3_interleaved (tmp_output_buf : list (list float)) (output_frames_gen : Z)
  : list float :=
  frames_from (λ ch i, default (S754_zero false) (Ac3Sink.sample_at tmp_output_buf ch i))
    0 (Z.to_nat output_frames_gen).

(** A schedule of the AC-3 sink: the samples the worker hands to
    [pa_simple_write], in order. *)
Fixpoint ac3_written (inst : Ac3Sink.ac3_sink) (ops : list Ac3Sink.op)
  : option (list float) :=
  match ops with
  | [] => Some []
  | Ac3Sink.Push tmp_output_buf output_frames_gen :: rest =>
      '(inst', _) ← Ac3Sink.ac3_sink_process inst tmp_output_buf output_frames_gen;
      ac3_written inst' rest
  | Ac3Sink.Pop :: rest =>
      '(inst', t) ← Ac3Sink.output_thread inst;
      out ← ac3_written inst' rest;
      Some (turn_output t ++ out)
  end.

(** A producer step as the resamplers leave it: [output_frames_gen]
    frames in each of the six channel buffers. *)
Definition ac3_op_ok (o : Ac3Sink.op) : Prop :=
  match o with
  | Ac3Sink.Push tmp_output_buf output_frames_gen =>
      0 <= output_frames_gen ∧
      ∀ ch i, 0 <= ch < 6 -> 0 <= i < output_frames_gen ->
              is_Some (Ac3Sink.sample_at tmp_output_buf ch i)
  | Ac3Sink.Pop => True
  end.

(** The samples generated for each producer step. *)
Definition ac3_generated (o : Ac3Sink.op) : list (list float) :=
  match o with
  | Ac3Sink.Push tmp_output_buf output_frames_gen =>
      [ac3_interleaved tmp_output_buf output_frames_gen]
  | Ac3Sink.Pop => []
  end.

(** A frame is queued whole or not at all. *)
Definition whole_or_dropped (acc generated : list float) : Prop :=
  acc = [] ∨ acc = generated.

(** Two frames of one sample per channel, the worker running in between. *)
Definition ac3_schedule : list Ac3Sink.op :=
  [Ac3Sink.Push one_frame 1; Ac3Sink.Pop; Ac3Sink.Push one_frame 1; Ac3Sink.Pop].

(** ** The control loop's direction *)

(** The ratio is below, at or above 1.0 as [sum] is below, at or above
    zero. *)
Definition ratio_sign (sum : Z) (ratio : spec_float) : Prop :=
  match sum ?= 0 with
  | Lt => SFltb ratio B64.one = true
  | Eq => ratio = B64.one
  | Gt => SFltb B64.one ratio = true
  end.

(** The end of [calculate_rate_ratio] on a history of 16 entries that add
    up to [sum], compared with [one]. *)
Definition sum_directed (gain one : spec_float) (sum : Z) : bool :=
  let ratio := B64.add (B64.mul gain (scale_16 (B64.of_Z sum))) one in
  match sum ?= 0 with
  | Lt => SFltb ratio one
  | Eq => true
  | Gt => SFltb one ratio
  end.

(** Every sum a history of 16 clamped offsets can have. *)
Definition all_sums_directed (gain : spec_float) (target : Z) : bool :=
  let one := B64.one in
  forall_range (Z.to_nat (2 * 16 * target + 1)) (- (16 * target))
    (sum_directed gain one).

(** The last [k] offsets stored in the history are zero. *)
Definition zeros_behind (k : Z) (c : ControlLoop.control) : Prop :=
  ∀ j, 1 <= j <= k ->
       ControlLoop.history c !! Z.to_nat ((ControlLoop.histidx c - j) mod 16) = Some 0.

(** The offset stored for a fill of [used] samples. *)
Definition offset_of_fill (target used : Z) : Z :=
  ControlLoop.clamp_offset target (target - used).

(** Successive calls that all find the ring filled to the target. *)
Definition on_target (mask target : Z) (indices : list (Z * Z)) : Prop :=
  Forall (λ '(w, r), ControlLoop.buffer_used mask w r = target) indices.

(** Twenty calls of the PCM sink's loop with 128 samples queued. *)
Definition pcm_steady : list (Z * Z) := replicate 20 (128, 0).

(** Twenty calls of the AC-3 sink's loop with 384 samples queued. *)
Definition ac3_steady : list (Z * Z) := replicate 20 (384, 0).

(** A burst after [s.1] words of zero stuffing. *)
Definition stuffed_words (pad : Z) (s : nat * Spec.burst) : list Z :=
  replicate s.1 0 ++ Spec.burst_words pad s.2.

(** The state machine over successive chunks, as the read loop of [main]
    drives it through [iec_60958_process]: the final machine, the value
    returned for each chunk and the callbacks. *)
Fixpoint process_chunks (inst : Iec61937.iec_61937_fsm) (chunks : list (list Z))
  : option (Iec61937.iec_61937_fsm * list bool * list Iec61937.packet) :=
  match chunks with
  | [] => Some (inst, [], [])
  | c :: rest =>
      '(inst1, locked, pkts) ← Arbiter.process_chunk_iec_61937 inst c;
      '(inst2, flags, pkts') ← process_chunks inst1 rest;
      Some (inst2, locked :: flags, pkts ++ pkts')
  end.

(** Two one-byte bursts with stuffing, cut into chunks of 6, 10, 12, 2,
    10 and 12 bytes. *)
Definition stuffed_example : list (nat * Spec.burst) :=
  [(3%nat, {| Spec.burst_pc := 0x0001; Spec.burst_payload := [0xAB] |});
   (2%nat, {| Spec.burst_pc := 0x0001; Spec.burst_payload := [0xCD] |})].

Definition stuffed_chunks : list (list Z) :=
  [[0; 0; 0; 0; 0; 0]; [0; 0; 0; 0; 0; 0; 0; 0; 0xF8; 0x72];
   [0x4E; 0x1F; 0; 1; 0; 8; 0xAB; 0; 0; 0; 0; 0]; [0; 0];
   [0; 0; 0; 0; 0; 0; 0xF8; 0x72; 0x4E; 0x1F]; [0; 1; 0; 8; 0xCD; 0; 0; 0; 0; 0; 0; 0]].

(** The machine after a header that announced no payload: it stays in
    PAYLOAD, storing every word, and never calls back. *)
Definition fsm_stuck (inst : Iec61937.iec_61937_fsm) : Prop :=
  fsm_wf inst ∧ Iec61937.state inst = Iec61937.IEC_61937_STATE_PAYLOAD ∧
  Iec61937.payload_len inst = 0 ∧ 0 <= Iec61937.bytes_received inst.

(** What a sink call hands over: for the AC-3 sink a whole payload with
    its length. *)
Definition call_payload_ok (c : Arbiter.sink_call) : Prop :=
  match c with
  | Arbiter.ac3_sink_process data len =>
      1 <= len <= 8191 ∧ Z.of_nat (length data) = len
  | _ => True
  end.

(** Two chunks that each start with a one-byte burst. *)
Definition two_burst_chunks : list (list Z) := [burst_chunk; burst_chunk].

(** ** The conversion of PCM samples *)

(** The integer [x * 2 ^ k], when [x] is finite and that is an integer. *)
Definition scaled (k : Z) (x : spec_float) : option Z :=
  match x with
  | S754_zero _ => Some 0
  | S754_finite s m e =>
      if 0 <=? e + k then Some (cond_Zopp s (Z.shiftl (Z.pos m) (e + k)))
      else if Z.land (Z.pos m) (Z.ones (- (e + k))) =? 0
           then Some (cond_Zopp s (Z.shiftr (Z.pos m) (- (e + k))))
           else None
  | _ => None
  end.

(** The sample [s] converts to exactly [s / 32768]; [scale] is the
    factor, computed once. *)
Definition sample_exact (scale : spec_float) (s : Z) : bool :=
  match scaled 15 (PcmSink.f32_mul (PcmSink.f32_of_Z s) scale) with
  | Some z => z =? s
  | None => false
  end.

(** The [n] samples from -32768 on. *)
Definition all_samples_exact (scale : spec_float) (n : nat) : bool :=
  forall_range n (- 32768) (sample_exact scale).

(** The value of the little-endian 16-bit sample [lo], [hi]. *)
Definition s16le_value (lo hi : Z) : Z :=
  if hi <? 128 then hi * 256 + lo else hi * 256 + lo - 65536.

(** A chunk that holds the samples 0, 1, -1, 32767 and -32768 and then
    silence. *)
Definition pcm_chunk : list Z :=
  [0; 0; 1; 0; 0xFF; 0xFF; 0xFF; 0x7F; 0; 0x80] ++ replicate 502 0.

(** ** The ratio against the bounds in real numbers *)

(** [x > num / den] exactly, for a positive [den]. *)
Definition exceeds (x : spec_float) (num den : Z) : bool :=
  match x with
  | S754_zero _ => num <? 0
  | S754_finite s m e =>
      let v := cond_Zopp s (Z.pos m) in
      if 0 <=? e then num <? v * 2 ^ e * den else num * 2 ^ (- e) <? v * den
  | S754_infinity s => negb s
  | S754_nan => false
  end.

(** [x < num / den] exactly, for a positive [den]. *)
Definition below (x : spec_float) (num den : Z) : bool :=
  match x with
  | S754_zero _ => 0 <? num
  | S754_finite s m e =>
      let v := cond_Zopp s (Z.pos m) in
      if 0 <=? e then v * 2 ^ e * den <? num else v * den <? num * 2 ^ (- e)
  | S754_infinity s => s
  | S754_nan => false
  end.


(** The ratio of the PCM sink after them. *)
Definition pcm_max_ratio : spec_float := S754_finite false 4505905470379710 (-52).
(** * Properties *)

(** ** Machine integers *)

Lemma bswap16_range x : 0 <= bswap16 x < 65536.
Proof.
  unfold bswap16.
  pose proof (Z.mod_pos_bound x 256 ltac:(lia)).
  pose proof (Z.mod_pos_bound (x / 256) 256 ltac:(lia)). lia.
Qed.

Lemma bswap16_involutive x : 0 <= x < 65536 -> bswap16 (bswap16 x) = x.
Proof.
  intros Hx. unfold bswap16.
  pose proof (Z.mod_pos_bound x 256 ltac:(lia)) as Hlo.
  assert (Hhi : 0 <= x / 256 < 256).
  { split; [apply Z.div_pos; lia | apply Z.div_lt_upper_bound; lia]. }
  rewrite (Z.mod_small (x / 256) 256) by lia.
  replace ((x mod 256 * 256 + x / 256) mod 256) with (x / 256).
  2:{ rewrite Z.add_comm, Z.mod_add by lia. now rewrite Z.mod_small by lia. }
  replace ((x mod 256 * 256 + x / 256) / 256) with (x mod 256).
  2:{ rewrite Z.add_comm, Z.div_add by lia. rewrite (Z.div_small (x / 256)) by lia. lia. }
  rewrite (Z.mod_small (x mod 256)) by lia.
  pose proof (Z.div_mod x 256 ltac:(lia)). lia.
Qed.

(** ** The IEC 61937 state machine *)

Section Iec61937Facts.
Import Iec61937.

Lemma fsm_init_wf : fsm_wf iec_61937_fsm_init.
Proof.
  unfold fsm_wf, iec_61937_fsm_init, payload. rewrite length_replicate.
  apply Z2Nat.id. unfold IEC_61937_MAX_BURST_PAYLOAD. lia.
Qed.

Lemma payload_push_inv inst v inst' :
  payload_push inst v = Some inst' ->
  state inst' = state inst ∧ data_type inst' = data_type inst ∧
  payload_len inst' = payload_len inst ∧
  bytes_received inst' = bytes_received inst + 1 ∧
  0 <= bytes_received inst < IEC_61937_MAX_BURST_PAYLOAD ∧
  payload inst' = <[Z.to_nat (bytes_received inst) := to_u8 v]> (payload inst).
Proof.
  unfold payload_push. intros H.
  destruct (0 <=? bytes_received inst) eqn:E1; simpl in H; [|discriminate].
  destruct (bytes_received inst <? IEC_61937_MAX_BURST_PAYLOAD) eqn:E2; [|discriminate].
  apply Z.leb_le in E1. apply Z.ltb_lt in E2.
  injection H as <-. simpl. repeat split; try lia.
  unfold to_size, SIZE_WIDTH. apply Z.mod_small.
  unfold IEC_61937_MAX_BURST_PAYLOAD in E2. lia.
Qed.

Lemma payload_push_defined inst v :
  0 <= bytes_received inst < IEC_61937_MAX_BURST_PAYLOAD ->
  is_Some (payload_push inst v).
Proof.
  intros [H1 H2]. unfold payload_push.
  apply Z.leb_le in H1. apply Z.ltb_lt in H2. rewrite H1, H2. simpl. eauto.
Qed.

Lemma fsm_run_switch inst x inst' ret cb :
  iec_61937_fsm_run inst x = Some (inst', ret, cb) ->
  fsm_switch inst (bswap16 x) = Some (inst', cb) ∧
  ret = (state_value IEC_61937_STATE_SYNC_1 <? state_value (state inst')).
Proof.
  unfold iec_61937_fsm_run. intros H.
  destruct (fsm_switch inst (bswap16 x)) as [[i c]|]; simpl in H; [|discriminate].
  injection H as <- <- <-. split; reflexivity.
Qed.

Lemma lock_flag_spec st :
  (state_value IEC_61937_STATE_SYNC_1 <? state_value st) = true <-> Spec.beyond_sync_1 st.
Proof.
  unfold Spec.beyond_sync_1.
  destruct st; simpl; split; intros H; try discriminate; auto;
    destruct H as [H|[H|H]]; discriminate.
Qed.

(** The switch has a result unless the payload array would be overrun. *)
Lemma fsm_switch_defined inst s :
  state inst ≠ IEC_61937_STATE_PAYLOAD ∨ 0 <= bytes_received inst < 65535 ->
  is_Some (fsm_switch inst s).
Proof.
  intros H. unfold fsm_switch.
  destruct (state inst) eqn:E;
    try (repeat match goal with |- context [if ?c then _ else _] => destruct c end;
         eauto; fail).
  destruct H as [H|H]; [congruence|].
  destruct (2 <=? to_size (payload_len inst - bytes_received inst)).
  - destruct (payload_push_defined inst (Z.shiftr s 8)) as [i1 E1].
    { unfold IEC_61937_MAX_BURST_PAYLOAD. lia. }
    rewrite E1. simpl.
    destruct (payload_push_inv _ _ _ E1) as (_ & _ & _ & Hb & _).
    destruct (payload_push_defined i1 s) as [i2 E2].
    { unfold IEC_61937_MAX_BURST_PAYLOAD. lia. }
    rewrite E2. simpl. destruct (_ =? _); eauto.
  - destruct (payload_push_defined inst (Z.shiftr s 8)) as [i1 E1].
    { unfold IEC_61937_MAX_BURST_PAYLOAD. lia. }
    rewrite E1. simpl. destruct (_ =? _); eauto.
Qed.

(** C5: one step returns true exactly when the state it leaves the
    machine in is beyond SYNC_1 (DATA_TYPE, LENGTH or PAYLOAD); the step
    has a result in every state in which the payload array is not about to
    be overrun. *)
Theorem fsm_run_locked_iff_beyond_sync_1 (inst : iec_61937_fsm) (x : Z) :
  (∀ inst' ret cb, iec_61937_fsm_run inst x = Some (inst', ret, cb) ->
     (ret = true <-> Spec.beyond_sync_1 (state inst'))) ∧
  (state inst ≠ IEC_61937_STATE_PAYLOAD ∨ 0 <= bytes_received inst < 65535 ->
     is_Some (iec_61937_fsm_run inst x)).
Proof.
  split.
  - intros inst' ret cb H. apply fsm_run_switch in H as [_ ->].
    apply lock_flag_spec.
  - intros H. destruct (fsm_switch_defined inst (bswap16 x) H) as [[i c] E].
    unfold iec_61937_fsm_run. rewrite E. simpl. eauto.
Qed.

End Iec61937Facts.
Section Iec61937Steps.
Import Iec61937.

Lemma land_mask_7 s : Z.land s IEC_61937_DATA_TYPE_MASK = s mod 128.
Proof. change IEC_61937_DATA_TYPE_MASK with (Z.ones 7). apply Z.land_ones. lia. Qed.

Lemma to_u8_data_type s :
  to_u8 (Z.land s IEC_61937_DATA_TYPE_MASK) = Z.land s IEC_61937_DATA_TYPE_MASK.
Proof.
  rewrite land_mask_7. unfold to_u8. apply Z.mod_small.
  pose proof (Z.mod_pos_bound s 128 ltac:(lia)). lia.
Qed.

(** C4: in each of the eight states before PAYLOAD, one step on the
    byte-swapped sample [s] makes exactly the transition of the
    specification's table and of its DATA_TYPE and LENGTH rules, changes
    nothing else and calls no callback. *)
Theorem fsm_run_follows_spec_table (inst : iec_61937_fsm) (s : Z) :
  0 <= s < 65536 ->
  state inst ≠ IEC_61937_STATE_PAYLOAD ->
  ∃ ret, iec_61937_fsm_run inst (bswap16 s) = Some (Spec.fsm_step inst s, ret, None).
Proof.
  intros Hs Hst. unfold iec_61937_fsm_run.
  rewrite (bswap16_involutive s Hs).
  unfold fsm_switch, Spec.fsm_step, Spec.table.
  destruct inst as [st dt pl br py]; simpl in *.
  destruct st; try congruence; simpl;
    unfold IEC_61937_SYNC_WORD_0, IEC_61937_SYNC_WORD_1,
      IEC_61937_DATA_TYPE_EXTENDED, IEC_61937_DATA_TYPE_AC3, set_state; simpl;
    try rewrite to_u8_data_type;
    change IEC_61937_DATA_TYPE_MASK with 127;
    repeat match goal with |- context [if ?c then _ else _] => destruct c end;
    simpl; eauto.
Qed.

Lemma fsm_run_follows_spec_table_witness :
  ∃ ret, iec_61937_fsm_run
           (set_state iec_61937_fsm_init IEC_61937_STATE_SYNC_0) (bswap16 0xF872)
         = Some (Spec.fsm_step (set_state iec_61937_fsm_init IEC_61937_STATE_SYNC_0) 0xF872,
                 ret, None).
Proof.
  apply (fsm_run_follows_spec_table
           (set_state iec_61937_fsm_init IEC_61937_STATE_SYNC_0) 0xF872).
  - lia.
  - simpl. discriminate.
Defined.

Lemma fsm_switch_len_inv inst s inst' cb :
  0 <= s < 65536 ->
  fsm_switch inst s = Some (inst', cb) ->
  fsm_len_inv inst ->
  fsm_len_inv inst' ∧
  ∀ p, cb = Some p ->
       pkt_data_type p = IEC_61937_DATA_TYPE_AC3 ∧ pkt_len p = payload_len inst.
Proof.
  intros Hs H [Hlen Hdt].
  unfold fsm_switch, set_state, set_data_type, set_payload_len, set_bytes_received in H.
  destruct (state inst) eqn:Est;
    try (repeat match type of H with
                | context [if ?c then _ else _] => destruct c eqn:?
                end;
         injection H as <- <-;
         (split; [split; simpl; [assumption | try rewrite Est; discriminate]
                 | discriminate]); fail).
  - (* LENGTH *)
    destruct (data_type inst =? IEC_61937_DATA_TYPE_AC3) eqn:E;
      injection H as <- <-; (split; [|discriminate]); split; simpl;
      try assumption; try discriminate.
    + split; [apply Z.div_pos; lia | ].
      assert (s / 8 < 8192) by (apply Z.div_lt_upper_bound; lia). lia.
    + intros _. now apply Z.eqb_eq.
  - (* PAYLOAD *)
    specialize (Hdt eq_refl).
    assert (∀ i v i', payload_push i v = Some i' ->
              state i' = state i ∧ data_type i' = data_type i ∧
              payload_len i' = payload_len i) as Hpush.
    { intros i v i' Hp. apply payload_push_inv in Hp. tauto. }
    destruct (2 <=? to_size (payload_len inst - bytes_received inst)).
    + destruct (payload_push inst (Z.shiftr s 8)) as [i1|] eqn:E1; simpl in H;
        [|discriminate].
      destruct (payload_push i1 s) as [i2|] eqn:E2; simpl in H; [|discriminate].
      apply Hpush in E1 as (S1 & D1 & L1). apply Hpush in E2 as (S2 & D2 & L2).
      destruct (payload_len i2 =? bytes_received i2) eqn:E; injection H as <- <-.
      * split; [split; simpl; [lia | discriminate]|].
        intros p [= <-]. simpl. apply Z.eqb_eq in E. split; congruence.
      * split; [split; [lia | intros _; congruence] | discriminate].
    + destruct (payload_push inst (Z.shiftr s 8)) as [i1|] eqn:E1; simpl in H;
        [|discriminate].
      apply Hpush in E1 as (S1 & D1 & L1).
      destruct (payload_len i1 =? bytes_received i1) eqn:E; injection H as <- <-.
      * split; [split; simpl; [lia | discriminate]|].
        intros p [= <-]. simpl. apply Z.eqb_eq in E. split; congruence.
      * split; [split; [lia | intros _; congruence] | discriminate].
Qed.

Lemma fsm_feed_len_inv samples : ∀ inst inst' flags pkts,
  fsm_feed inst samples = Some (inst', flags, pkts) ->
  fsm_len_inv inst ->
  fsm_len_inv inst' ∧
  Forall (λ p, pkt_data_type p = IEC_61937_DATA_TYPE_AC3 ∧ 0 <= pkt_len p <= 8191) pkts.
Proof.
  induction samples as [|x rest IH]; intros inst inst' flags pkts H Hinv; simpl in H.
  - injection H as <- <- <-. split; [assumption | constructor].
  - destruct (iec_61937_fsm_run inst x) as [[[i1 r] cb]|] eqn:E1; simpl in H;
      [|discriminate].
    destruct (fsm_feed i1 rest) as [[[i2 rs] cbs]|] eqn:E2; simpl in H; [|discriminate].
    injection H as <- <- <-.
    apply fsm_run_switch in E1 as [E1 _].
    destruct (fsm_switch_len_inv _ _ _ _ (bswap16_range x) E1 Hinv) as [Hinv1 Hcb].
    destruct (IH _ _ _ _ E2 Hinv1) as [Hinv2 Hall].
    split; [assumption|].
    apply Forall_app. split; [|assumption].
    destruct cb as [p|]; simpl; [|constructor].
    constructor; [|constructor].
    destruct (Hcb p eq_refl) as [-> ->]. split; [reflexivity | apply Hinv].
Qed.

Lemma fsm_switch_wf inst s inst' cb :
  fsm_switch inst s = Some (inst', cb) -> fsm_wf inst -> fsm_wf inst'.
Proof.
  intros H Hwf. unfold fsm_switch in H.
  assert (∀ i v i', payload_push i v = Some i' -> fsm_wf i -> fsm_wf i') as Hpush.
  { intros i v i' Hp Hi. apply payload_push_inv in Hp as (_ & _ & _ & _ & _ & Q).
    unfold fsm_wf in *. now rewrite Q, length_insert. }
  destruct (state inst);
    try (repeat match type of H with
                | context [if ?c then _ else _] => destruct c
                end; injection H as <- _; exact Hwf).
  destruct (2 <=? _).
  - destruct (payload_push inst _) as [j1|] eqn:P1; simpl in H; [|discriminate].
    destruct (payload_push j1 _) as [j2|] eqn:P2; simpl in H; [|discriminate].
    assert (W2 : fsm_wf j2) by eauto.
    destruct (_ =? _); injection H as <- _; exact W2.
  - destruct (payload_push inst _) as [j1|] eqn:P1; simpl in H; [|discriminate].
    assert (W1 : fsm_wf j1) by eauto.
    destruct (_ =? _); injection H as <- _; exact W1.
Qed.

Lemma fsm_feed_wf samples : ∀ inst inst' flags pkts,
  fsm_feed inst samples = Some (inst', flags, pkts) -> fsm_wf inst -> fsm_wf inst'.
Proof.
  induction samples as [|x rest IH]; intros inst inst' flags pkts H Hwf; simpl in H.
  - now injection H as <- _ _.
  - destruct (iec_61937_fsm_run inst x) as [[[i1 r] cb]|] eqn:E1; simpl in H;
      [|discriminate].
    destruct (fsm_feed i1 rest) as [[[i2 rs] cbs]|] eqn:E2; simpl in H; [|discriminate].
    injection H as <- _ _. apply (IH _ _ _ _ E2).
    apply fsm_run_switch in E1 as [E1 _]. exact (fsm_switch_wf _ _ _ _ E1 Hwf).
Qed.

Lemma fsm_init_len_inv : fsm_len_inv iec_61937_fsm_init.
Proof. split; simpl; [lia | discriminate]. Qed.

(** C10: on every input stream, from [iec_61937_fsm_init], a machine in
    PAYLOAD has [payload_len <= 8191], and every callback made on the way
    is for data type 1 with a length of at most 8191 bytes. *)
Theorem payload_len_at_most_8191 (samples : list Z) inst flags pkts :
  fsm_feed iec_61937_fsm_init samples = Some (inst, flags, pkts) ->
  (state inst = IEC_61937_STATE_PAYLOAD -> 0 <= payload_len inst <= 8191) ∧
  Forall (λ p, pkt_data_type p = 1 ∧ 0 <= pkt_len p <= 8191) pkts.
Proof.
  intros H.
  destruct (fsm_feed_len_inv _ _ _ _ _ H fsm_init_len_inv) as [[Hl _] Hall].
  split; [intros _; exact Hl | exact Hall].
Qed.

(** C1, evaluated: after a burst header announcing a length of zero bits
    and one more sample, the machine is in PAYLOAD with [payload_len = 0]
    and [bytes_received = 1]. *)
Theorem zero_length_burst_overruns :
  fsm_view <$> fsm_feed iec_61937_fsm_init zero_length_stream
  = Some (IEC_61937_STATE_PAYLOAD, 0, 1, []).
Proof. vm_compute. reflexivity. Qed.

End Iec61937Steps.
Section Iec61937Bursts.
Import Iec61937.

Lemma fsm_run_captured inst w :
  0 <= w < 65536 ->
  iec_61937_fsm_run inst (bswap16 w) =
  '(inst', cb) ← fsm_switch inst w;
  Some (inst', state_value IEC_61937_STATE_SYNC_1 <? state_value (state inst'), cb).
Proof. intros Hw. unfold iec_61937_fsm_run. now rewrite bswap16_involutive. Qed.

Lemma fsm_feed_app a : ∀ inst b,
  fsm_feed inst (a ++ b) =
  '(i1, f1, p1) ← fsm_feed inst a;
  '(i2, f2, p2) ← fsm_feed i1 b;
  Some (i2, f1 ++ f2, p1 ++ p2).
Proof.
  induction a as [|x a IH]; intros inst b; simpl.
  - destruct (fsm_feed inst b) as [[[i f] p]|]; reflexivity.
  - destruct (iec_61937_fsm_run inst x) as [[[i1 r] cb]|]; simpl; [|reflexivity].
    rewrite IH.
    destruct (fsm_feed i1 a) as [[[i2 f2] p2]|]; simpl; [|reflexivity].
    destruct (fsm_feed i2 b) as [[[i3 f3] p3]|]; simpl; [|reflexivity].
    now rewrite app_assoc.
Qed.

Lemma word_high hi lo : Spec.byte hi -> Spec.byte lo ->
  to_u8 (Z.shiftr (hi * 256 + lo) 8) = hi.
Proof.
  unfold Spec.byte, to_u8. intros Hh Hl.
  rewrite Z.shiftr_div_pow2 by lia. change (2 ^ 8) with 256.
  rewrite Z.add_comm, Z.div_add by lia.
  rewrite (Z.div_small lo) by lia. now rewrite Z.mod_small by lia.
Qed.

Lemma word_low hi lo : Spec.byte hi -> Spec.byte lo ->
  to_u8 (hi * 256 + lo) = lo.
Proof.
  unfold Spec.byte, to_u8. intros Hh Hl. change (2 ^ 8) with 256.
  rewrite Z.add_comm, Z.mod_add by lia. now rewrite Z.mod_small by lia.
Qed.

Lemma word_range hi lo : Spec.byte hi -> Spec.byte lo -> 0 <= hi * 256 + lo < 65536.
Proof. unfold Spec.byte. lia. Qed.

(** One byte stored: the prefix received so far grows by that byte. *)
Lemma payload_push_prefix inst v pre :
  fsm_wf inst ->
  0 <= bytes_received inst < IEC_61937_MAX_BURST_PAYLOAD ->
  take (Z.to_nat (bytes_received inst)) (payload inst) = pre ->
  ∃ inst', payload_push inst v = Some inst' ∧ fsm_wf inst' ∧
    state inst' = state inst ∧ data_type inst' = data_type inst ∧
    payload_len inst' = payload_len inst ∧
    bytes_received inst' = bytes_received inst + 1 ∧
    take (Z.to_nat (bytes_received inst')) (payload inst') = pre ++ [to_u8 v].
Proof.
  intros Hwf Hb Hpre.
  destruct (payload_push_defined inst v Hb) as [inst' E]. exists inst'.
  destruct (payload_push_inv _ _ _ E) as (S1 & D1 & L1 & B1 & _ & P1).
  unfold fsm_wf in *. rewrite P1, length_insert.
  repeat split; try assumption.
  rewrite B1, Z2Nat.inj_add by lia. change (Z.to_nat 1) with 1%nat.
  rewrite Nat.add_1_r.
  rewrite (take_S_r _ _ (to_u8 v)).
  - rewrite take_insert_ge by lia. now rewrite Hpre.
  - apply list_lookup_insert_eq. lia.
Qed.

(** The payload phase: the words of [rest] complete the burst and the
    callback gets the bytes received before them followed by [rest]. *)
Lemma payload_phase pad : Spec.byte pad -> ∀ (k : nat) rest inst pre,
  (length rest <= k)%nat -> rest ≠ [] -> Forall Spec.byte rest ->
  fsm_wf inst -> state inst = IEC_61937_STATE_PAYLOAD ->
  0 <= bytes_received inst ->
  payload_len inst = bytes_received inst + Z.of_nat (length rest) ->
  payload_len inst <= IEC_61937_MAX_BURST_PAYLOAD ->
  take (Z.to_nat (bytes_received inst)) (payload inst) = pre ->
  ∃ inst' flags,
    fsm_feed inst (Spec.captured (Spec.pack_words pad rest))
    = Some (inst', flags,
            [{| pkt_data_type := data_type inst; pkt_len := payload_len inst;
                pkt_payload := pre ++ rest |}]) ∧
    state inst' = IEC_61937_STATE_FIRST_0 ∧ fsm_wf inst'.
Proof.
  intros Hpad. unfold IEC_61937_MAX_BURST_PAYLOAD.
  induction k as [|k IH]; intros rest inst pre Hk Hne Hbytes Hwf Hst Hb0 Hlen Hmax Hpre.
  { destruct rest; [congruence | simpl in Hk; lia]. }
  destruct rest as [|hi [|lo rest]]; [congruence | |].
  - (* one byte left: only the high byte of the word is stored *)
    simpl in Hlen. apply Forall_cons in Hbytes as [Hhi _].
    unfold Spec.captured; simpl fsm_feed. simpl map.
    rewrite (fsm_run_captured _ _ (word_range _ _ Hhi Hpad)).
    unfold fsm_switch. rewrite Hst.
    replace (payload_len inst - bytes_received inst) with 1 by lia.
    change (2 <=? to_size 1) with false. cbv iota.
    destruct (payload_push_prefix inst (Z.shiftr (hi * 256 + pad) 8) pre Hwf)
      as (i1 & E1 & W1 & S1 & D1 & L1 & B1 & P1);
      [unfold IEC_61937_MAX_BURST_PAYLOAD; lia | assumption |].
    rewrite E1. simpl.
    replace (payload_len i1 =? bytes_received i1) with true
      by (symmetry; apply Z.eqb_eq; lia).
    simpl. do 2 eexists. split.
    { rewrite P1, (word_high _ _ Hhi Hpad), D1, B1. repeat f_equal. lia. }
    split; [reflexivity | exact W1].
  - (* at least two bytes left: the whole word is stored *)
    simpl in Hlen, Hk.
    apply Forall_cons in Hbytes as [Hhi Hbytes].
    apply Forall_cons in Hbytes as [Hlo Hbytes].
    unfold Spec.captured; simpl Spec.pack_words.
    change (map bswap16 ((hi * 256 + lo) :: Spec.pack_words pad rest))
      with (bswap16 (hi * 256 + lo) :: Spec.captured (Spec.pack_words pad rest)).
    simpl fsm_feed.
    rewrite (fsm_run_captured _ _ (word_range _ _ Hhi Hlo)).
    unfold fsm_switch. rewrite Hst.
    replace (2 <=? to_size (payload_len inst - bytes_received inst)) with true.
    2:{ symmetry. apply Z.leb_le. unfold to_size, SIZE_WIDTH.
        rewrite Z.mod_small; lia. }
    destruct (payload_push_prefix inst (Z.shiftr (hi * 256 + lo) 8) pre Hwf)
      as (i1 & E1 & W1 & S1 & D1 & L1 & B1 & P1);
      [unfold IEC_61937_MAX_BURST_PAYLOAD; lia | assumption |].
    rewrite E1. simpl.
    destruct (payload_push_prefix i1 (hi * 256 + lo) _ W1 ltac:(unfold IEC_61937_MAX_BURST_PAYLOAD; lia) P1)
      as (i2 & E2 & W2 & S2 & D2 & L2 & B2 & P2).
    rewrite E2. simpl.
    rewrite (word_high _ _ Hhi Hlo), (word_low _ _ Hhi Hlo), <- app_assoc in P2.
    simpl in P2.
    destruct (decide (rest = [])) as [->|Hne'].
    + (* the burst is complete *)
      simpl in Hlen.
      replace (payload_len i2 =? bytes_received i2) with true
        by (symmetry; apply Z.eqb_eq; lia).
      simpl. do 2 eexists. split.
      { rewrite P2, D2, D1, B2, B1. repeat f_equal. lia. }
      split; [reflexivity | exact W2].
    + assert (0 < Z.of_nat (length rest)) by (destruct rest; [congruence | simpl; lia]).
      replace (payload_len i2 =? bytes_received i2) with false
        by (symmetry; apply Z.eqb_neq; lia).
      cbv iota beta.
      destruct (IH rest i2 (pre ++ [hi; lo])) as (i3 & fl & E3 & S3 & W3);
        try assumption; try congruence; try lia.
      simpl. rewrite E3. simpl. do 2 eexists. split.
      { rewrite D2, D1, L2, L1, <- app_assoc. reflexivity. }
      split; [exact S3 | exact W3].
Qed.

End Iec61937Bursts.
Section Iec61937RoundTrip.
Import Iec61937.

(** The eight header words take a machine in FIRST_0 to PAYLOAD with the
    announced length, without touching the payload array. *)
Lemma header_phase inst pc len :
  state inst = IEC_61937_STATE_FIRST_0 ->
  0 <= pc < 65536 -> Z.land pc 0x7F = 0x01 -> 0 <= len <= 8191 ->
  fsm_feed inst (Spec.captured [0; 0; 0; 0; 0xF872; 0x4E1F; pc; 8 * len])
  = Some ({| state := IEC_61937_STATE_PAYLOAD; data_type := 1; payload_len := len;
             bytes_received := 0; payload := payload inst |},
          [false; false; false; false; false; true; true; true], []).
Proof.
  intros Hst Hpc Hdt Hlen.
  destruct inst as [st dt pl br py]; simpl in Hst; subst st.
  unfold Spec.captured, map, fsm_feed.
  rewrite fsm_run_captured by lia. unfold fsm_switch at 1; simpl.
  rewrite fsm_run_captured by lia.
  unfold fsm_switch at 1; cbn [state set_state set_data_type data_type].
  rewrite to_u8_data_type. change IEC_61937_DATA_TYPE_MASK with 0x7F. rewrite Hdt.
  simpl.
  rewrite bswap16_involutive by lia.
  rewrite (Z.mul_comm 8 len), Z.div_mul by lia. reflexivity.
Qed.

Lemma burst_phase pad inst b :
  Spec.byte pad -> fsm_wf inst -> state inst = IEC_61937_STATE_FIRST_0 ->
  Spec.valid_burst b ->
  ∃ inst' flags,
    fsm_feed inst (Spec.captured (Spec.burst_words pad b))
    = Some (inst', flags, [Spec.burst_packet b]) ∧
    state inst' = IEC_61937_STATE_FIRST_0 ∧ fsm_wf inst'.
Proof.
  intros Hpad Hwf Hst (Hpc & Hdt & Hlen & Hbytes).
  unfold Spec.burst_words, Spec.captured. rewrite map_app.
  rewrite fsm_feed_app.
  fold (Spec.captured [0; 0; 0; 0; 0xF872; 0x4E1F; Spec.burst_pc b;
                       8 * Z.of_nat (length (Spec.burst_payload b))]).
  rewrite (header_phase inst _ _ Hst Hpc Hdt) by lia. cbn [mbind option_bind].
  set (inst1 := {| state := IEC_61937_STATE_PAYLOAD; data_type := 1;
                   payload_len := Z.of_nat (length (Spec.burst_payload b));
                   bytes_received := 0; payload := payload inst |}).
  destruct (payload_phase pad Hpad (length (Spec.burst_payload b))
              (Spec.burst_payload b) inst1 [])
    as (i2 & fl & E & S2 & W2); try reflexivity; try assumption.
  - destruct (Spec.burst_payload b); [simpl in Hlen; lia | discriminate].
  - simpl. unfold IEC_61937_MAX_BURST_PAYLOAD. lia.
  - fold (Spec.captured (Spec.pack_words pad (Spec.burst_payload b))).
    rewrite E. simpl. eauto.
Qed.

(** C3: from any machine in FIRST_0, a valid AC-3 burst makes the callback
    run exactly once, with data type 1 and the burst's payload bytes, and
    leaves the machine in FIRST_0; a stream of N valid bursts makes it run
    exactly N times, in the order of the stream. *)
Theorem valid_bursts_round_trip (pad : Z) (inst : iec_61937_fsm) :
  Spec.byte pad -> fsm_wf inst -> state inst = IEC_61937_STATE_FIRST_0 ->
  (∀ b, Spec.valid_burst b ->
     ∃ inst' flags,
       fsm_feed inst (Spec.captured (Spec.burst_words pad b))
       = Some (inst', flags, [Spec.burst_packet b]) ∧
       state inst' = IEC_61937_STATE_FIRST_0) ∧
  (∀ bursts, Forall Spec.valid_burst bursts ->
     ∃ inst' flags,
       fsm_feed inst (Spec.captured (concat (map (Spec.burst_words pad) bursts)))
       = Some (inst', flags, map Spec.burst_packet bursts) ∧
       state inst' = IEC_61937_STATE_FIRST_0).
Proof.
  intros Hpad Hwf Hst. split.
  - intros b Hb.
    destruct (burst_phase pad inst b Hpad Hwf Hst Hb) as (i & f & E & S1 & _).
    eauto.
  - intros bursts. revert inst Hwf Hst.
    induction bursts as [|b bursts IH]; intros inst Hwf Hst Hall.
    + simpl. eauto.
    + apply Forall_cons in Hall as [Hb Hall].
      destruct (burst_phase pad inst b Hpad Hwf Hst Hb) as (i1 & f1 & E1 & S1 & W1).
      destruct (IH i1 W1 S1 Hall) as (i2 & f2 & E2 & S2).
      change (concat (map (Spec.burst_words pad) (b :: bursts)))
        with (Spec.burst_words pad b ++ concat (map (Spec.burst_words pad) bursts)).
      unfold Spec.captured in *. rewrite map_app, fsm_feed_app.
      rewrite E1. cbn [mbind option_bind]. rewrite E2. simpl. eauto.
Qed.

End Iec61937RoundTrip.
(** ** The mode arbiter *)

Section ArbiterFacts.
Import Arbiter.

(** The chunk loop is the state machine fed with the chunk's samples, and
    its result tells whether some call returned true. *)
Lemma process_chunk_feed chunk : ∀ f f' locked pkts,
  process_chunk_iec_61937 f chunk = Some (f', locked, pkts) ->
  ∃ flags, Iec61937.fsm_feed f (chunk_samples chunk) = Some (f', flags, pkts) ∧
           locked = existsb id flags.
Proof.
  induction chunk as [chunk IH] using (induction_ltof1 _ (@length Z)).
  unfold ltof in IH. intros f f' locked pkts H.
  destruct chunk as [|b0 [|b1 rest]]; simpl in H.
  - injection H as <- <- <-. exists []. split; reflexivity.
  - discriminate.
  - destruct (Iec61937.iec_61937_fsm_run f _) as [[[i1 r] cb]|] eqn:E1; simpl in H;
      [|discriminate].
    destruct (process_chunk_iec_61937 i1 rest) as [[[i2 ret] cbs]|] eqn:E2;
      simpl in H; [|discriminate].
    injection H as <- <- <-.
    destruct (IH rest ltac:(simpl; lia) _ _ _ _ E2) as (flags & E3 & ->).
    exists (r :: flags). simpl chunk_samples. simpl Iec61937.fsm_feed.
    rewrite E1. simpl. rewrite E3. simpl. split; reflexivity.
Qed.

Lemma run_chunk_inv inst chunk inst1 locked cbs :
  run_chunk inst chunk = Some (inst1, locked, cbs) ->
  ∃ f pkts,
    process_chunk_iec_61937 (iec_61937_fsm_inst inst) chunk = Some (f, locked, pkts) ∧
    inst1 = set_fsm inst f ∧
    cbs = concat (map (iec_61937_packet_handler inst) pkts).
Proof.
  unfold run_chunk. intros H.
  destruct (process_chunk_iec_61937 _ chunk) as [[[f l] p]|]; simpl in H; [|discriminate].
  injection H as <- <- <-. exists f, p. repeat split.
Qed.

(** The arbiter's step written with the chunk's outcome exposed. *)
Lemma process_unfold inst chunk inst' calls :
  iec_60958_process inst chunk = Some (inst', calls) ->
  ∃ inst1 locked cbs, run_chunk inst chunk = Some (inst1, locked, cbs) ∧
    Some (inst', calls) =
    match state inst with
    | IEC_60958_STATE_UNKNOWN =>
        if locked then
          Some (set_state (set_non_61937_chunks inst1 0) IEC_60958_STATE_61937,
                cbs ++ [ac3_sink_open (sink_latency_us inst1)])
        else if IEC_61937_DETECTION_WINDOW <=? to_size (non_61937_chunks inst1 + 1) then
          Some (set_state (set_non_61937_chunks inst1 (to_size (non_61937_chunks inst1 + 1)))
                  IEC_60958_STATE_PCM,
                cbs ++ [pcm_sink_open (sink_latency_us inst1)])
        else Some (set_non_61937_chunks inst1 (to_size (non_61937_chunks inst1 + 1)), cbs)
    | IEC_60958_STATE_PCM =>
        if locked then
          Some (set_state (set_non_61937_chunks inst1 0) IEC_60958_STATE_61937,
                cbs ++ [pcm_sink_close; ac3_sink_open (sink_latency_us inst1)])
        else Some (inst1, cbs ++ [pcm_sink_process chunk])
    | IEC_60958_STATE_61937 =>
        if locked then Some (set_non_61937_chunks inst1 0, cbs)
        else if IEC_61937_DETECTION_WINDOW <=? to_size (non_61937_chunks inst1 + 1) then
          Some (set_state (set_non_61937_chunks inst1 (to_size (non_61937_chunks inst1 + 1)))
                  IEC_60958_STATE_PCM,
                cbs ++ [ac3_sink_close; pcm_sink_open (sink_latency_us inst1)])
        else Some (set_non_61937_chunks inst1 (to_size (non_61937_chunks inst1 + 1)), cbs)
    end.
Proof.
  unfold iec_60958_process. intros H.
  destruct (state inst);
    (destruct (run_chunk inst chunk) as [[[i1 l] c]|]; simpl in H; [|discriminate]);
    exists i1, l, c; (split; [reflexivity|]); rewrite <- H; reflexivity.
Qed.

Lemma to_size_small n : 0 <= n < 2 ^ 63 -> to_size n = n.
Proof. intros H. unfold to_size, SIZE_WIDTH. apply Z.mod_small. lia. Qed.

Lemma process_preserves_inv inst chunk inst' calls :
  iec_60958_process inst chunk = Some (inst', calls) ->
  arbiter_inv inst -> arbiter_inv inst'.
Proof.
  intros H Hinv. apply process_unfold in H as (i1 & l & c & Hr & H).
  apply run_chunk_inv in Hr as (f & p & _ & -> & _).
  unfold arbiter_inv, IEC_61937_DETECTION_WINDOW in *.
  destruct (state inst) eqn:Est; destruct l; simpl in H;
    try (rewrite (to_size_small (non_61937_chunks inst + 1)) in H by lia;
         destruct (64 <=? non_61937_chunks inst + 1) eqn:E;
         [apply Z.leb_le in E | apply Z.leb_gt in E]);
    injection H as -> _; simpl; try rewrite Est; try lia.
Qed.

Lemma run_preserves_inv chunks : ∀ inst inst' calls,
  iec_60958_run inst chunks = Some (inst', calls) ->
  arbiter_inv inst -> arbiter_inv inst'.
Proof.
  induction chunks as [|c rest IH]; intros inst inst' calls H Hinv; simpl in H.
  - now injection H as <- _.
  - destruct (iec_60958_process inst c) as [[i1 c1]|] eqn:E1; simpl in H; [|discriminate].
    destruct (iec_60958_run i1 rest) as [[i2 c2]|] eqn:E2; simpl in H; [|discriminate].
    injection H as <- _. eapply IH; [exact E2|]. eapply process_preserves_inv; eauto.
Qed.

Lemma init_inv latency : arbiter_inv (iec_60958_init latency).
Proof. unfold arbiter_inv, IEC_61937_DETECTION_WINDOW. simpl. lia. Qed.

(** C6: after any sequence of chunks from [iec_60958_init], the next chunk
    is handled as the specification's arbiter says, where [locked] is
    whether some call of [iec_61937_fsm_run] on the chunk's samples
    returned true: the mode and the counter are the specification's, and
    the sink calls are the bursts the callback forwards (none unless the
    arbiter was in IEC61937) followed by the specification's opens, closes
    and forward, in that order. The step has a result whenever the state
    machine has one on the chunk. *)
Theorem arbiter_follows_spec (latency : Z) (chunks : list (list Z)) inst calls0 :
  iec_60958_run (iec_60958_init latency) chunks = Some (inst, calls0) ->
  ∀ chunk,
    (is_Some (process_chunk_iec_61937 (iec_61937_fsm_inst inst) chunk) ->
     is_Some (iec_60958_process inst chunk)) ∧
    ∀ inst' calls, iec_60958_process inst chunk = Some (inst', calls) ->
      ∃ flags pkts acts,
        Iec61937.fsm_feed (iec_61937_fsm_inst inst) (chunk_samples chunk)
        = Some (iec_61937_fsm_inst inst', flags, pkts) ∧
        Spec.arbiter_step (Spec.mode_of (state inst)) (non_61937_chunks inst)
          (existsb id flags) chunk
        = (Spec.mode_of (state inst'), non_61937_chunks inst', acts) ∧
        calls = concat (map (iec_61937_packet_handler inst) pkts)
                ++ map (Spec.call_of (sink_latency_us inst)) acts.
Proof.
  intros Hrun chunk.
  pose proof (run_preserves_inv _ _ _ _ Hrun (init_inv latency)) as Hinv.
  split.
  - intros [[[f l] p] Hr]. unfold iec_60958_process, run_chunk. rewrite Hr.
    destruct (state inst); simpl; destruct l;
      repeat match goal with |- context [if ?c then _ else _] => destruct c end;
      eauto.
  - intros inst' calls H.
    apply process_unfold in H as (i1 & l & c & Hr & H).
    apply run_chunk_inv in Hr as (f & p & Hp & -> & ->).
    apply process_chunk_feed in Hp as (flags & Hfeed & ->).
    exists flags, p.
    unfold arbiter_inv, IEC_61937_DETECTION_WINDOW in *.
    assert (Hc : non_61937_chunks (set_fsm inst f) = non_61937_chunks inst) by reflexivity.
    assert (Hl : sink_latency_us (set_fsm inst f) = sink_latency_us inst) by reflexivity.
    unfold Spec.arbiter_step, Spec.W.
    destruct (state inst) eqn:Est; simpl Spec.mode_of; destruct (existsb id flags);
      try (rewrite Hc, (to_size_small (non_61937_chunks inst + 1)) in H by lia;
           destruct (64 <=? non_61937_chunks inst + 1) eqn:E;
           [apply Z.leb_le in E;
            replace (non_61937_chunks inst + 1 =? 64) with true
              by (symmetry; apply Z.eqb_eq; lia)
           |apply Z.leb_gt in E;
            replace (non_61937_chunks inst + 1 =? 64) with false
              by (symmetry; apply Z.eqb_neq; lia)]);
      injection H as -> ->; eexists; (split; [exact Hfeed|]);
      simpl; rewrite ?Hl, ?Hc, ?Hinv, ?Est;
      (split; [reflexivity | simpl; rewrite ?app_nil_r; reflexivity]).
Qed.

End ArbiterFacts.
Section ArbiterSinks.
Import Arbiter.

Lemma sinks_after_app s a b :
  sinks_after s (a ++ b) = sinks_after (sinks_after s a) b.
Proof. unfold sinks_after. apply fold_left_app. Qed.

Lemma sinks_during_app a : ∀ s b,
  sinks_during s (a ++ b) = sinks_during s a ++ sinks_during (sinks_after s a) b.
Proof.
  induction a as [|c a IH]; intros s b; simpl; [reflexivity|].
  now rewrite IH.
Qed.

Lemma calls_in_order_app a : ∀ s b,
  calls_in_order s a -> calls_in_order (sinks_after s a) b ->
  calls_in_order s (a ++ b).
Proof.
  induction a as [|c a IH]; intros s b Ha Hb; simpl in *; [assumption|].
  destruct Ha as [Hc Ha]. split; [assumption|]. now apply IH.
Qed.

(** What the callback forwards while a chunk is parsed leaves the sinks as
    they are, and goes to the AC-3 sink only when it is open. *)
Lemma handler_calls inst pkts :
  let s := sinks_of_state (state inst) in
  let cbs := concat (map (iec_61937_packet_handler inst) pkts) in
  calls_in_order s cbs ∧ Forall at_most_one_open (sinks_during s cbs) ∧
  sinks_after s cbs = s.
Proof.
  cbv zeta. induction pkts as [|p pkts IH]; simpl.
  - repeat split. constructor.
  - unfold iec_61937_packet_handler at 1 3 5.
    destruct (state inst) eqn:Est; simpl; try exact IH.
    destruct (_ =? _); simpl; [|exact IH].
    destruct IH as (H1 & H2 & H3). repeat split; try assumption.
    constructor; [|assumption]. unfold at_most_one_open; simpl. auto.
Qed.

Lemma process_sinks inst chunk inst' calls :
  iec_60958_process inst chunk = Some (inst', calls) ->
  let s := sinks_of_state (state inst) in
  calls_in_order s calls ∧ Forall at_most_one_open (sinks_during s calls) ∧
  sinks_after s calls = sinks_of_state (state inst').
Proof.
  intros H. cbv zeta.
  apply process_unfold in H as (i1 & l & c & Hr & H).
  apply run_chunk_inv in Hr as (f & p & _ & -> & ->).
  destruct (handler_calls inst p) as (H1 & H2 & H3).
  assert (Hstep : ∀ tail s',
    calls_in_order (sinks_of_state (state inst)) tail ->
    Forall at_most_one_open (sinks_during (sinks_of_state (state inst)) tail) ->
    sinks_after (sinks_of_state (state inst)) tail = s' ->
    calls_in_order (sinks_of_state (state inst))
      (concat (map (iec_61937_packet_handler inst) p) ++ tail) ∧
    Forall at_most_one_open
      (sinks_during (sinks_of_state (state inst))
         (concat (map (iec_61937_packet_handler inst) p) ++ tail)) ∧
    sinks_after (sinks_of_state (state inst))
      (concat (map (iec_61937_packet_handler inst) p) ++ tail) = s').
  { intros tail s' T1 T2 T3. rewrite sinks_during_app, sinks_after_app, H3.
    repeat split; [|apply Forall_app; split|]; try assumption.
    apply calls_in_order_app; [assumption | now rewrite H3]. }
  destruct (state inst) eqn:Est; destruct l;
    repeat match type of H with
           | context [if ?c then _ else _] => destruct c
           end;
    injection H as -> ->; simpl state; rewrite ?Est;
    try (apply Hstep; simpl; unfold at_most_one_open; simpl;
         repeat split; auto; repeat constructor; simpl; auto; fail);
    repeat split; assumption.
Qed.

Lemma run_sinks chunks : ∀ inst inst' calls,
  iec_60958_run inst chunks = Some (inst', calls) ->
  let s := sinks_of_state (state inst) in
  calls_in_order s calls ∧ Forall at_most_one_open (sinks_during s calls) ∧
  sinks_after s calls = sinks_of_state (state inst').
Proof.
  induction chunks as [|c rest IH]; intros inst inst' calls H; simpl in H; cbv zeta.
  - injection H as <- <-. repeat split. constructor.
  - destruct (iec_60958_process inst c) as [[i1 c1]|] eqn:E1; simpl in H; [|discriminate].
    destruct (iec_60958_run i1 rest) as [[i2 c2]|] eqn:E2; simpl in H; [|discriminate].
    injection H as <- <-.
    destruct (process_sinks _ _ _ _ E1) as (A1 & A2 & A3).
    destruct (IH _ _ _ E2) as (B1 & B2 & B3).
    rewrite sinks_during_app, sinks_after_app, A3.
    repeat split; [|apply Forall_app; split|]; try assumption.
    apply calls_in_order_app; [assumption | now rewrite A3].
Qed.

(** C7: after any sequence of chunks from [iec_60958_init], the open
    sinks are those of the arbiter's state (none in UNKNOWN, the PCM sink
    alone in PCM, the AC-3 sink alone in IEC61937); at most one sink was
    open after each sink call made on the way; and every open was made
    with no sink open, every close and every process on an open sink. *)
Theorem at_most_one_sink_open (latency : Z) (chunks : list (list Z)) inst calls :
  iec_60958_run (iec_60958_init latency) chunks = Some (inst, calls) ->
  sinks_after no_sink calls = sinks_of_state (state inst) ∧
  Forall at_most_one_open (no_sink :: sinks_during no_sink calls) ∧
  calls_in_order no_sink calls.
Proof.
  intros H. destruct (run_sinks _ _ _ _ H) as (A1 & A2 & A3).
  simpl in A1, A2, A3. repeat split; try assumption.
  constructor; [left; reflexivity | assumption].
Qed.

End ArbiterSinks.
(** ** Floating point: integers are added exactly *)

Section B64Facts.

Lemma iter_pos_nat {A} (f : A -> A) p x :
  SpecFloat.iter_pos f p x = Nat.iter (Pos.to_nat p) f x.
Proof.
  transitivity (Pos.iter f x p).
  - revert x. induction p as [p IH|p IH|]; intros x; simpl.
    + now rewrite !IH, !Pos.iter_swap.
    + now rewrite !IH.
    + reflexivity.
  - apply Pos2Nat.inj_iter.
Qed.

Lemma pos_iter_nat {A} (f : A -> A) p x : Pos.iter f x p = Nat.iter (Pos.to_nat p) f x.
Proof. apply Pos2Nat.inj_iter. Qed.

Lemma digits_shl m n :
  Z.pos (digits2_pos (Nat.iter n xO m)) = Z.pos (digits2_pos m) + Z.of_nat n.
Proof.
  induction n as [|n IH]; [simpl; lia|].
  change (Nat.iter (S n) xO m) with (xO (Nat.iter n xO m)).
  cbn [digits2_pos]. rewrite Pos2Z.inj_succ, IH. lia.
Qed.

Lemma value_shl m n : Z.pos (Nat.iter n xO m) = Z.pos m * 2 ^ Z.of_nat n.
Proof.
  induction n as [|n IH]; [simpl; lia|].
  change (Nat.iter (S n) xO m) with (xO (Nat.iter n xO m)).
  rewrite Pos2Z.inj_xO, IH, Nat2Z.inj_succ, Z.pow_succ_r by lia. lia.
Qed.

Lemma digits_size m : digits2_pos m = Pos.size m.
Proof. induction m; simpl; congruence. Qed.

Lemma digits_bound m n : Z.pos m < 2 ^ Z.of_nat n -> Z.pos (digits2_pos m) <= Z.of_nat n.
Proof.
  intros H. rewrite digits_size.
  pose proof (Pos.size_le m) as Hle.
  apply Pos2Z.pos_le_pos in Hle. rewrite Pos2Z.inj_pow in Hle.
  change (Z.pos 2) with 2 in Hle. rewrite (Pos2Z.inj_xO m) in Hle.
  destruct (Z_le_gt_dec (Z.pos (Pos.size m)) (Z.of_nat n)) as [|Hgt]; [assumption|].
  exfalso.
  assert (2 ^ (Z.of_nat n + 1) <= 2 ^ Z.pos (Pos.size m))
    by (apply Z.pow_le_mono_r; lia).
  rewrite Z.pow_add_r, Z.pow_1_r in H0 by lia. lia.
Qed.

Lemma shr_exact m n : ∀ k, (n <= k)%nat ->
  Nat.iter n shr_1 {| shr_m := Z.pos (Nat.iter k xO m); shr_r := false; shr_s := false |}
  = {| shr_m := Z.pos (Nat.iter (k - n) xO m); shr_r := false; shr_s := false |}.
Proof.
  induction n as [|n IH]; intros k Hk.
  - now rewrite Nat.sub_0_r.
  - change (Nat.iter (S n) shr_1 ?x) with (shr_1 (Nat.iter n shr_1 x)).
    rewrite IH by lia.
    replace (k - n)%nat with (S (k - S n)) by lia. reflexivity.
Qed.

(** Rounding a value that has at most 53 significant bits, however many
    zero bits follow them, gives those bits in a 53-bit mantissa. *)
Lemma binary_round_aux_shifted s m (j t : nat) e :
  Z.pos (digits2_pos m) + Z.of_nat j = 53 -> -1074 <= e <= 971 ->
  binary_round_aux 53 1024 s (Z.pos (Nat.iter (j + t) xO m)) (e - Z.of_nat t) loc_Exact
  = S754_finite s (Nat.iter j xO m) e.
Proof.
  intros Hd He.
  assert (Hfexp : ∀ x, fexp 53 1024 (53 + x) = Z.max x (-1074)).
  { intros x. unfold fexp, emin. f_equal; lia. }
  assert (Hcanon : shr_fexp 53 1024 (Z.pos (Nat.iter j xO m)) e loc_Exact
                   = ({| shr_m := Z.pos (Nat.iter j xO m); shr_r := false; shr_s := false |}, e)).
  { unfold shr_fexp. cbn [Zdigits2]. rewrite digits_shl.
    replace (Z.pos (digits2_pos m) + Z.of_nat j + e) with (53 + e) by lia.
    rewrite Hfexp. replace (Z.max e (-1074) - e) with 0 by lia. reflexivity. }
  unfold binary_round_aux.
  assert (Hfirst : shr_fexp 53 1024 (Z.pos (Nat.iter (j + t) xO m)) (e - Z.of_nat t) loc_Exact
                   = ({| shr_m := Z.pos (Nat.iter j xO m); shr_r := false; shr_s := false |}, e)).
  { unfold shr_fexp. cbn [Zdigits2]. rewrite digits_shl.
    replace (Z.pos (digits2_pos m) + Z.of_nat (j + t) + (e - Z.of_nat t)) with (53 + e) by lia.
    rewrite Hfexp. replace (Z.max e (-1074) - (e - Z.of_nat t)) with (Z.of_nat t) by lia.
    destruct t as [|t].
    - simpl. rewrite Nat.add_0_r. f_equal. lia.
    - change (Z.of_nat (S t)) with (Z.pos (Pos.of_succ_nat t)) at 2.
      unfold shr, shr_record_of_loc.
      rewrite iter_pos_nat, SuccNat2Pos.id_succ, shr_exact by lia.
      replace (j + S t - S t)%nat with j by lia. f_equal.
      change (Z.pos (Pos.of_succ_nat t)) with (Z.of_nat (S t)). lia. }
  rewrite Hfirst. cbn [shr_m loc_of_shr_record round_nearest_even].
  rewrite Hcanon. cbn [shr_m].
  replace (e <=? 1024 - 53) with true by (symmetry; apply Z.leb_le; lia).
  reflexivity.
Qed.


Lemma binary_round_aux_normal s m (n : nat) ex :
  let d := Z.pos (digits2_pos m) in
  d <= 53 -> 53 - d <= Z.of_nat n -> ex = - (Z.of_nat n) ->
  binary_round_aux 53 1024 s (Z.pos (Nat.iter n xO m)) ex loc_Exact
  = S754_finite s (Nat.iter (Z.to_nat (53 - d)) xO m) (d - 53).
Proof.
  intros d Hd Hn ->.
  pose proof (Pos2Z.is_pos (digits2_pos m)) as Hpos. fold d in Hpos.
  pose proof (binary_round_aux_shifted s m (Z.to_nat (53 - d))
                (n - Z.to_nat (53 - d)) (d - 53)
                ltac:(fold d; lia) ltac:(lia)) as H.
  replace (Z.to_nat (53 - d) + (n - Z.to_nat (53 - d)))%nat with n in H by lia.
  replace (d - 53 - Z.of_nat (n - Z.to_nat (53 - d))) with (- Z.of_nat n) in H by lia.
  exact H.
Qed.

Lemma binary_round_shl s m (k : nat) :
  let d := Z.pos (digits2_pos m) in
  d <= 53 ->
  binary_round 53 1024 s (Nat.iter k xO m) (- Z.of_nat k)
  = S754_finite s (Nat.iter (Z.to_nat (53 - d)) xO m) (d - 53).
Proof.
  intros d Hd.
  pose proof (Pos2Z.is_pos (digits2_pos m)) as Hpos. fold d in Hpos.
  unfold binary_round. rewrite digits_shl. fold d.
  replace (fexp 53 1024 (d + Z.of_nat k + - Z.of_nat k)) with (d - 53).
  2:{ unfold fexp, emin. lia. }
  unfold shl_align.
  destruct (d - 53 - - Z.of_nat k) as [|p|p] eqn:E.
  - apply binary_round_aux_normal; fold d; lia.
  - apply binary_round_aux_normal; fold d; lia.
  - rewrite pos_iter_nat, <- Nat.iter_add.
    apply binary_round_aux_normal; fold d; lia.
Qed.

(** The [double] of a nonzero integer below 2^53. *)
Lemma of_Z_pos m :
  let d := Z.pos (digits2_pos m) in
  d <= 53 ->
  B64.of_Z (Z.pos m) = S754_finite false (Nat.iter (Z.to_nat (53 - d)) xO m) (d - 53).
Proof. intros d Hd. exact (binary_round_shl false m 0 Hd). Qed.

Lemma of_Z_neg m :
  let d := Z.pos (digits2_pos m) in
  d <= 53 ->
  B64.of_Z (Z.neg m) = S754_finite true (Nat.iter (Z.to_nat (53 - d)) xO m) (d - 53).
Proof. intros d Hd. exact (binary_round_shl true m 0 Hd). Qed.

Lemma digits_53 m : Z.pos m < 2 ^ 53 -> Z.pos (digits2_pos m) <= 53.
Proof. intros H. apply (digits_bound m 53). exact H. Qed.

(** Trailing zero bits do not change what an integer is rounded to. *)
Lemma normalize_shl z (k : nat) :
  Z.abs z < 2 ^ 53 ->
  binary_normalize 53 1024 (z * 2 ^ Z.of_nat k) (- Z.of_nat k) false = B64.of_Z z.
Proof.
  intros Hz. destruct z as [|m|m].
  - reflexivity.
  - rewrite <- value_shl. cbn [binary_normalize].
    rewrite of_Z_pos by (apply digits_53; exact Hz).
    apply binary_round_shl, digits_53. exact Hz.
  - change (Z.neg m) with (- Z.pos m) at 1.
    rewrite Z.mul_opp_l, <- value_shl. cbn [binary_normalize Z.opp].
    rewrite of_Z_neg by (apply digits_53; exact Hz).
    apply binary_round_shl, digits_53. exact Hz.
Qed.

Lemma shl_align_value N e e' :
  e' <= e -> Z.pos (fst (shl_align N e e')) = Z.pos N * 2 ^ (e - e').
Proof.
  intros H. unfold shl_align. destruct (e' - e) as [|p|p] eqn:E; cbn [fst].
  - replace (e - e') with 0 by lia. lia.
  - lia.
  - rewrite pos_iter_nat, value_shl. f_equal. f_equal. lia.
Qed.

(** The sign, mantissa and exponent of the [double] of a nonzero integer,
    and what the mantissa is worth once aligned to a lower exponent. *)
Lemma of_Z_aligned z ez :
  z ≠ 0 -> Z.abs z < 2 ^ 53 ->
  ∃ s N e, B64.of_Z z = S754_finite s N e ∧ -52 <= e <= 0 ∧
    (ez <= e -> cond_Zopp s (Z.pos (fst (shl_align N e ez))) = z * 2 ^ (- ez)).
Proof.
  intros Hz Habs. destruct z as [|m|m]; [congruence| |].
  - pose proof (digits_53 m Habs) as Hd.
    pose proof (Pos2Z.is_pos (digits2_pos m)) as Hpos.
    eexists _, _, _. split; [apply of_Z_pos; exact Hd|]. split; [lia|].
    intros He. cbn [cond_Zopp]. rewrite shl_align_value, value_shl by lia.
    rewrite <- Z.mul_assoc, <- Z.pow_add_r by lia. f_equal. f_equal. lia.
  - pose proof (digits_53 m Habs) as Hd.
    pose proof (Pos2Z.is_pos (digits2_pos m)) as Hpos.
    eexists _, _, _. split; [apply of_Z_neg; exact Hd|]. split; [lia|].
    intros He. cbn [cond_Zopp]. rewrite shl_align_value, value_shl by lia.
    rewrite <- Z.mul_assoc, <- Z.pow_add_r by lia.
    change (Z.neg m) with (- Z.pos m). rewrite Z.mul_opp_l. f_equal. f_equal. f_equal. lia.
Qed.

Lemma of_Z_normal z :
  z ≠ 0 -> Z.abs z < 2 ^ 53 ->
  ∃ s m (j : nat),
    B64.of_Z z = S754_finite s (Nat.iter j xO m) (- Z.of_nat j) ∧
    Z.pos (digits2_pos m) + Z.of_nat j = 53.
Proof.
  intros Hz Habs. destruct z as [|m|m]; [congruence| |];
    pose proof (digits_53 m Habs) as Hd;
    pose proof (Pos2Z.is_pos (digits2_pos m)) as Hpos;
    [exists false | exists true];
    exists m, (Z.to_nat (53 - Z.pos (digits2_pos m)));
    (split; [|lia]);
    [rewrite of_Z_pos by exact Hd | rewrite of_Z_neg by exact Hd];
    f_equal; lia.
Qed.

(** Dividing an integer below 2^53 by 16 only lowers the exponent. *)
Lemma div_16 z :
  Z.abs z < 2 ^ 53 -> B64.div (B64.of_Z z) (B64.of_Z 16) = scale_16 (B64.of_Z z).
Proof.
  intros Habs. destruct (Z.eq_dec z 0) as [->|Hz]; [reflexivity|].
  destruct (of_Z_normal z Hz Habs) as (s & m & j & -> & Hd).
  change (B64.of_Z 16) with (S754_finite false (Nat.iter 52 xO 1%positive) (-48)).
  unfold B64.div, SFdiv, SFdiv_core_binary, scale_16.
  cbn [Zdigits2]. rewrite !digits_shl.
  replace (Z.pos (digits2_pos m) + Z.of_nat j) with 53 by lia.
  change (Z.pos (digits2_pos 1) + Z.of_nat 52) with 53.
  replace (Z.min (fexp B64.prec B64.emax (53 + - Z.of_nat j - (53 + -48)))
             (- Z.of_nat j - -48)) with (- Z.of_nat j - 5)
    by (unfold fexp, emin, B64.prec, B64.emax; lia).
  replace (- Z.of_nat j - -48 - (- Z.of_nat j - 5)) with 53 by lia.
  cbv iota.
  rewrite Z.shiftl_mul_pow2 by lia.
  rewrite (surjective_pairing (Z.div_eucl _ _)).
  change (Z.div_eucl ?a ?b).1 with (a / b). change (Z.div_eucl ?a ?b).2 with (a mod b).
  rewrite (value_shl 1 52). change (Z.pos 1 * 2 ^ Z.of_nat 52) with (2 ^ 52).
  replace (Z.pos (Nat.iter j xO m) * 2 ^ 53)
    with (Z.pos (Nat.iter j xO m) * 2 * 2 ^ 52) by (change (2 ^ 53) with (2 * 2 ^ 52); lia).
  rewrite Z.div_mul, Z.mod_mul by lia.
  change (new_location (2 ^ 52) 0) with loc_Exact.
  replace (Z.pos (Nat.iter j xO m) * 2) with (Z.pos (Nat.iter (j + 1) xO m)).
  2:{ rewrite Nat.add_1_r. change (Nat.iter (S j) xO m) with (xO (Nat.iter j xO m)).
      rewrite Pos2Z.inj_xO. lia. }
  replace (- Z.of_nat j - 5) with (- Z.of_nat j - 4 - Z.of_nat 1) by lia.
  rewrite xorb_false_r.
  apply binary_round_aux_shifted; lia.
Qed.

(** Small integers are added without rounding. *)
Lemma add_of_Z a b :
  Z.abs a < 2 ^ 52 -> Z.abs b < 2 ^ 52 ->
  B64.add (B64.of_Z a) (B64.of_Z b) = B64.of_Z (a + b).
Proof.
  intros Ha Hb.
  destruct (Z.eq_dec a 0) as [->|Ha0]; [|destruct (Z.eq_dec b 0) as [->|Hb0]].
  - change (B64.of_Z 0) with (S754_zero false). rewrite Z.add_0_l.
    destruct (Z.eq_dec b 0) as [->|Hb0]; [reflexivity|].
    destruct (of_Z_aligned b 0 Hb0 ltac:(lia)) as (s & N & e & E & _).
    rewrite E. reflexivity.
  - change (B64.of_Z 0) with (S754_zero false). rewrite Z.add_0_r.
    destruct (of_Z_aligned a 0 Ha0 ltac:(lia)) as (s & N & e & E & _).
    rewrite E. reflexivity.
  - destruct (of_Z_aligned a 0 Ha0 ltac:(lia)) as (sa & Na & ea & Ea & Hea & _).
    destruct (of_Z_aligned b 0 Hb0 ltac:(lia)) as (sb & Nb & eb & Eb & Heb & _).
    destruct (of_Z_aligned a (Z.min ea eb) Ha0 ltac:(lia)) as (sa' & Na' & ea' & Ea' & _ & Va).
    destruct (of_Z_aligned b (Z.min ea eb) Hb0 ltac:(lia)) as (sb' & Nb' & eb' & Eb' & _ & Vb).
    rewrite Ea in Ea'. injection Ea' as <- <- <-.
    rewrite Eb in Eb'. injection Eb' as <- <- <-.
    rewrite Ea, Eb. unfold B64.add, SFadd. cbv zeta.
    rewrite Va, Vb by lia.
    rewrite <- Z.mul_add_distr_r.
    replace (- Z.min ea eb) with (Z.of_nat (Z.to_nat (- Z.min ea eb))) by lia.
    replace (Z.min ea eb) with (- Z.of_nat (Z.to_nat (- Z.min ea eb))) at 2 by lia.
    apply normalize_shl. lia.
Qed.

End B64Facts.
(** ** The control loop *)

Section ControlLoopFacts.
Import ControlLoop.

Lemma forall_range_spec p : ∀ n lo,
  forall_range n lo p = true -> ∀ z, lo <= z < lo + Z.of_nat n -> p z = true.
Proof.
  induction n as [|n IH]; intros lo H z Hz; [lia|].
  simpl in H. apply andb_true_iff in H as [H0 H1].
  destruct (Z.eq_dec z lo) as [->|Hne]; [assumption|].
  apply (IH (lo + 1) H1). lia.
Qed.

Lemma clamp_offset_range target x :
  0 <= target -> - target <= clamp_offset target x <= target.
Proof.
  intros Ht. unfold clamp_offset.
  destruct (x <? - target) eqn:E1; [lia|].
  destruct (target <? x) eqn:E2; [lia|].
  apply Z.ltb_ge in E1, E2. lia.
Qed.

Lemma sum_range target (l : list Z) :
  Forall (λ h, - target <= h <= target) l ->
  Z.abs (foldr Z.add 0 l) <= Z.of_nat (length l) * target.
Proof.
  induction 1 as [|h l Hh _ IH]; [simpl; lia|].
  cbn [foldr length]. rewrite Nat2Z.inj_succ. lia.
Qed.

(** The accumulation loop computes the integer sum, exactly. *)
Lemma accumulate_from target (l : list Z) : ∀ s0,
  Forall (λ h, - target <= h <= target) l ->
  Z.abs s0 + Z.of_nat (length l) * target < 2 ^ 52 ->
  fold_left (λ accum h, B64.add accum (B64.of_Z h)) l (B64.of_Z s0)
  = B64.of_Z (s0 + foldr Z.add 0 l).
Proof.
  induction l as [|h l IH]; intros s0 Hl Hs; simpl.
  - now rewrite Z.add_0_r.
  - apply Forall_cons in Hl as [Hh Hl].
    simpl length in Hs. rewrite Nat2Z.inj_succ, Z.mul_succ_l in Hs.
    assert (0 <= Z.of_nat (length l) * target) by (apply Z.mul_nonneg_nonneg; lia).
    rewrite add_of_Z by lia.
    rewrite IH by (try assumption; lia). f_equal. lia.
Qed.

Lemma accumulate_exact target (l : list Z) :
  Forall (λ h, - target <= h <= target) l ->
  Z.of_nat (length l) * target < 2 ^ 52 ->
  accumulate l = B64.of_Z (foldr Z.add 0 l).
Proof.
  intros Hl Hs. unfold accumulate.
  change B64.zero with (B64.of_Z 0).
  rewrite (accumulate_from target) by (try assumption; lia). reflexivity.
Qed.

Section Step.
Variables (target mask : Z) (gain : spec_float).
Hypothesis target_range : 0 <= target < 2 ^ 31.
Hypothesis checked : all_sums_in_bounds gain target = true.

(** One call on control fields that are in order: it has a result, the
    fields stay in order and the ratio is within the bounds. *)
Lemma calculate_rate_ratio_ok c w r :
  control_ok target 16 c ->
  ∃ c' ratio,
    calculate_rate_ratio target mask 16 gain c w r = Some (c', ratio) ∧
    control_ok target 16 c' ∧ ratio_in_bounds gain target ratio = true.
Proof.
  intros (Hlen & Hidx & Hall).
  unfold calculate_rate_ratio. cbv zeta.
  set (offset := clamp_offset target _).
  assert (Hoff : - target <= offset <= target)
    by (apply clamp_offset_range; lia).
  unfold array_store.
  replace ((0 <=? histidx c) && (histidx c <? 16)) with true.
  2:{ symmetry. apply andb_true_iff. split; [apply Z.leb_le | apply Z.ltb_lt]; lia. }
  cbn [mbind option_bind].
  set (history' := <[Z.to_nat (histidx c) := offset]> (history c)).
  assert (Hall' : Forall (λ h, - target <= h <= target) history').
  { apply Forall_insert; assumption. }
  assert (Hlen' : Z.of_nat (length history') = 16).
  { unfold history'. now rewrite length_insert. }
  rewrite (accumulate_exact target) by (try assumption; lia).
  pose proof (sum_range target history' Hall') as Hsum. rewrite Hlen' in Hsum.
  rewrite div_16 by lia.
  pose proof checked as Hck. unfold all_sums_in_bounds in Hck. cbv zeta in Hck.
  apply (forall_range_spec _ _ _) with (z := foldr Z.add 0 history') in Hck; [|lia].
  unfold sum_in_bounds in Hck.
  destruct (B64.to_i32 _) as [avg|]; [|discriminate].
  cbn [mbind option_bind]. do 2 eexists. split; [reflexivity|].
  cbv zeta in Hck. split; [|exact Hck].
  repeat split; cbn [history histidx]; try assumption.
  - apply Z.land_nonneg. right. unfold to_u32. apply Z.mod_pos_bound. lia.
  - change (to_u32 (16 - 1)) with (Z.ones 4). rewrite Z.land_ones by lia.
    apply Z.mod_pos_bound. lia.
Qed.

End Step.

Lemma control_init_ok target : 0 <= target -> control_ok target 16 (control_init 16).
Proof.
  intros Ht. unfold control_ok, control_init; cbn [history histidx].
  rewrite length_replicate. repeat split; try lia.
  apply Forall_replicate. lia.
Qed.

(** The gains are the decimal literals of config.h rounded to [double]. *)
Example pcm_gain_literal :
  PcmSink.PCM_SINK_LOOP_GAIN = B64.div (B64.of_Z 4) (B64.of_Z 1000000).
Proof. vm_compute. reflexivity. Qed.

Example ac3_gain_literal :
  Ac3Sink.AC3_SINK_LOOP_GAIN = B64.div (B64.of_Z 13334) (B64.of_Z 10000000000).
Proof. vm_compute. reflexivity. Qed.

(** The bounds of the PCM sink: 0.999488 and 1.000512 to the last bit. *)
Example pcm_ratio_bounds :
  ratio_lower PcmSink.PCM_SINK_LOOP_GAIN 128 = S754_finite false 9002587568722565 (-53) ∧
  ratio_upper PcmSink.PCM_SINK_LOOP_GAIN 128 = S754_finite false 4505905470379710 (-52).
Proof. split; vm_compute; reflexivity. Qed.

Lemma pcm_sums_checked :
  all_sums_in_bounds PcmSink.PCM_SINK_LOOP_GAIN PcmSink.PCM_SINK_BUFFER_TARGET_SAMPLES
  = true.
Proof. vm_compute. reflexivity. Qed.

Lemma ac3_sums_checked :
  all_sums_in_bounds Ac3Sink.AC3_SINK_LOOP_GAIN Ac3Sink.AC3_SINK_BUFFER_TARGET_SAMPLES
  = true.
Proof. vm_compute. reflexivity. Qed.


End ControlLoopFacts.
(** ** Ring buffers *)

Section RingFacts.

Lemma mod_once x size : size <= x < 2 * size -> x mod size = x - size.
Proof.
  intros H. replace x with (x - size + 1 * size) at 1 by lia.
  rewrite Z.mod_add by lia. apply Z.mod_small. lia.
Qed.

(** Two offsets less than [size] apart fall on different slots. *)
Lemma slots_differ size w j k :
  0 < size -> 0 <= j < k -> k < size -> (w + j) mod size ≠ (w + k) mod size.
Proof.
  intros Hs Hj Hk E.
  assert (((w + k) - (w + j)) mod size = 0) as H0.
  { rewrite Zminus_mod, E, Z.sub_diag. apply Z.mod_0_l. lia. }
  replace (w + k - (w + j)) with (k - j) in H0 by lia.
  rewrite Z.mod_small in H0 by lia. lia.
Qed.

Lemma ring_write_spec size vs : ∀ ring w,
  Z.of_nat (length ring) = size -> 0 <= w < size -> Z.of_nat (length vs) <= size ->
  let '(ring', w') := ring_write size ring w vs in
  Z.of_nat (length ring') = size ∧
  w' = (w + Z.of_nat (length vs)) mod size ∧
  (∀ k v, vs !! k = Some v -> ring' !! Z.to_nat ((w + Z.of_nat k) mod size) = Some v) ∧
  (∀ j, 0 <= j < size ->
        (∀ k, (k < length vs)%nat -> j ≠ (w + Z.of_nat k) mod size) ->
        ring' !! Z.to_nat j = ring !! Z.to_nat j).
Proof.
  induction vs as [|v vs IH]; intros ring w Hlen Hw Hvs.
  - simpl. repeat split; try assumption.
    + rewrite Z.add_0_r. symmetry. apply Z.mod_small. lia.
    + intros k x Hk. discriminate.
  - simpl ring_write. simpl length in Hvs. rewrite Nat2Z.inj_succ in Hvs.
    assert (Hw1 : 0 <= (w + 1) mod size < size) by (apply Z.mod_pos_bound; lia).
    specialize (IH (<[Z.to_nat w := v]> ring) ((w + 1) mod size)
                  ltac:(now rewrite length_insert) Hw1 ltac:(lia)).
    destruct (ring_write size _ _ vs) as [ring' w'].
    destruct IH as (L & W & Hin & Hout).
    assert (Hshift : ∀ k, ((w + 1) mod size + Z.of_nat k) mod size
                          = (w + Z.of_nat (S k)) mod size).
    { intros k. rewrite Z.add_mod_idemp_l by lia. f_equal. lia. }
    repeat split.
    + assumption.
    + rewrite W, Z.add_mod_idemp_l by lia. f_equal. simpl length. lia.
    + intros [|k] x Hk.
      * simpl in Hk. injection Hk as <-.
        rewrite Z.add_0_r, Z.mod_small by lia.
        rewrite Hout; [apply list_lookup_insert_eq; lia | lia |].
        intros k Hk. rewrite Hshift.
        replace w with ((w + 0) mod size) at 1
          by (rewrite Z.add_0_r; apply Z.mod_small; lia).
        apply slots_differ; lia.
      * simpl in Hk. rewrite <- Hshift. now apply Hin.
    + intros j Hj Hfree. rewrite Hout; [|assumption|].
      * apply list_lookup_insert_ne.
        specialize (Hfree 0%nat ltac:(simpl; lia)).
        rewrite Z.add_0_r, Z.mod_small in Hfree by lia. lia.
      * intros k Hk. rewrite Hshift. apply Hfree. simpl. lia.
Qed.

Lemma ring_write_app size a : ∀ ring w b,
  ring_write size ring w (a ++ b)
  = let '(ring', w') := ring_write size ring w a in ring_write size ring' w' b.
Proof.
  induction a as [|v a IH]; intros ring w b; simpl; [reflexivity|]. apply IH.
Qed.

Lemma frames_from_length f n : ∀ i, length (frames_from f i n) = (6 * n)%nat.
Proof. induction n as [|n IH]; intros i; simpl; [reflexivity|]. rewrite IH. lia. Qed.

Lemma frames_from_lookup f n : ∀ i (k : nat) ch,
  (k < n)%nat -> 0 <= ch < 6 ->
  frames_from f i n !! (6 * k + Z.to_nat ch)%nat = Some (f ch (i + Z.of_nat k)).
Proof.
  induction n as [|n IH]; intros i k ch Hk Hch; [lia|].
  destruct k as [|k].
  - rewrite Z.add_0_r.
    assert (ch = 0 ∨ ch = 1 ∨ ch = 2 ∨ ch = 3 ∨ ch = 4 ∨ ch = 5) as Hc by lia.
    destruct Hc as [->|[->|[->|[->|[->| ->]]]]]; reflexivity.
  - replace (6 * S k + Z.to_nat ch)%nat with (6 + (6 * k + Z.to_nat ch))%nat by lia.
    cbn [frames_from]. rewrite (lookup_app_r [_; _; _; _; _; _]) by (simpl; lia).
    cbn [length].
    replace (6 + (6 * k + Z.to_nat ch) - 6)%nat with (6 * k + Z.to_nat ch)%nat by lia.
    rewrite IH by lia. f_equal. f_equal. lia.
Qed.

End RingFacts.
(** ** The AC-3 sink *)

Section Ac3SinkFacts.
Import Ac3Sink.

Lemma ac3_mask x :
  Z.land (to_u32 x) AC3_SINK_SAMPLE_BUFFER_SIZE_MASK = x mod AC3_SINK_SAMPLE_BUFFER_SIZE.
Proof.
  change AC3_SINK_SAMPLE_BUFFER_SIZE_MASK with (Z.ones 15).
  rewrite Z.land_ones by lia. unfold to_u32.
  change AC3_SINK_SAMPLE_BUFFER_SIZE with (2 ^ 15).
  apply Z.mod_mod_divide. exists (2 ^ 17). reflexivity.
Qed.

Lemma ac3_buffer_used inst :
  buffer_used inst = (write_idx inst - read_idx inst) mod AC3_SINK_SAMPLE_BUFFER_SIZE.
Proof. unfold buffer_used, ControlLoop.buffer_used. apply ac3_mask. Qed.

Lemma ac3_buffer_space_avail inst :
  buffer_space_avail inst = AC3_SINK_SAMPLE_BUFFER_SIZE - 1 - buffer_used inst.
Proof.
  unfold buffer_space_avail, ControlLoop.buffer_space_avail. fold (buffer_used inst).
  pose proof (Z.mod_pos_bound (write_idx inst - read_idx inst)
                AC3_SINK_SAMPLE_BUFFER_SIZE ltac:(reflexivity)) as H.
  rewrite <- ac3_buffer_used in H.
  unfold to_u32. change AC3_SINK_SAMPLE_BUFFER_SIZE_MASK with (AC3_SINK_SAMPLE_BUFFER_SIZE - 1).
  apply Z.mod_small. unfold AC3_SINK_SAMPLE_BUFFER_SIZE in *. lia.
Qed.

Lemma queue_channel_ok tmp ch i v ring w :
  sample_at tmp ch i = Some v -> 0 <= w < AC3_SINK_SAMPLE_BUFFER_SIZE ->
  queue_channel tmp ch i (ring, w)
  = Some (ring_write AC3_SINK_SAMPLE_BUFFER_SIZE ring w [v]).
Proof.
  intros Hv Hw. unfold queue_channel, array_store. rewrite Hv. cbn [mbind option_bind].
  replace ((0 <=? w) && (w <? AC3_SINK_SAMPLE_BUFFER_SIZE)) with true.
  2:{ symmetry. apply andb_true_iff. split; [apply Z.leb_le | apply Z.ltb_lt]; lia. }
  cbn [mbind option_bind ring_write]. now rewrite ac3_mask.
Qed.

Section Loop.
Variable tmp : list (list float).
Variable f : Z -> Z -> float.

Lemma queue_frame_ok i ring w :
  (∀ ch, 0 <= ch < 6 -> sample_at tmp ch i = Some (f ch i)) ->
  0 <= w < AC3_SINK_SAMPLE_BUFFER_SIZE ->
  queue_frame tmp i (ring, w)
  = Some (ring_write AC3_SINK_SAMPLE_BUFFER_SIZE ring w
            [f 0 i; f 1 i; f 2 i; f 3 i; f 4 i; f 5 i]).
Proof.
  intros Hf Hw. unfold queue_frame.
  assert (Hm : ∀ x, 0 <= x mod AC3_SINK_SAMPLE_BUFFER_SIZE < AC3_SINK_SAMPLE_BUFFER_SIZE)
    by (intros x; apply Z.mod_pos_bound; reflexivity).
  rewrite (queue_channel_ok tmp 0 i _ ring w (Hf 0 ltac:(lia)) Hw).
  cbn [mbind option_bind ring_write].
  rewrite (queue_channel_ok tmp 1 i _ _ _ (Hf 1 ltac:(lia)) (Hm _)).
  cbn [mbind option_bind ring_write].
  rewrite (queue_channel_ok tmp 2 i _ _ _ (Hf 2 ltac:(lia)) (Hm _)).
  cbn [mbind option_bind ring_write].
  rewrite (queue_channel_ok tmp 3 i _ _ _ (Hf 3 ltac:(lia)) (Hm _)).
  cbn [mbind option_bind ring_write].
  rewrite (queue_channel_ok tmp 4 i _ _ _ (Hf 4 ltac:(lia)) (Hm _)).
  cbn [mbind option_bind ring_write].
  rewrite (queue_channel_ok tmp 5 i _ _ _ (Hf 5 ltac:(lia)) (Hm _)).
  reflexivity.
Qed.

Lemma ring_write_idx_range size ring w vs :
  0 < size -> 0 <= w < size -> 0 <= (ring_write size ring w vs).2 < size.
Proof.
  intros Hs. revert ring w. induction vs as [|v vs IH]; intros ring w Hw; simpl.
  - assumption.
  - apply IH. apply Z.mod_pos_bound. lia.
Qed.

Lemma queue_loop_ok n : ∀ i ring w,
  (∀ ch k, 0 <= ch < 6 -> i <= k < i + Z.of_nat n ->
           sample_at tmp ch k = Some (f ch k)) ->
  0 <= w < AC3_SINK_SAMPLE_BUFFER_SIZE ->
  queue_loop n i tmp (ring, w)
  = Some (ring_write AC3_SINK_SAMPLE_BUFFER_SIZE ring w (frames_from f i n)).
Proof.
  induction n as [|n IH]; intros i ring w Hf Hw; [reflexivity|].
  cbn [queue_loop frames_from].
  rewrite queue_frame_ok by (try assumption; intros ch Hch; apply Hf; lia).
  cbn [mbind option_bind]. rewrite ring_write_app.
  pose proof (ring_write_idx_range AC3_SINK_SAMPLE_BUFFER_SIZE ring w
                [f 0 i; f 1 i; f 2 i; f 3 i; f 4 i; f 5 i] ltac:(reflexivity) Hw) as Hw'.
  destruct (ring_write _ ring w [_; _; _; _; _; _]) as [ring' w'].
  apply IH; [|exact Hw']. intros ch k Hch Hk. apply Hf; lia.
Qed.
End Loop.

(** C8: one producer step on a sink in order, with [output_frames_gen]
    frames available in each of the six channel arrays. If the free space
    is less than [output_frames_gen * 6] the frame is dropped: nothing is
    queued and the ring and both indices are as before. Otherwise the
    write index and the fill advance by [output_frames_gen * 6], the
    sample of channel [ch] of frame [i] is in slot
    [write_idx + 6 * i + ch] (channels 0 to 5 are FL, FR, FC, LFE, RL,
    RR), and the other slots keep their contents. The read index does not
    move. *)
Theorem ac3_frame_queued_whole_or_dropped
    (inst : ac3_sink) (tmp_output_buf : list (list float)) (output_frames_gen : Z) :
  ac3_ok inst ->
  0 <= output_frames_gen ->
  (∀ ch i, 0 <= ch < 6 -> 0 <= i < output_frames_gen ->
           is_Some (sample_at tmp_output_buf ch i)) ->
  ∃ inst' queued,
    ac3_sink_process inst tmp_output_buf output_frames_gen = Some (inst', queued) ∧
    ac3_ok inst' ∧ read_idx inst' = read_idx inst ∧
    if buffer_space_avail inst <? output_frames_gen * 6 then
      queued = false ∧ write_idx inst' = write_idx inst ∧ buffer inst' = buffer inst
    else
      queued = true ∧
      write_idx inst' = (write_idx inst + 6 * output_frames_gen) mod 32768 ∧
      buffer_used inst' = buffer_used inst + 6 * output_frames_gen ∧
      (∀ ch i, 0 <= ch < 6 -> 0 <= i < output_frames_gen ->
         buffer inst' !! Z.to_nat ((write_idx inst + (6 * i + ch)) mod 32768)
         = sample_at tmp_output_buf ch i) ∧
      (∀ j, 0 <= j < 32768 ->
         6 * output_frames_gen <= (j - write_idx inst) mod 32768 ->
         buffer inst' !! Z.to_nat j = buffer inst !! Z.to_nat j).
Proof.
  intros (Hlen & Hw & Hr & Hctl) Hgen Hsamples.
  unfold ac3_sink_process.
  destruct (calculate_rate_ratio_ok AC3_SINK_BUFFER_TARGET_SAMPLES
              AC3_SINK_SAMPLE_BUFFER_SIZE_MASK AC3_SINK_LOOP_GAIN
              ltac:(unfold AC3_SINK_BUFFER_TARGET_SAMPLES; lia) ac3_sums_checked
              (ctl inst) (write_idx inst) (read_idx inst) Hctl)
    as (c' & ratio & E & Hc' & _).
  unfold calculate_rate_ratio. unfold AC3_SINK_BUFFER_HIST_SIZE at 1. rewrite E.
  cbn [mbind option_bind].
  destruct (buffer_space_avail inst <? output_frames_gen * 6) eqn:Efree.
  - do 2 eexists. split; [reflexivity|].
    unfold ac3_ok. cbn [read_idx write_idx buffer ctl].
    split; [exact (conj Hlen (conj Hw (conj Hr Hc')))|].
    repeat split; reflexivity.
  - apply Z.ltb_ge in Efree. rewrite ac3_buffer_space_avail in Efree.
    pose proof (ac3_buffer_used inst) as Hused.
    pose proof (Z.mod_pos_bound (write_idx inst - read_idx inst)
                  AC3_SINK_SAMPLE_BUFFER_SIZE ltac:(reflexivity)) as Hub.
    rewrite <- Hused in Hub.
    set (f := λ ch i, default (S754_zero false) (sample_at tmp_output_buf ch i)).
    rewrite (queue_loop_ok tmp_output_buf f).
    2:{ intros ch k Hch Hk. unfold f.
        destruct (Hsamples ch k Hch ltac:(lia)) as [v ->]. reflexivity. }
    2:{ assumption. }
    pose proof (ring_write_spec AC3_SINK_SAMPLE_BUFFER_SIZE
                  (frames_from f 0 (Z.to_nat output_frames_gen))
                  (buffer inst) (write_idx inst) Hlen Hw) as Hspec.
    rewrite frames_from_length in Hspec.
    unfold AC3_SINK_SAMPLE_BUFFER_SIZE in *.
    specialize (Hspec ltac:(lia)).
    destruct (ring_write 32768 _ _ _) as [ring' w'].
    destruct Hspec as (L & W & Hin & Hout).
    replace (Z.of_nat (6 * Z.to_nat output_frames_gen)) with (6 * output_frames_gen) in W by lia.
    cbn [mbind option_bind]. do 2 eexists. split; [reflexivity|].
    unfold ac3_ok. cbn [read_idx write_idx buffer ctl].
    split; [|split; [reflexivity|]].
    { split; [exact L|]. split; [rewrite W; apply Z.mod_pos_bound; reflexivity|].
      split; [exact Hr | exact Hc']. }
    split; [reflexivity|]. split; [exact W|]. split; [|split].
    + rewrite ac3_buffer_used. cbn [write_idx read_idx]. rewrite W.
      unfold AC3_SINK_SAMPLE_BUFFER_SIZE.
      rewrite Zminus_mod_idemp_l.
      replace (write_idx inst + 6 * output_frames_gen - read_idx inst)
        with (write_idx inst - read_idx inst + 6 * output_frames_gen) by lia.
      rewrite <- Z.add_mod_idemp_l, <- Hused by lia.
      apply Z.mod_small. lia.
    + intros ch i Hch Hi.
      destruct (Hsamples ch i Hch Hi) as [v Hv].
      rewrite Hv.
      replace (6 * i + ch) with (Z.of_nat (6 * Z.to_nat i + Z.to_nat ch)) by lia.
      apply Hin.
      rewrite frames_from_lookup by lia.
      unfold f. rewrite Z.add_0_l, Z2Nat.id, Hv by lia. reflexivity.
    + intros j Hj Hfar. apply Hout; [assumption|].
      intros k Hk ->.
      rewrite Zminus_mod_idemp_l in Hfar.
      replace (write_idx inst + Z.of_nat k - write_idx inst) with (Z.of_nat k) in Hfar by lia.
      rewrite Z.mod_small in Hfar by lia. lia.
Qed.

End Ac3SinkFacts.
(** ** The zero-length burst, continued *)

Section ZeroLength.
Import Iec61937.

(** With [payload_len = 0] and [bytes_received > 0] in PAYLOAD, every
    sample stores two more bytes and the burst never completes. *)
Lemma zero_length_step inst x :
  fsm_wf inst -> state inst = IEC_61937_STATE_PAYLOAD -> payload_len inst = 0 ->
  1 <= bytes_received inst -> bytes_received inst + 2 <= 65536 ->
  ∃ inst', iec_61937_fsm_run inst x = Some (inst', true, None) ∧
    fsm_wf inst' ∧ state inst' = IEC_61937_STATE_PAYLOAD ∧ payload_len inst' = 0 ∧
    bytes_received inst' = bytes_received inst + 2.
Proof.
  intros Hwf Hst Hlen Hb1 Hb2.
  unfold iec_61937_fsm_run, fsm_switch. rewrite Hst, Hlen.
  replace (2 <=? to_size (0 - bytes_received inst)) with true.
  2:{ symmetry. apply Z.leb_le. unfold to_size, SIZE_WIDTH.
      replace (0 - bytes_received inst) with (2 ^ 64 - bytes_received inst + -1 * 2 ^ 64) by lia.
      rewrite Z.mod_add by lia. rewrite Z.mod_small; lia. }
  destruct (payload_push_prefix inst (Z.shiftr (bswap16 x) 8) _ Hwf
              ltac:(unfold IEC_61937_MAX_BURST_PAYLOAD; lia) eq_refl)
    as (i1 & E1 & W1 & S1 & D1 & L1 & B1 & _).
  destruct (payload_push_prefix i1 (bswap16 x) _ W1
              ltac:(unfold IEC_61937_MAX_BURST_PAYLOAD; lia) eq_refl)
    as (i2 & E2 & W2 & S2 & D2 & L2 & B2 & _).
  rewrite E1. cbn [mbind option_bind]. rewrite E2. cbn [mbind option_bind].
  replace (payload_len i2 =? bytes_received i2) with false
    by (symmetry; apply Z.eqb_neq; lia).
  cbn [mbind option_bind]. exists i2.
  replace (state i2) with IEC_61937_STATE_PAYLOAD by congruence.
  repeat split; try assumption; try congruence; lia.
Qed.

Lemma zero_length_steps samples : ∀ inst,
  fsm_wf inst -> state inst = IEC_61937_STATE_PAYLOAD -> payload_len inst = 0 ->
  1 <= bytes_received inst ->
  bytes_received inst + 2 * Z.of_nat (length samples) <= 65536 ->
  ∃ inst' flags, fsm_feed inst samples = Some (inst', flags, []) ∧
    fsm_wf inst' ∧ state inst' = IEC_61937_STATE_PAYLOAD ∧ payload_len inst' = 0 ∧
    bytes_received inst' = bytes_received inst + 2 * Z.of_nat (length samples).
Proof.
  induction samples as [|x rest IH]; intros inst Hwf Hst Hlen Hb1 Hb2.
  - simpl. do 2 eexists. split; [reflexivity|]. repeat split; try assumption. lia.
  - simpl length in *. rewrite Nat2Z.inj_succ in *.
    destruct (zero_length_step inst x Hwf Hst Hlen Hb1 ltac:(lia))
      as (i1 & E1 & W1 & S1 & L1 & B1).
    destruct (IH i1 W1 S1 L1 ltac:(lia) ltac:(lia)) as (i2 & fl & E2 & W2 & S2 & L2 & B2).
    simpl fsm_feed. rewrite E1. cbn [mbind option_bind]. rewrite E2.
    cbn [mbind option_bind]. do 2 eexists. split; [reflexivity|].
    repeat split; try assumption. lia.
Qed.

(** The machine after the zero-length header and one more sample. *)
Lemma zero_length_header_state :
  ∃ inst flags,
    fsm_feed iec_61937_fsm_init zero_length_stream = Some (inst, flags, []) ∧
    fsm_wf inst ∧ state inst = IEC_61937_STATE_PAYLOAD ∧ payload_len inst = 0 ∧
    bytes_received inst = 1.
Proof.
  assert (fsm_view <$> fsm_feed iec_61937_fsm_init zero_length_stream
          = Some (IEC_61937_STATE_PAYLOAD, 0, 1, [])) as Hv
    by (vm_compute; reflexivity).
  destruct (fsm_feed iec_61937_fsm_init zero_length_stream) as [[[i0 f0] p0]|] eqn:E0;
    [|discriminate Hv].
  cbn [fmap option_fmap option_map] in Hv. injection Hv as S0 L0 B0 ->.
  exists i0, f0. split; [reflexivity|].
  split; [exact (fsm_feed_wf _ _ _ _ _ E0 fsm_init_wf)|]. auto.
Qed.

(** Whatever 32768 samples follow the zero-length header and its first
    payload sample, the last of them is stored past the end of the
    65536-byte array. *)
Theorem zero_length_burst_overflows (samples : list Z) (x : Z) :
  Z.of_nat (length samples) = 32767 ->
  fsm_feed iec_61937_fsm_init (zero_length_stream ++ samples ++ [x]) = None.
Proof.
  intros Hn. rewrite fsm_feed_app.
  destruct zero_length_header_state as (i0 & f0 & E0 & W0 & S0 & L0 & B0).
  rewrite E0. cbn [mbind option_bind]. rewrite fsm_feed_app.
  destruct (zero_length_steps samples i0 W0 S0 L0 ltac:(lia) ltac:(lia))
    as (i1 & fl & E1 & W1 & S1 & L1 & B1).
  rewrite E1. cbn [mbind option_bind].
  simpl fsm_feed. unfold iec_61937_fsm_run, fsm_switch. rewrite S1, L1.
  replace (2 <=? to_size (0 - bytes_received i1)) with true.
  2:{ symmetry. apply Z.leb_le. unfold to_size, SIZE_WIDTH.
      replace (0 - bytes_received i1) with (2 ^ 64 - bytes_received i1 + -1 * 2 ^ 64) by lia.
      rewrite Z.mod_add by lia. rewrite Z.mod_small; lia. }
  destruct (payload_push_prefix i1 (Z.shiftr (bswap16 x) 8) _ W1
              ltac:(unfold IEC_61937_MAX_BURST_PAYLOAD; lia) eq_refl)
    as (i2 & E2 & W2 & S2 & D2 & L2 & B2 & _).
  rewrite E2. cbn [mbind option_bind].
  unfold payload_push. rewrite B2, B1, B0, Hn.
  reflexivity.
Qed.

End ZeroLength.

(** ** The PCM sink *)

(** C2, evaluated: eight chunks queued while the worker does not run.
    The eighth finds 127 slots free for its 256 samples and queues 127:
    the write index is left at 2047. *)
Theorem pcm_write_idx_odd_after_truncation :
  pcm_indices <$> PcmSink.run PcmSink.pcm_sink_open eight_pushes = Some (2047, 0).
Proof. vm_compute. reflexivity. Qed.
(** ** The theorems at concrete inputs *)

Lemma fsm_run_locked_iff_beyond_sync_1_witness :
  is_Some (Iec61937.iec_61937_fsm_run
             (Iec61937.set_state Iec61937.iec_61937_fsm_init Iec61937.IEC_61937_STATE_SYNC_1)
             (bswap16 0x4E1F)) ∧
  ∀ inst' ret cb,
    Iec61937.iec_61937_fsm_run
      (Iec61937.set_state Iec61937.iec_61937_fsm_init Iec61937.IEC_61937_STATE_SYNC_1)
      (bswap16 0x4E1F) = Some (inst', ret, cb) ->
    (ret = true <-> Spec.beyond_sync_1 (Iec61937.state inst')).
Proof.
  split.
  - apply (proj2 (fsm_run_locked_iff_beyond_sync_1 _ _)). left. simpl. discriminate.
  - apply (proj1 (fsm_run_locked_iff_beyond_sync_1 _ _)).
Defined.

Lemma valid_bursts_round_trip_witness :
  ∃ inst' flags,
    Iec61937.fsm_feed Iec61937.iec_61937_fsm_init
      (Spec.captured (Spec.burst_words 0 example_burst))
    = Some (inst', flags, [Spec.burst_packet example_burst]) ∧
    Iec61937.state inst' = Iec61937.IEC_61937_STATE_FIRST_0.
Proof.
  apply (proj1 (valid_bursts_round_trip 0 Iec61937.iec_61937_fsm_init
                  ltac:(unfold Spec.byte; lia) fsm_init_wf eq_refl)).
  unfold Spec.valid_burst, example_burst; simpl.
  repeat split; try lia. repeat constructor; unfold Spec.byte; lia.
Defined.

Example example_stream_view :
  fsm_view <$> Iec61937.fsm_feed Iec61937.iec_61937_fsm_init example_stream
  = Some (Iec61937.IEC_61937_STATE_PAYLOAD, 2, 0, [Spec.burst_packet example_burst]).
Proof. vm_compute. reflexivity. Qed.

Lemma payload_len_at_most_8191_witness :
  ∃ inst flags pkts,
    Iec61937.fsm_feed Iec61937.iec_61937_fsm_init example_stream = Some (inst, flags, pkts) ∧
    (Iec61937.state inst = Iec61937.IEC_61937_STATE_PAYLOAD ->
     0 <= Iec61937.payload_len inst <= 8191) ∧
    Forall (λ p, Iec61937.pkt_data_type p = 1 ∧ 0 <= Iec61937.pkt_len p <= 8191) pkts.
Proof.
  pose proof example_stream_view as Hv.
  destruct (Iec61937.fsm_feed Iec61937.iec_61937_fsm_init example_stream)
    as [[[inst flags] pkts]|] eqn:E; [|discriminate Hv].
  exists inst, flags, pkts. split; [reflexivity|].
  exact (payload_len_at_most_8191 example_stream inst flags pkts E).
Defined.

Example silence_then_burst_view :
  arbiter_view <$> Arbiter.iec_60958_run (Arbiter.iec_60958_init 0)
                     (replicate 64 silent_chunk ++ [burst_chunk])
  = Some (Arbiter.IEC_60958_STATE_61937, 0,
          [Arbiter.pcm_sink_open 0; Arbiter.pcm_sink_close; Arbiter.ac3_sink_open 0]).
Proof. vm_compute. reflexivity. Qed.

Lemma at_most_one_sink_open_witness :
  ∃ inst calls,
    Arbiter.iec_60958_run (Arbiter.iec_60958_init 0)
      (replicate 64 silent_chunk ++ [burst_chunk]) = Some (inst, calls) ∧
    Arbiter.sinks_after Arbiter.no_sink calls = sinks_of_state (Arbiter.state inst) ∧
    Forall Arbiter.at_most_one_open
      (Arbiter.no_sink :: Arbiter.sinks_during Arbiter.no_sink calls) ∧
    Arbiter.calls_in_order Arbiter.no_sink calls.
Proof.
  pose proof silence_then_burst_view as Hv.
  destruct (Arbiter.iec_60958_run (Arbiter.iec_60958_init 0)
              (replicate 64 silent_chunk ++ [burst_chunk]))
    as [[inst calls]|] eqn:E; [|discriminate Hv].
  exists inst, calls. split; [reflexivity|].
  exact (at_most_one_sink_open 0 _ inst calls E).
Defined.

Example silence_view :
  arbiter_view <$> Arbiter.iec_60958_run (Arbiter.iec_60958_init 0)
                     (replicate 63 silent_chunk)
  = Some (Arbiter.IEC_60958_STATE_UNKNOWN, 63, []).
Proof. vm_compute. reflexivity. Qed.

Lemma arbiter_follows_spec_witness :
  ∃ inst calls0,
    Arbiter.iec_60958_run (Arbiter.iec_60958_init 0) (replicate 63 silent_chunk)
    = Some (inst, calls0) ∧
    ∀ chunk,
      (is_Some (Arbiter.process_chunk_iec_61937 (Arbiter.iec_61937_fsm_inst inst) chunk) ->
       is_Some (Arbiter.iec_60958_process inst chunk)) ∧
      ∀ inst' calls, Arbiter.iec_60958_process inst chunk = Some (inst', calls) ->
        ∃ flags pkts acts,
          Iec61937.fsm_feed (Arbiter.iec_61937_fsm_inst inst) (chunk_samples chunk)
          = Some (Arbiter.iec_61937_fsm_inst inst', flags, pkts) ∧
          Spec.arbiter_step (Spec.mode_of (Arbiter.state inst))
            (Arbiter.non_61937_chunks inst) (existsb id flags) chunk
          = (Spec.mode_of (Arbiter.state inst'), Arbiter.non_61937_chunks inst', acts) ∧
          calls = concat (map (Arbiter.iec_61937_packet_handler inst) pkts)
                  ++ map (Spec.call_of (Arbiter.sink_latency_us inst)) acts.
Proof.
  pose proof silence_view as Hv.
  destruct (Arbiter.iec_60958_run (Arbiter.iec_60958_init 0) (replicate 63 silent_chunk))
    as [[inst calls0]|] eqn:E; [|discriminate Hv].
  exists inst, calls0. split; [reflexivity|].
  exact (arbiter_follows_spec 0 _ inst calls0 E).
Defined.

Lemma ac3_sink_open_ok : ac3_ok Ac3Sink.ac3_sink_open.
Proof.
  unfold ac3_ok, Ac3Sink.ac3_sink_open.
  cbn [Ac3Sink.buffer Ac3Sink.write_idx Ac3Sink.read_idx Ac3Sink.ctl].
  split; [rewrite length_replicate; apply Z2Nat.id; discriminate|].
  unfold Ac3Sink.AC3_SINK_SAMPLE_BUFFER_SIZE, Ac3Sink.AC3_SINK_BUFFER_TARGET_SAMPLES.
  split; [lia|]. split; [lia|]. apply control_init_ok. lia.
Qed.

Lemma ac3_frame_queued_whole_or_dropped_witness :
  ∃ inst' queued,
    Ac3Sink.ac3_sink_process Ac3Sink.ac3_sink_open one_frame 1 = Some (inst', queued) ∧
    ac3_ok inst' ∧ Ac3Sink.read_idx inst' = Ac3Sink.read_idx Ac3Sink.ac3_sink_open ∧
    if Ac3Sink.buffer_space_avail Ac3Sink.ac3_sink_open <? 1 * 6 then
      queued = false ∧
      Ac3Sink.write_idx inst' = Ac3Sink.write_idx Ac3Sink.ac3_sink_open ∧
      Ac3Sink.buffer inst' = Ac3Sink.buffer Ac3Sink.ac3_sink_open
    else
      queued = true ∧
      Ac3Sink.write_idx inst'
      = (Ac3Sink.write_idx Ac3Sink.ac3_sink_open + 6 * 1) mod 32768 ∧
      Ac3Sink.buffer_used inst' = Ac3Sink.buffer_used Ac3Sink.ac3_sink_open + 6 * 1 ∧
      (∀ ch i, 0 <= ch < 6 -> 0 <= i < 1 ->
         Ac3Sink.buffer inst'
           !! Z.to_nat ((Ac3Sink.write_idx Ac3Sink.ac3_sink_open + (6 * i + ch)) mod 32768)
         = Ac3Sink.sample_at one_frame ch i) ∧
      (∀ j, 0 <= j < 32768 ->
         6 * 1 <= (j - Ac3Sink.write_idx Ac3Sink.ac3_sink_open) mod 32768 ->
         Ac3Sink.buffer inst' !! Z.to_nat j
         = Ac3Sink.buffer Ac3Sink.ac3_sink_open !! Z.to_nat j).
Proof.
  apply (ac3_frame_queued_whole_or_dropped Ac3Sink.ac3_sink_open one_frame 1).
  - exact ac3_sink_open_ok.
  - lia.
  - intros ch i Hch Hi. replace i with 0 by lia.
    assert (ch = 0 ∨ ch = 1 ∨ ch = 2 ∨ ch = 3 ∨ ch = 4 ∨ ch = 5) as Hc by lia.
    destruct Hc as [->|[->|[->|[->|[->| ->]]]]]; vm_compute; eauto.
Defined.

(** ** The state machine on arbitrary input *)

Section Iec61937Safety.
Import Iec61937.

Lemma bswap16_zero : bswap16 0 = 0.
Proof. reflexivity. Qed.

(** One byte stored while the burst is incomplete. *)
Lemma payload_push_safe inst v :
  fsm_wf inst -> 0 <= bytes_received inst < payload_len inst -> payload_len inst <= 8191 ->
  ∃ inst', payload_push inst v = Some inst' ∧ fsm_wf inst' ∧
    state inst' = state inst ∧ data_type inst' = data_type inst ∧
    payload_len inst' = payload_len inst ∧
    bytes_received inst' = bytes_received inst + 1.
Proof.
  intros Hwf Hb Hl.
  assert (Hr : 0 <= bytes_received inst < IEC_61937_MAX_BURST_PAYLOAD)
    by (unfold IEC_61937_MAX_BURST_PAYLOAD; lia).
  destruct (payload_push_prefix inst v _ Hwf Hr eq_refl)
    as (inst' & E & W & S1 & D1 & L1 & B1 & _).
  exists inst'. repeat split; assumption.
Qed.

(** One word: the machine stays safe, unless the word is the length word
    of an AC-3 header and announces less than one byte. *)
Lemma fsm_switch_safe inst s :
  0 <= s < 65536 -> fsm_safe inst ->
  (state inst = IEC_61937_STATE_LENGTH -> data_type inst = IEC_61937_DATA_TYPE_AC3 -> 8 <= s) ->
  ∃ inst' cb, fsm_switch inst s = Some (inst', cb) ∧ fsm_safe inst' ∧
    ∀ p, cb = Some p -> packet_ok p.
Proof.
  intros Hs (Hwf & Hb & Hl & Hp) Hlen. unfold fsm_switch.
  destruct (state inst) eqn:St.
  1-6: repeat match goal with |- context [if ?c then _ else _] => destruct c end;
       (do 2 eexists; split; [reflexivity|]);
       (split; [|discriminate]);
       (repeat split; simpl; try assumption; try lia; try congruence; try discriminate).
  - (* DATA_TYPE *)
    match goal with |- context [if ?c then _ else _] => destruct c end;
      (do 2 eexists; split; [reflexivity|]); (split; [|discriminate]);
      repeat split; simpl; try assumption; try lia; discriminate.
  - (* LENGTH *)
    destruct (data_type inst =? IEC_61937_DATA_TYPE_AC3) eqn:Dt.
    + apply Z.eqb_eq in Dt. specialize (Hlen eq_refl Dt).
      do 2 eexists; split; [reflexivity|]. split; [|discriminate].
      assert (1 <= s / 8 <= 8191).
      { split; [apply Z.div_le_lower_bound; lia|].
        enough (s / 8 < 8192) by lia. apply Z.div_lt_upper_bound; lia. }
      repeat split; simpl; try assumption; lia.
    + do 2 eexists; split; [reflexivity|]. split; [|discriminate].
      repeat split; simpl; try assumption; try lia; discriminate.
  - (* PAYLOAD *)
    specialize (Hp eq_refl).
    rewrite to_size_small by lia.
    destruct (2 <=? payload_len inst - bytes_received inst) eqn:Two.
    + apply Z.leb_le in Two.
      destruct (payload_push_safe inst (Z.shiftr s 8) Hwf ltac:(lia) Hl)
        as (i1 & E1 & W1 & S1 & D1 & L1 & B1).
      destruct (payload_push_safe i1 s W1 ltac:(lia) ltac:(lia))
        as (i2 & E2 & W2 & S2 & D2 & L2 & B2).
      rewrite E1; simpl. rewrite E2; simpl.
      destruct (payload_len i2 =? bytes_received i2) eqn:Done.
      * apply Z.eqb_eq in Done. do 2 eexists; split; [reflexivity|]. split.
        { repeat split; simpl; try assumption; try lia; discriminate. }
        intros p [= <-]. unfold packet_ok; simpl. split; [lia|].
        rewrite length_take. unfold fsm_wf, IEC_61937_MAX_BURST_PAYLOAD in W2. lia.
      * apply Z.eqb_neq in Done. do 2 eexists; split; [reflexivity|]. split; [|discriminate].
        repeat split; simpl; try assumption; lia.
    + apply Z.leb_gt in Two.
      destruct (payload_push_safe inst (Z.shiftr s 8) Hwf ltac:(lia) Hl)
        as (i1 & E1 & W1 & S1 & D1 & L1 & B1).
      rewrite E1; simpl.
      replace (payload_len i1 =? bytes_received i1) with true
        by (symmetry; apply Z.eqb_eq; lia).
      do 2 eexists; split; [reflexivity|]. split.
      { repeat split; simpl; try assumption; try lia; discriminate. }
      intros p [= <-]. unfold packet_ok; simpl. split; [lia|].
      rewrite length_take. unfold fsm_wf, IEC_61937_MAX_BURST_PAYLOAD in W1. lia.
Qed.

Lemma fsm_init_safe : fsm_safe iec_61937_fsm_init.
Proof.
  split; [exact fsm_init_wf|]. repeat split; simpl; try lia; discriminate.
Qed.

(** A stream: safe to the end, or up to a short length word. *)
Lemma fsm_feed_safe samples : ∀ inst, fsm_safe inst ->
  (∃ inst' flags pkts,
     fsm_feed inst samples = Some (inst', flags, pkts) ∧ fsm_safe inst' ∧
     Forall packet_ok pkts)
  ∨ (∃ pre x post inst' flags pkts,
       samples = pre ++ x :: post ∧
       fsm_feed inst pre = Some (inst', flags, pkts) ∧
       state inst' = IEC_61937_STATE_LENGTH ∧
       data_type inst' = IEC_61937_DATA_TYPE_AC3 ∧ bswap16 x < 8).
Proof.
  induction samples as [|x rest IH]; intros inst Hsafe.
  { left. exists inst, [], []. repeat split; try apply Hsafe. constructor. }
  assert (Hcase : (state inst = IEC_61937_STATE_LENGTH
                   ∧ data_type inst = IEC_61937_DATA_TYPE_AC3 ∧ bswap16 x < 8)
                  ∨ (state inst = IEC_61937_STATE_LENGTH ->
                     data_type inst = IEC_61937_DATA_TYPE_AC3 -> 8 <= bswap16 x)).
  { destruct (Z_lt_dec (bswap16 x) 8) as [Short|Long]; [|right; lia].
    destruct (Z.eq_dec (data_type inst) IEC_61937_DATA_TYPE_AC3) as [Dt|Dt];
      [|right; intros; contradiction].
    destruct (state inst); try (right; discriminate). left. repeat split; assumption. }
  destruct Hcase as [(St & Dt & Short)|Hok].
  { right. exists [], x, rest, inst, [], []. repeat split; assumption. }
  destruct (fsm_switch_safe inst (bswap16 x) (bswap16_range x) Hsafe Hok)
    as (i1 & cb & E1 & Safe1 & Hcb).
  assert (Run : iec_61937_fsm_run inst x
                = Some (i1, state_value IEC_61937_STATE_SYNC_1 <? state_value (state i1), cb)).
  { unfold iec_61937_fsm_run. now rewrite E1. }
  destruct (IH i1 Safe1) as [(i2 & fl & pk & E2 & Safe2 & Hpk)
                            |(pre & y & post & i2 & fl & pk & -> & E2 & St & Dt & Short)].
  - left. simpl. rewrite Run; simpl. rewrite E2; simpl.
    do 3 eexists. split; [reflexivity|]. split; [assumption|].
    apply Forall_app. split; [|assumption].
    destruct cb as [p|]; simpl; [|constructor]. constructor; [now apply Hcb | constructor].
  - right. exists (x :: pre), y, post, i2. do 2 eexists.
    split; [reflexivity|]. simpl. rewrite Run; simpl. rewrite E2; simpl.
    repeat split; try assumption. 
Qed.

(** X1: on every stream of samples the state machine, started by
    [iec_61937_fsm_init], either runs to the end without touching
    anything outside the first 8191 bytes of its payload array, and then
    every callback got between 1 and 8191 bytes, exactly [len] of them;
    or the stream holds an AC-3 header whose length word is below 8 bits. *)
Theorem fsm_defined_unless_short_length (samples : list Z) :
  (∃ inst flags pkts,
     fsm_feed iec_61937_fsm_init samples = Some (inst, flags, pkts) ∧ fsm_safe inst ∧
     Forall packet_ok pkts)
  ∨ (∃ pre x post inst flags pkts,
       samples = pre ++ x :: post ∧
       fsm_feed iec_61937_fsm_init pre = Some (inst, flags, pkts) ∧
       state inst = IEC_61937_STATE_LENGTH ∧
       data_type inst = IEC_61937_DATA_TYPE_AC3 ∧ bswap16 x < 8).
Proof. exact (fsm_feed_safe samples _ fsm_init_safe). Qed.

End Iec61937Safety.
Section Iec61937Preamble.
Import Iec61937.

Lemma preamble_in_app a b : preamble_in a -> preamble_in (a ++ b).
Proof.
  intros (pre & k & post & ->). exists pre, k, (post ++ b).
  now rewrite <- !app_assoc.
Qed.

Lemma replicate_snoc {A} (n : nat) (x : A) : replicate n x ++ [x] = replicate (S n) x.
Proof. induction n as [|n IH]; simpl; [reflexivity|]. now rewrite IH. Qed.

(** One word: the words seen so far end the way the state says. *)
Lemma fsm_switch_seen inst s inst' cb seen :
  fsm_switch inst s = Some (inst', cb) ->
  seen_in_state seen (state inst) ->
  seen_in_state (seen ++ [s]) (state inst') ∧
  (cb ≠ None -> preamble_in (seen ++ [s])).
Proof.
  unfold fsm_switch. intros E Hseen.
  destruct (state inst) eqn:St; simpl in Hseen.
  - destruct (s =? 0) eqn:Z0; injection E as <- <-; simpl; (split; [|congruence]).
    + apply Z.eqb_eq in Z0 as ->. now exists seen.
    + now rewrite St.
  - destruct Hseen as (pre & ->).
    destruct (s =? 0) eqn:Z0; injection E as <- <-; simpl; (split; [|congruence]); [|exact I].
    apply Z.eqb_eq in Z0 as ->. exists pre. now rewrite <- app_assoc.
  - destruct Hseen as (pre & ->).
    destruct (s =? 0) eqn:Z0; injection E as <- <-; simpl; (split; [|congruence]); [|exact I].
    apply Z.eqb_eq in Z0 as ->. exists pre. now rewrite <- app_assoc.
  - destruct Hseen as (pre & ->).
    destruct (s =? 0) eqn:Z0; injection E as <- <-; simpl; (split; [|congruence]); [|exact I].
    apply Z.eqb_eq in Z0 as ->. exists pre, 0%nat. now rewrite <- app_assoc.
  - destruct Hseen as (pre & k & ->).
    destruct (s =? 0) eqn:Z0; [|destruct (s =? IEC_61937_SYNC_WORD_0) eqn:Z1];
      injection E as <- <-; simpl; (split; [|congruence]); [| |exact I].
    + apply Z.eqb_eq in Z0 as ->. rewrite St. simpl. exists pre, (S k).
      rewrite <- !app_assoc. f_equal. simpl. do 4 f_equal. apply replicate_snoc.
    + apply Z.eqb_eq in Z1 as ->. exists pre, k. now rewrite <- !app_assoc.
  - destruct Hseen as (pre & k & ->).
    destruct (s =? IEC_61937_SYNC_WORD_1) eqn:Z1;
      injection E as <- <-; simpl; (split; [|congruence]); [|exact I].
    apply Z.eqb_eq in Z1 as ->. exists pre, k, [].
    rewrite <- !app_assoc. simpl. do 5 f_equal. now rewrite <- app_assoc.
  - match type of E with context [if ?c then _ else _] => destruct c end;
      injection E as <- <-; simpl; (split; [|congruence]); [exact I|].
    now apply preamble_in_app.
  - destruct (data_type inst =? IEC_61937_DATA_TYPE_AC3);
      injection E as <- <-; simpl; (split; [|congruence]); [|exact I].
    now apply preamble_in_app.
  - match type of E with (?e ≫= _) = _ => destruct e as [i1|] eqn:E1 end;
      [|discriminate]. simpl in E.
    assert (St1 : state i1 = IEC_61937_STATE_PAYLOAD).
    { destruct (2 <=? to_size (payload_len inst - bytes_received inst)).
      - destruct (payload_push inst (Z.shiftr s 8)) as [i0|] eqn:E0; [|discriminate].
        simpl in E1.
        apply payload_push_inv in E0 as (S0 & _). apply payload_push_inv in E1 as (S1 & _).
        congruence.
      - apply payload_push_inv in E1 as (S1 & _). congruence. }
    destruct (payload_len i1 =? bytes_received i1); injection E as <- <-; simpl.
    + split; [exact I|]. intros _. now apply preamble_in_app.
    + rewrite St1. simpl. split; [|congruence]. now apply preamble_in_app.
Qed.

Lemma seen_beyond_sync_1 seen st :
  seen_in_state seen st ->
  (state_value IEC_61937_STATE_SYNC_1 <? state_value st) = true -> preamble_in seen.
Proof. destruct st; simpl; intros H F; try discriminate; exact H. Qed.

(** A stream: what has been seen at the end, and a preamble behind every
    lock and every callback. *)
Lemma fsm_feed_seen samples : ∀ inst seen inst' flags pkts,
  fsm_feed inst samples = Some (inst', flags, pkts) ->
  seen_in_state seen (state inst) ->
  seen_in_state (seen ++ map bswap16 samples) (state inst') ∧
  (existsb id flags = true ∨ pkts ≠ [] -> preamble_in (seen ++ map bswap16 samples)).
Proof.
  induction samples as [|x rest IH]; intros inst seen inst' flags pkts E Hseen.
  { injection E as <- <- <-. rewrite app_nil_r. split; [assumption|].
    intros [F|F]; [discriminate | congruence]. }
  simpl in E.
  destruct (iec_61937_fsm_run inst x) as [[[i1 r] cb]|] eqn:Run; [|discriminate].
  simpl in E.
  destruct (fsm_feed i1 rest) as [[[i2 rs] cbs]|] eqn:Feed; [|discriminate].
  injection E as <- <- <-.
  apply fsm_run_switch in Run as [Sw ->].
  destruct (fsm_switch_seen _ _ _ _ seen Sw Hseen) as [Seen1 Hcb].
  destruct (IH _ _ _ _ _ Feed Seen1) as [Seen2 Hrest].
  simpl map. rewrite (cons_middle (bswap16 x)), app_assoc.
  split; [assumption|].
  intros [F|F].
  - simpl in F. apply orb_true_iff in F as [F|F]; [|now apply Hrest; left].
    apply preamble_in_app. exact (seen_beyond_sync_1 _ _ Seen1 F).
  - destruct cb as [p|]; [apply preamble_in_app, Hcb; discriminate|].
    apply Hrest. now right.
Qed.

(** X2: the state machine reports lock, or calls back, only if the words
    it was given hold a burst preamble: four zero words, any number of
    further zero words, 0xF872, 0x4E1F. *)
Theorem lock_needs_preamble (samples : list Z) inst flags pkts :
  fsm_feed iec_61937_fsm_init samples = Some (inst, flags, pkts) ->
  existsb id flags = true ∨ pkts ≠ [] ->
  preamble_in (map bswap16 samples).
Proof.
  intros E H.
  exact (proj2 (fsm_feed_seen samples iec_61937_fsm_init [] inst flags pkts E I) H).
Qed.

End Iec61937Preamble.
Section Iec61937Discard.
Import Iec61937.

Lemma fsm_feed_cons inst w rest :
  0 <= w < 65536 ->
  fsm_feed inst (Spec.captured (w :: rest)) =
  '(i1, cb) ← fsm_switch inst w;
  '(i2, rets, cbs) ← fsm_feed i1 (Spec.captured rest);
  Some (i2, (state_value IEC_61937_STATE_SYNC_1 <? state_value (state i1)) :: rets,
        option_list cb ++ cbs).
Proof.
  intros Hw. unfold Spec.captured. simpl map. simpl fsm_feed.
  rewrite (fsm_run_captured _ _ Hw).
  destruct (fsm_switch inst w) as [[i1 cb]|]; reflexivity.
Qed.

(** The preamble, from FIRST_0: the machine waits for the data type. *)
Lemma preamble_phase inst :
  state inst = IEC_61937_STATE_FIRST_0 ->
  fsm_feed inst (Spec.captured [0; 0; 0; 0; 0xF872; 0x4E1F])
  = Some (set_state inst IEC_61937_STATE_DATA_TYPE,
          [false; false; false; false; false; true], []).
Proof.
  intros St. destruct inst as [st dt pl br pay]. simpl in St. subst st. reflexivity.
Qed.

(** X3: a burst header whose data type is not AC-3 is dropped: after the
    length word the machine is looking for zero words again, nothing was
    called back and the payload array, the length and the byte count are
    what they were. The machine reports lock for the sync word and, unless
    the type is the extended one, for the data-type word. *)
Theorem non_ac3_header_is_dropped (inst : iec_61937_fsm) (pc len : Z) :
  state inst = IEC_61937_STATE_FIRST_0 ->
  0 <= pc < 65536 -> 0 <= len < 65536 ->
  Z.land pc 0x7F ≠ IEC_61937_DATA_TYPE_AC3 ->
  ∃ inst',
    fsm_feed inst (Spec.captured [0; 0; 0; 0; 0xF872; 0x4E1F; pc; len])
    = Some (inst',
            [false; false; false; false; false; true;
             negb (Z.land pc 0x7F =? IEC_61937_DATA_TYPE_EXTENDED); false], []) ∧
    state inst' = (if (Z.land pc 0x7F =? IEC_61937_DATA_TYPE_EXTENDED) && (len =? 0)
                   then IEC_61937_STATE_SECOND_0 else IEC_61937_STATE_FIRST_0) ∧
    data_type inst' = Z.land pc 0x7F ∧
    payload inst' = payload inst ∧ payload_len inst' = payload_len inst ∧
    bytes_received inst' = bytes_received inst.
Proof.
  intros St Hpc Hlen Hty.
  change [0; 0; 0; 0; 0xF872; 0x4E1F; pc; len]
    with ([0; 0; 0; 0; 0xF872; 0x4E1F] ++ [pc; len]).
  unfold Spec.captured. rewrite map_app, fsm_feed_app.
  fold (Spec.captured [0; 0; 0; 0; 0xF872; 0x4E1F]). fold (Spec.captured [pc; len]).
  rewrite (preamble_phase _ St). cbn [mbind option_bind].
  rewrite (fsm_feed_cons _ _ _ Hpc).
  unfold fsm_switch at 1. cbn [state set_state].
  cbn [data_type set_data_type set_state].
  rewrite to_u8_data_type. change IEC_61937_DATA_TYPE_MASK with 127.
  destruct (Z.land pc 127 =? IEC_61937_DATA_TYPE_EXTENDED) eqn:Ext;
    cbn [mbind option_bind]; rewrite (fsm_feed_cons _ _ _ Hlen);
    unfold fsm_switch at 1; cbn [state set_state set_data_type data_type].
  - destruct (len =? 0) eqn:L0; cbn; eexists; (split; [reflexivity|]);
      cbn; repeat split; reflexivity.
  - replace (Z.land pc 127 =? IEC_61937_DATA_TYPE_AC3) with false
      by (symmetry; apply Z.eqb_neq; exact Hty).
    cbn. eexists; (split; [reflexivity|]); cbn; repeat split; reflexivity.
Qed.

(** A header with the data type of a pause burst. *)
Lemma non_ac3_header_is_dropped_witness :
  ∃ inst',
    fsm_feed iec_61937_fsm_init (Spec.captured [0; 0; 0; 0; 0xF872; 0x4E1F; 0x0003; 32])
    = Some (inst',
            [false; false; false; false; false; true;
             negb (Z.land 0x0003 0x7F =? IEC_61937_DATA_TYPE_EXTENDED); false], []) ∧
    state inst' = (if (Z.land 0x0003 0x7F =? IEC_61937_DATA_TYPE_EXTENDED) && (32 =? 0)
                   then IEC_61937_STATE_SECOND_0 else IEC_61937_STATE_FIRST_0) ∧
    data_type inst' = Z.land 0x0003 0x7F ∧
    payload inst' = payload iec_61937_fsm_init ∧
    payload_len inst' = payload_len iec_61937_fsm_init ∧
    bytes_received inst' = bytes_received iec_61937_fsm_init.
Proof.
  apply (non_ac3_header_is_dropped iec_61937_fsm_init 0x0003 32);
    [reflexivity | lia | lia | discriminate].
Defined.

Lemma lock_needs_preamble_witness :
  ∃ inst flags pkts,
    fsm_feed iec_61937_fsm_init example_stream = Some (inst, flags, pkts) ∧
    preamble_in (map bswap16 example_stream).
Proof.
  pose proof example_stream_view as Hv.
  destruct (fsm_feed iec_61937_fsm_init example_stream) as [[[i f] p]|] eqn:E;
    [|discriminate Hv].
  exists i, f, p. split; [reflexivity|].
  apply (lock_needs_preamble example_stream i f p E).
  right. injection Hv as _ _ _ ->. discriminate.
Defined.

End Iec61937Discard.
(** ** Chunks of bytes *)

Section ChunkFacts.
Import Arbiter.

Lemma pairs_ind {A} (P : list A -> Prop) :
  P [] -> (∀ a b l, P l -> P (a :: b :: l)) ->
  ∀ l, Nat.even (length l) = true -> P l.
Proof.
  intros H0 H2 l. remember (length l) as n eqn:Hn. revert l Hn.
  induction n as [n IH] using lt_wf_ind. intros l Hn He.
  destruct l as [|a [|b l]]; [exact H0 | subst n; discriminate |].
  apply H2. apply (IH (length l)); [subst n; simpl; lia | reflexivity |].
  subst n. exact He.
Qed.

Lemma lor_shiftl_8 b0 b1 : Spec.byte b0 -> Spec.byte b1 ->
  Z.lor b0 (Z.shiftl b1 8) = b0 + b1 * 256.
Proof.
  unfold Spec.byte. intros H0 H1.
  assert (Hd : Z.land b0 (Z.shiftl b1 8) = 0).
  { apply Z.bits_inj'. intros n Hn. rewrite Z.land_spec, Z.bits_0.
    destruct (Z_lt_dec n 8).
    - rewrite Z.shiftl_spec_low by lia. apply andb_false_r.
    - replace (Z.testbit b0 n) with false; [reflexivity|].
      symmetry. destruct (Z.eq_dec b0 0) as [->|]; [apply Z.bits_0|].
      apply Z.bits_above_log2; [lia|].
      apply Z.log2_lt_pow2; [lia|].
      apply Z.lt_le_trans with (2 ^ 8); [lia | apply Z.pow_le_mono_r; lia]. }
  rewrite <- (Z.lxor_lor _ _ Hd), <- (Z.add_nocarry_lxor _ _ Hd), Z.shiftl_mul_pow2 by lia.
  reflexivity.
Qed.

(** The little-endian sample assembled from two bytes is the capture of
    the big-endian word they spell. *)
Lemma sample_of_bytes b0 b1 : Spec.byte b0 -> Spec.byte b1 ->
  to_u16 (Z.lor b0 (Z.shiftl b1 8)) = bswap16 (b0 * 256 + b1).
Proof.
  intros H0 H1. rewrite (lor_shiftl_8 _ _ H0 H1).
  unfold Spec.byte in *. unfold to_u16, bswap16.
  rewrite Z.mod_small by lia.
  rewrite (Z.add_comm (b0 * 256) b1), Z.mod_add, Z.div_add by lia.
  rewrite (Z.mod_small b1), (Z.div_small b1), (Z.mod_small (0 + b0)) by lia. lia.
Qed.

Lemma chunk_samples_be chunk :
  Forall Spec.byte chunk -> chunk_samples chunk = Spec.captured (be_words chunk).
Proof.
  remember (length chunk) as n eqn:Hn. revert chunk Hn.
  induction n as [n IH] using lt_wf_ind. intros chunk Hn Hb.
  destruct chunk as [|b0 [|b1 rest]]; [reflexivity | reflexivity |].
  apply Forall_cons in Hb as [H0 Hb]. apply Forall_cons in Hb as [H1 Hb].
  simpl. rewrite (sample_of_bytes _ _ H0 H1). f_equal.
  apply (IH (length rest)); [subst n; simpl; lia | reflexivity | assumption].
Qed.

(** [process_chunk_iec_61937] is the state machine run over the samples
    of the chunk, the returned flag telling whether any call locked. *)
Lemma process_chunk_samples chunk :
  Nat.even (length chunk) = true -> ∀ f,
  process_chunk_iec_61937 f chunk =
  '(f', flags, pkts) ← Iec61937.fsm_feed f (chunk_samples chunk);
  Some (f', existsb id flags, pkts).
Proof.
  intros He. pattern chunk. apply pairs_ind; [| |exact He]; clear chunk He.
  - reflexivity.
  - intros b0 b1 rest IH f. simpl. destruct (Iec61937.iec_61937_fsm_run f _) as [[[f1 r] cb]|]; [|reflexivity].
    simpl. rewrite IH.
    destruct (Iec61937.fsm_feed f1 (chunk_samples rest)) as [[[f2 rs] cbs]|]; reflexivity.
Qed.

(** X4: a chunk of an even number of bytes is read as big-endian 16-bit
    words: the byte pairing of [process_chunk_iec_61937] and the byte swap
    of [iec_61937_fsm_run] cancel, so the state machine sees the word
    [b0 * 256 + b1] for the bytes [b0], [b1], and the chunk is reported as
    locked exactly when one of its words was. *)
Theorem chunk_is_read_big_endian (f : Iec61937.iec_61937_fsm) (chunk : list Z) :
  Forall Spec.byte chunk -> Nat.even (length chunk) = true ->
  process_chunk_iec_61937 f chunk =
  '(f', flags, pkts) ← Iec61937.fsm_feed f (Spec.captured (be_words chunk));
  Some (f', existsb id flags, pkts).
Proof.
  intros Hb He. rewrite (process_chunk_samples chunk He), (chunk_samples_be chunk Hb).
  reflexivity.
Qed.

Lemma chunk_is_read_big_endian_witness :
  process_chunk_iec_61937 Iec61937.iec_61937_fsm_init [0xF8; 0x72; 0x4E; 0x1F] =
  '(f', flags, pkts) ← Iec61937.fsm_feed Iec61937.iec_61937_fsm_init
                         (Spec.captured (be_words [0xF8; 0x72; 0x4E; 0x1F]));
  Some (f', existsb id flags, pkts).
Proof.
  apply (chunk_is_read_big_endian Iec61937.iec_61937_fsm_init [0xF8; 0x72; 0x4E; 0x1F]).
  - repeat constructor; unfold Spec.byte; lia.
  - reflexivity.
Defined.

Lemma be_words_app a b :
  Nat.even (length a) = true -> be_words (a ++ b) = be_words a ++ be_words b.
Proof.
  intros He. pattern a. apply pairs_ind; [| |exact He]; clear a He.
  - reflexivity.
  - intros x y a IH. simpl. now rewrite IH.
Qed.

Lemma be_words_range chunk :
  Forall Spec.byte chunk -> Forall (λ w, 0 <= w < 65536) (be_words chunk).
Proof.
  remember (length chunk) as n eqn:Hn. revert chunk Hn.
  induction n as [n IH] using lt_wf_ind. intros chunk Hn Hb.
  destruct chunk as [|b0 [|b1 rest]]; [constructor | constructor |].
  apply Forall_cons in Hb as [H0 Hb]. apply Forall_cons in Hb as [H1 Hb].
  simpl. constructor; [exact (word_range _ _ H0 H1)|].
  apply (IH (length rest)); [subst n; simpl; lia | reflexivity | assumption].
Qed.

Lemma be_words_of_bytes words :
  Forall (λ w, 0 <= w < 65536) words -> be_words (bytes_of_words words) = words.
Proof.
  induction 1 as [|w ws Hw _ IH]; [reflexivity|].
  simpl. rewrite IH. f_equal. pose proof (Z.div_mod w 256). lia.
Qed.

Lemma bytes_of_words_bytes words :
  Forall (λ w, 0 <= w < 65536) words -> Forall Spec.byte (bytes_of_words words).
Proof.
  induction 1 as [|w ws Hw _ IH]; [constructor|].
  simpl. unfold Spec.byte. constructor; [|constructor; [|exact IH]].
  - split; [apply Z.div_pos; lia | apply Z.div_lt_upper_bound; lia].
  - apply Z.mod_pos_bound. lia.
Qed.

Lemma bytes_of_words_even words : Nat.even (length (bytes_of_words words)) = true.
Proof. induction words as [|w ws IH]; [reflexivity | exact IH]. Qed.

End ChunkFacts.
(** ** The arbiter on streams without and with bursts *)

Section ArbiterStreams.
Import Arbiter.

(** Words without a preamble: the machine stays below DATA_TYPE, never
    reports lock and never calls back. *)
Lemma fsm_feed_quiet words : ∀ inst seen,
  Forall (λ w, 0 <= w < 65536) words ->
  seen_in_state seen (Iec61937.state inst) ->
  ¬ preamble_in (seen ++ words) ->
  ∃ inst',
    Iec61937.fsm_feed inst (Spec.captured words)
    = Some (inst', replicate (length words) false, []) ∧
    seen_in_state (seen ++ words) (Iec61937.state inst').
Proof.
  induction words as [|w rest IH]; intros inst seen Hr Hseen Hno.
  { exists inst. rewrite app_nil_r. split; [reflexivity | assumption]. }
  apply Forall_cons in Hr as [Hw Hr].
  assert (Hst : Iec61937.state inst ≠ Iec61937.IEC_61937_STATE_PAYLOAD).
  { intros St. rewrite St in Hseen. apply Hno, preamble_in_app, Hseen. }
  destruct (fsm_switch_defined inst w (or_introl Hst)) as [[i1 cb] Sw].
  destruct (fsm_switch_seen _ _ _ _ seen Sw Hseen) as [Seen1 Hcb].
  rewrite (cons_middle w), app_assoc in Hno.
  assert (Hno1 : ¬ preamble_in (seen ++ [w])).
  { intros P. apply Hno, preamble_in_app, P. }
  destruct cb as [p|]; [exfalso; apply Hno1, Hcb; discriminate|].
  destruct (IH i1 (seen ++ [w]) Hr Seen1 Hno) as (i2 & Feed & Seen2).
  exists i2. rewrite (fsm_feed_cons _ _ _ Hw), Sw. cbn [mbind option_bind].
  rewrite Feed. cbn [mbind option_bind].
  rewrite (cons_middle w), app_assoc. split; [|assumption].
  replace (Iec61937.state_value Iec61937.IEC_61937_STATE_SYNC_1
           <? Iec61937.state_value (Iec61937.state i1)) with false; [reflexivity|].
  symmetry. apply not_true_is_false. intros F.
  exact (Hno1 (seen_beyond_sync_1 _ _ Seen1 F)).
Qed.

Lemma existsb_replicate_false n : existsb id (replicate n false) = false.
Proof. induction n as [|n IH]; [reflexivity | exact IH]. Qed.

(** A chunk whose words, after the words seen so far, hold no preamble. *)
Lemma process_chunk_quiet f seen chunk :
  Forall Spec.byte chunk -> Nat.even (length chunk) = true ->
  seen_in_state seen (Iec61937.state f) ->
  ¬ preamble_in (seen ++ be_words chunk) ->
  ∃ f', process_chunk_iec_61937 f chunk = Some (f', false, []) ∧
        seen_in_state (seen ++ be_words chunk) (Iec61937.state f').
Proof.
  intros Hb He Hseen Hno.
  destruct (fsm_feed_quiet (be_words chunk) f seen (be_words_range _ Hb) Hseen Hno)
    as (f' & Feed & Seen').
  exists f'. split; [|assumption].
  rewrite (process_chunk_samples chunk He), (chunk_samples_be chunk Hb), Feed.
  cbn [mbind option_bind]. now rewrite existsb_replicate_false.
Qed.

Ltac arb_norm :=
  cbn [mbind option_bind set_fsm set_non_61937_chunks set_state state
       non_61937_chunks sink_latency_us iec_61937_fsm_inst app].

Lemma run_quiet chunks : ∀ inst seen,
  seen_in_state seen (Iec61937.state (iec_61937_fsm_inst inst)) ->
  arbiter_inv inst ->
  Forall (λ c, Forall Spec.byte c ∧ Nat.even (length c) = true) chunks ->
  ¬ preamble_in (seen ++ be_words (concat chunks)) ->
  ∃ inst',
    iec_60958_run inst chunks
    = Some (inst', quiet_calls (state inst) (non_61937_chunks inst)
                     (sink_latency_us inst) chunks) ∧
    (state inst', non_61937_chunks inst')
    = quiet_state (state inst) (non_61937_chunks inst) (length chunks).
Proof.
  induction chunks as [|c rest IH]; intros inst seen Hseen Hinv Hall Hno.
  { exists inst. unfold arbiter_inv in Hinv. unfold quiet_calls, quiet_state.
    unfold IEC_61937_DETECTION_WINDOW in *. simpl length.
    change (Z.of_nat 0) with 0. rewrite Z.add_0_r.
    destruct (state inst) eqn:St; simpl;
      try (destruct (Z.ltb_spec (non_61937_chunks inst) 64); [|lia]);
      split; reflexivity. }
  apply Forall_cons in Hall as [[Hb He] Hall].
  simpl concat in Hno. rewrite (be_words_app _ _ He), app_assoc in Hno.
  assert (Hno1 : ¬ preamble_in (seen ++ be_words c)).
  { intros P. apply Hno, preamble_in_app, P. }
  destruct (process_chunk_quiet _ seen c Hb He Hseen Hno1) as (f' & Pc & Seen').
  assert (Rc : run_chunk inst c = Some (set_fsm inst f', false, [])).
  { unfold run_chunk. rewrite Pc. reflexivity. }
  unfold arbiter_inv, IEC_61937_DETECTION_WINDOW in Hinv.
  simpl iec_60958_run. unfold iec_60958_process. rewrite Rc.
  destruct inst as [st f count lat]. cbn [state non_61937_chunks sink_latency_us] in *.
  cbn [iec_61937_fsm_inst] in Hseen. clear Rc Pc.
  unfold quiet_calls, quiet_state, IEC_61937_DETECTION_WINDOW.
  cbn [length]. rewrite Nat2Z.inj_succ.
  destruct st; arb_norm.
  - (* UNKNOWN *)
    rewrite to_size_small by lia.
    destruct (64 <=? count + 1) eqn:Full.
    + apply Z.leb_le in Full. assert (count = 63) as -> by lia. arb_norm.
      match goal with |- context [iec_60958_run ?i rest] =>
        destruct (IH i (seen ++ be_words c)) as (i2 & Run & Fin);
          [exact Seen' | reflexivity | exact Hall | exact Hno |] end.
      cbn [state non_61937_chunks sink_latency_us] in Run, Fin.
      rewrite Run. cbn [mbind option_bind]. exists i2.
      replace (63 + Z.succ (Z.of_nat (length rest)) <? 64) with false
        by (symmetry; apply Z.ltb_ge; lia).
      split; [reflexivity | exact Fin].
    + apply Z.leb_gt in Full. arb_norm.
      match goal with |- context [iec_60958_run ?i rest] =>
        destruct (IH i (seen ++ be_words c)) as (i2 & Run & Fin);
          [exact Seen'
          |unfold arbiter_inv, IEC_61937_DETECTION_WINDOW; simpl; lia
          |exact Hall | exact Hno |] end.
      cbn [state non_61937_chunks sink_latency_us] in Run, Fin.
      rewrite Run. cbn [mbind option_bind]. exists i2.
      unfold quiet_calls, quiet_state, IEC_61937_DETECTION_WINDOW in Fin |- *.
      replace (count + Z.succ (Z.of_nat (length rest)))
        with (count + 1 + Z.of_nat (length rest)) by lia.
      replace (Z.to_nat (64 - count)) with (S (Z.to_nat (64 - (count + 1)))) by lia.
      split; [reflexivity | exact Fin].
  - (* PCM *)
    match goal with |- context [iec_60958_run ?i rest] =>
      destruct (IH i (seen ++ be_words c)) as (i2 & Run & Fin);
        [exact Seen' | exact Hinv | exact Hall | exact Hno |] end.
    cbn [state non_61937_chunks sink_latency_us] in Run, Fin.
    rewrite Run. cbn [mbind option_bind]. exists i2.
    split; [reflexivity | exact Fin].
  - (* 61937 *)
    rewrite to_size_small by lia.
    destruct (64 <=? count + 1) eqn:Full.
    + apply Z.leb_le in Full. assert (count = 63) as -> by lia. arb_norm.
      match goal with |- context [iec_60958_run ?i rest] =>
        destruct (IH i (seen ++ be_words c)) as (i2 & Run & Fin);
          [exact Seen' | reflexivity | exact Hall | exact Hno |] end.
      cbn [state non_61937_chunks sink_latency_us] in Run, Fin.
      rewrite Run. cbn [mbind option_bind]. exists i2.
      replace (63 + Z.succ (Z.of_nat (length rest)) <? 64) with false
        by (symmetry; apply Z.ltb_ge; lia).
      split; [reflexivity | exact Fin].
    + apply Z.leb_gt in Full. arb_norm.
      match goal with |- context [iec_60958_run ?i rest] =>
        destruct (IH i (seen ++ be_words c)) as (i2 & Run & Fin);
          [exact Seen'
          |unfold arbiter_inv, IEC_61937_DETECTION_WINDOW; simpl; lia
          |exact Hall | exact Hno |] end.
      cbn [state non_61937_chunks sink_latency_us] in Run, Fin.
      rewrite Run. cbn [mbind option_bind]. exists i2.
      unfold quiet_calls, quiet_state, IEC_61937_DETECTION_WINDOW in Fin |- *.
      replace (count + Z.succ (Z.of_nat (length rest)))
        with (count + 1 + Z.of_nat (length rest)) by lia.
      replace (Z.to_nat (64 - count)) with (S (Z.to_nat (64 - (count + 1)))) by lia.
      split; [reflexivity | exact Fin].
Qed.

(** X5: chunks whose bytes, read as big-endian words from a state machine
    in FIRST_0, hold no burst preamble are never mistaken for IEC 61937:
    the arbiter makes no sink call until the detection window of 64 chunks
    is full, then closes the AC-3 sink if it was open and opens the PCM
    sink, and from then on forwards every chunk, unchanged and in order,
    to the PCM sink. *)
Theorem chunks_without_preamble_go_to_pcm (inst : iec_60958) (chunks : list (list Z)) :
  Iec61937.state (iec_61937_fsm_inst inst) = Iec61937.IEC_61937_STATE_FIRST_0 ->
  arbiter_inv inst ->
  Forall (λ c, Forall Spec.byte c ∧ Nat.even (length c) = true) chunks ->
  ¬ preamble_in (be_words (concat chunks)) ->
  ∃ inst',
    iec_60958_run inst chunks
    = Some (inst', quiet_calls (state inst) (non_61937_chunks inst)
                     (sink_latency_us inst) chunks) ∧
    (state inst', non_61937_chunks inst')
    = quiet_state (state inst) (non_61937_chunks inst) (length chunks).
Proof.
  intros St Hinv Hall Hno. apply (run_quiet chunks inst []); try assumption.
  now rewrite St.
Qed.

End ArbiterStreams.
Section ArbiterBursts.
Import Arbiter.

Lemma no_sync_word_no_preamble words :
  forallb (λ w, negb (w =? 0xF872)) words = true -> ¬ preamble_in words.
Proof.
  intros H (pre & k & post & ->).
  rewrite !forallb_app in H.
  apply andb_true_iff in H as [_ H]. apply andb_true_iff in H as [_ H].
  apply andb_true_iff in H as [_ H]. apply andb_true_iff in H as [H _].
  discriminate H.
Qed.

Lemma pack_words_range pad bytes :
  Spec.byte pad -> Forall Spec.byte bytes ->
  Forall (λ w, 0 <= w < 65536) (Spec.pack_words pad bytes).
Proof.
  intros Hpad. remember (length bytes) as n eqn:Hn. revert bytes Hn.
  induction n as [n IH] using lt_wf_ind. intros bytes Hn Hb.
  destruct bytes as [|hi [|lo rest]]; [constructor | |].
  - apply Forall_cons in Hb as [Hhi _]. simpl.
    constructor; [exact (word_range _ _ Hhi Hpad) | constructor].
  - apply Forall_cons in Hb as [Hhi Hb]. apply Forall_cons in Hb as [Hlo Hb].
    simpl. constructor; [exact (word_range _ _ Hhi Hlo)|].
    apply (IH (length rest)); [subst n; simpl; lia | reflexivity | assumption].
Qed.

Lemma burst_words_range pad b :
  Spec.byte pad -> Spec.valid_burst b ->
  Forall (λ w, 0 <= w < 65536) (Spec.burst_words pad b).
Proof.
  intros Hpad (Hpc & _ & Hlen & Hb). unfold Spec.burst_words.
  apply Forall_app. split; [|exact (pack_words_range _ _ Hpad Hb)].
  repeat constructor; lia.
Qed.

Lemma bursts_words_range pad bursts :
  Spec.byte pad -> Forall Spec.valid_burst bursts ->
  Forall (λ w, 0 <= w < 65536) (concat (map (Spec.burst_words pad) bursts)).
Proof.
  intros Hpad. induction 1 as [|b bs Hb _ IH]; [constructor|].
  change (concat (map (Spec.burst_words pad) (b :: bs)))
    with (Spec.burst_words pad b ++ concat (map (Spec.burst_words pad) bs)).
  apply Forall_app. split; [exact (burst_words_range _ _ Hpad Hb) | exact IH].
Qed.

(** One burst: as [burst_phase], and the machine reports lock on the way. *)
Lemma burst_phase_locked pad inst b :
  Spec.byte pad -> fsm_wf inst ->
  Iec61937.state inst = Iec61937.IEC_61937_STATE_FIRST_0 ->
  Spec.valid_burst b ->
  ∃ inst' flags,
    Iec61937.fsm_feed inst (Spec.captured (Spec.burst_words pad b))
    = Some (inst', flags, [Spec.burst_packet b]) ∧
    existsb id flags = true ∧
    Iec61937.state inst' = Iec61937.IEC_61937_STATE_FIRST_0 ∧ fsm_wf inst'.
Proof.
  intros Hpad Hwf Hst (Hpc & Hdt & Hlen & Hbytes).
  unfold Spec.burst_words, Spec.captured. rewrite map_app.
  rewrite fsm_feed_app.
  fold (Spec.captured [0; 0; 0; 0; 0xF872; 0x4E1F; Spec.burst_pc b;
                       8 * Z.of_nat (length (Spec.burst_payload b))]).
  rewrite (header_phase inst _ _ Hst Hpc Hdt) by lia. cbn [mbind option_bind].
  match goal with |- context [Iec61937.fsm_feed ?i _] => set (inst1 := i) end.
  destruct (payload_phase pad Hpad (length (Spec.burst_payload b))
              (Spec.burst_payload b) inst1 [])
    as (i2 & fl & E & S2 & W2); try reflexivity; try assumption.
  - destruct (Spec.burst_payload b); [simpl in Hlen; lia | discriminate].
  - simpl. unfold Iec61937.IEC_61937_MAX_BURST_PAYLOAD. lia.
  - fold (Spec.captured (Spec.pack_words pad (Spec.burst_payload b))).
    rewrite E. simpl. do 2 eexists. split; [reflexivity|].
    split; [reflexivity|]. split; assumption.
Qed.

Lemma bursts_phase_locked pad bursts : ∀ inst,
  Spec.byte pad -> fsm_wf inst ->
  Iec61937.state inst = Iec61937.IEC_61937_STATE_FIRST_0 ->
  Forall Spec.valid_burst bursts -> bursts ≠ [] ->
  ∃ inst' flags,
    Iec61937.fsm_feed inst (Spec.captured (concat (map (Spec.burst_words pad) bursts)))
    = Some (inst', flags, map Spec.burst_packet bursts) ∧
    existsb id flags = true ∧
    Iec61937.state inst' = Iec61937.IEC_61937_STATE_FIRST_0 ∧ fsm_wf inst'.
Proof.
  induction bursts as [|b bursts IH]; intros inst Hpad Hwf Hst Hall Hne; [congruence|].
  apply Forall_cons in Hall as [Hb Hall].
  destruct (burst_phase_locked pad inst b Hpad Hwf Hst Hb) as (i1 & f1 & E1 & L1 & S1 & W1).
  change (concat (map (Spec.burst_words pad) (b :: bursts)))
    with (Spec.burst_words pad b ++ concat (map (Spec.burst_words pad) bursts)).
  unfold Spec.captured in *. rewrite map_app, fsm_feed_app.
  rewrite E1. cbn [mbind option_bind].
  destruct bursts as [|b' bursts'].
  - simpl. exists i1, (f1 ++ []). rewrite app_nil_r. auto.
  - destruct (IH i1 Hpad W1 S1 Hall) as (i2 & f2 & E2 & L2 & S2 & W2); [discriminate|].
    rewrite E2. cbn [mbind option_bind]. exists i2, (f1 ++ f2).
    split; [reflexivity|]. rewrite existsb_app, L1. auto.
Qed.

Lemma handler_on_bursts inst bursts :
  concat (map (iec_61937_packet_handler inst) (map Spec.burst_packet bursts))
  = match state inst with
    | IEC_60958_STATE_61937 => map burst_call bursts
    | _ => []
    end.
Proof.
  induction bursts as [|b bs IH]; simpl.
  - now destruct (state inst).
  - rewrite IH. unfold iec_61937_packet_handler. now destruct (state inst).
Qed.

(** X6: a chunk that carries one or more valid AC-3 bursts, given to an
    arbiter whose state machine is in FIRST_0, always leaves the arbiter
    in state 61937 with the counter at zero. In state 61937 every burst is
    handed to the AC-3 sink, payload and length, in stream order; from
    UNKNOWN the AC-3 sink is opened and from PCM the PCM sink is closed
    first, and the bursts of this chunk are not decoded. *)
Theorem burst_chunk_reaches_ac3_sink (pad : Z) (inst : iec_60958) (bursts : list Spec.burst) :
  Spec.byte pad -> fsm_wf (iec_61937_fsm_inst inst) ->
  Iec61937.state (iec_61937_fsm_inst inst) = Iec61937.IEC_61937_STATE_FIRST_0 ->
  Forall Spec.valid_burst bursts -> bursts ≠ [] ->
  ∃ inst',
    iec_60958_process inst (bytes_of_words (concat (map (Spec.burst_words pad) bursts)))
    = Some (inst',
            match state inst with
            | IEC_60958_STATE_61937 => map burst_call bursts
            | IEC_60958_STATE_UNKNOWN => [ac3_sink_open (sink_latency_us inst)]
            | IEC_60958_STATE_PCM => [pcm_sink_close; ac3_sink_open (sink_latency_us inst)]
            end) ∧
    state inst' = IEC_60958_STATE_61937 ∧ non_61937_chunks inst' = 0 ∧
    Iec61937.state (iec_61937_fsm_inst inst') = Iec61937.IEC_61937_STATE_FIRST_0 ∧
    fsm_wf (iec_61937_fsm_inst inst').
Proof.
  intros Hpad Hwf Hst Hall Hne.
  pose proof (bursts_words_range pad bursts Hpad Hall) as Hr.
  destruct (bursts_phase_locked pad bursts _ Hpad Hwf Hst Hall Hne)
    as (f' & flags & Feed & Lock & St' & Wf').
  set (chunk := bytes_of_words (concat (map (Spec.burst_words pad) bursts))).
  assert (Pc : process_chunk_iec_61937 (iec_61937_fsm_inst inst) chunk
               = Some (f', true, map Spec.burst_packet bursts)).
  { rewrite (process_chunk_samples chunk (bytes_of_words_even _)).
    rewrite (chunk_samples_be chunk (bytes_of_words_bytes _ Hr)).
    unfold chunk. rewrite (be_words_of_bytes _ Hr), Feed.
    cbn [mbind option_bind]. now rewrite Lock. }
  unfold iec_60958_process, run_chunk. rewrite Pc. cbn [mbind option_bind].
  rewrite handler_on_bursts.
  destruct inst as [st f count lat]. cbn [state sink_latency_us].
  destruct st; cbn; eexists; (split; [reflexivity|]); cbn; auto.
Qed.

End ArbiterBursts.
Section ArbiterStreamExamples.
Import Arbiter.

Lemma example_burst_valid : Spec.valid_burst example_burst.
Proof.
  unfold Spec.valid_burst, example_burst; simpl.
  repeat split; try lia. repeat constructor; unfold Spec.byte; lia.
Qed.

Lemma burst_chunk_reaches_ac3_sink_witness :
  ∃ inst',
    iec_60958_process locked_arbiter
      (bytes_of_words (concat (map (Spec.burst_words 0) [example_burst])))
    = Some (inst',
            match state locked_arbiter with
            | IEC_60958_STATE_61937 => map burst_call [example_burst]
            | IEC_60958_STATE_UNKNOWN => [ac3_sink_open (sink_latency_us locked_arbiter)]
            | IEC_60958_STATE_PCM =>
                [pcm_sink_close; ac3_sink_open (sink_latency_us locked_arbiter)]
            end) ∧
    state inst' = IEC_60958_STATE_61937 ∧ non_61937_chunks inst' = 0 ∧
    Iec61937.state (iec_61937_fsm_inst inst') = Iec61937.IEC_61937_STATE_FIRST_0 ∧
    fsm_wf (iec_61937_fsm_inst inst').
Proof.
  apply (burst_chunk_reaches_ac3_sink 0 locked_arbiter [example_burst]).
  - unfold Spec.byte; lia.
  - exact fsm_init_wf.
  - reflexivity.
  - constructor; [exact example_burst_valid | constructor].
  - discriminate.
Defined.

Lemma long_silence_bytes :
  Forall (λ c, Forall Spec.byte c ∧ Nat.even (length c) = true) long_silence.
Proof.
  apply Forall_replicate. split; [|reflexivity].
  apply Forall_replicate. unfold Spec.byte. lia.
Qed.

Lemma long_silence_no_preamble : ¬ preamble_in (be_words (concat long_silence)).
Proof. apply no_sync_word_no_preamble. vm_compute. reflexivity. Qed.

Lemma chunks_without_preamble_go_to_pcm_witness :
  ∃ inst',
    iec_60958_run (iec_60958_init 0) long_silence
    = Some (inst', quiet_calls (state (iec_60958_init 0))
                     (non_61937_chunks (iec_60958_init 0))
                     (sink_latency_us (iec_60958_init 0)) long_silence) ∧
    (state inst', non_61937_chunks inst')
    = quiet_state (state (iec_60958_init 0)) (non_61937_chunks (iec_60958_init 0))
        (length long_silence).
Proof.
  apply (chunks_without_preamble_go_to_pcm (iec_60958_init 0) long_silence).
  - reflexivity.
  - exact (init_inv 0).
  - exact long_silence_bytes.
  - exact long_silence_no_preamble.
Defined.

End ArbiterStreamExamples.
(** ** Bursts with zero stuffing, cut into chunks *)

Section StuffedBursts.
Import Iec61937.

Lemma after_zeros_sync_0 n : after_zeros IEC_61937_STATE_SYNC_0 n = IEC_61937_STATE_SYNC_0.
Proof. induction n as [|n IH]; [reflexivity|]. unfold after_zeros in *. simpl. now rewrite IH. Qed.

Lemma after_zeros_S st n : after_zeros st (S n) = after_zeros (zero_step st) n.
Proof. unfold after_zeros. apply Nat.iter_succ_r. Qed.

Lemma after_zeros_four n :
  after_zeros IEC_61937_STATE_FIRST_0 (n + 4) = IEC_61937_STATE_SYNC_0.
Proof.
  replace (n + 4)%nat with (S (S (S (S n)))) by lia.
  rewrite !after_zeros_S. apply after_zeros_sync_0.
Qed.

(** Zero words while the machine looks for the sync words. *)
Lemma zeros_phase n : ∀ inst,
  hunting (state inst) ->
  fsm_feed inst (Spec.captured (replicate n 0))
  = Some (set_state inst (after_zeros (state inst) n), replicate n false, []).
Proof.
  induction n as [|n IH]; intros inst Hh.
  { destruct inst. reflexivity. }
  cbn [replicate]. rewrite fsm_feed_cons by lia. rewrite after_zeros_S.
  destruct inst as [st dt pl br py]. cbn [state] in *.
  destruct st; unfold hunting in Hh; simpl in Hh; try lia;
    unfold fsm_switch; cbn [state Z.eqb set_state mbind option_bind];
    (rewrite IH by (unfold hunting; simpl; lia)); reflexivity.
Qed.

(** The header of an AC-3 burst after any number of stuffing words. *)
Lemma stuffed_header_phase inst (k : nat) pc len :
  state inst = IEC_61937_STATE_FIRST_0 ->
  0 <= pc < 65536 -> Z.land pc 0x7F = 0x01 -> 0 <= len <= 8191 ->
  ∃ flags,
    fsm_feed inst (Spec.captured (replicate k 0
                                  ++ [0; 0; 0; 0; 0xF872; 0x4E1F; pc; 8 * len]))
    = Some ({| state := IEC_61937_STATE_PAYLOAD; data_type := 1; payload_len := len;
               bytes_received := 0; payload := payload inst |}, flags, []).
Proof.
  intros Hst Hpc Hdt Hlen.
  replace (replicate k 0 ++ [0; 0; 0; 0; 0xF872; 0x4E1F; pc; 8 * len])
    with (replicate (k + 4) 0 ++ [0xF872; 0x4E1F; pc; 8 * len]).
  2:{ rewrite replicate_add, <- app_assoc. reflexivity. }
  unfold Spec.captured. rewrite map_app, fsm_feed_app.
  fold (Spec.captured (replicate (k + 4) 0)).
  rewrite zeros_phase by (rewrite Hst; unfold hunting; simpl; lia).
  rewrite Hst, after_zeros_four. cbn [mbind option_bind].
  destruct inst as [st dt pl br py]. cbn [set_state payload].
  unfold map, fsm_feed.
  rewrite fsm_run_captured by lia. unfold fsm_switch at 1; simpl.
  rewrite fsm_run_captured by lia.
  unfold fsm_switch at 1; cbn [state set_state set_data_type data_type].
  rewrite to_u8_data_type. change IEC_61937_DATA_TYPE_MASK with 0x7F. rewrite Hdt.
  simpl.
  rewrite bswap16_involutive by lia.
  rewrite (Z.mul_comm 8 len), Z.div_mul by lia. eexists. reflexivity.
Qed.

Lemma stuffed_burst_phase pad inst s :
  Spec.byte pad -> fsm_wf inst -> state inst = IEC_61937_STATE_FIRST_0 ->
  Spec.valid_burst s.2 ->
  ∃ inst' flags,
    fsm_feed inst (Spec.captured (stuffed_words pad s))
    = Some (inst', flags, [Spec.burst_packet s.2]) ∧
    state inst' = IEC_61937_STATE_FIRST_0 ∧ fsm_wf inst'.
Proof.
  destruct s as [k b]. cbn [fst snd].
  intros Hpad Hwf Hst (Hpc & Hdt & Hlen & Hbytes).
  unfold stuffed_words, Spec.burst_words. cbn [fst snd]. rewrite app_assoc.
  unfold Spec.captured. rewrite map_app, fsm_feed_app.
  match goal with |- context [fsm_feed inst (map bswap16 ?l)] =>
    fold (Spec.captured l) end.
  destruct (stuffed_header_phase inst k (Spec.burst_pc b)
              (Z.of_nat (length (Spec.burst_payload b))) Hst Hpc Hdt ltac:(lia)) as (fl0 & ->).
  cbn [mbind option_bind].
  match goal with |- context [fsm_feed ?i (map _ _)] => set (inst1 := i) end.
  destruct (payload_phase pad Hpad (length (Spec.burst_payload b))
              (Spec.burst_payload b) inst1 [])
    as (i2 & fl & E & S2 & W2); try reflexivity; try assumption.
  - destruct (Spec.burst_payload b); [simpl in Hlen; lia | discriminate].
  - simpl. unfold IEC_61937_MAX_BURST_PAYLOAD. lia.
  - fold (Spec.captured (Spec.pack_words pad (Spec.burst_payload b))).
    rewrite E. simpl. do 2 eexists. split; [reflexivity|]. split; assumption.
Qed.

Lemma stuffed_stream_phase pad stuffed : ∀ inst,
  Spec.byte pad -> fsm_wf inst -> state inst = IEC_61937_STATE_FIRST_0 ->
  Forall (λ s, Spec.valid_burst s.2) stuffed ->
  ∃ inst' flags,
    fsm_feed inst (Spec.captured (concat (map (stuffed_words pad) stuffed)))
    = Some (inst', flags, map (λ s, Spec.burst_packet s.2) stuffed) ∧
    state inst' = IEC_61937_STATE_FIRST_0 ∧ fsm_wf inst'.
Proof.
  induction stuffed as [|s rest IH]; intros inst Hpad Hwf Hst Hall.
  { exists inst, []. auto. }
  apply Forall_cons in Hall as [Hs Hall].
  destruct (stuffed_burst_phase pad inst s Hpad Hwf Hst Hs) as (i1 & f1 & E1 & S1 & W1).
  destruct (IH i1 Hpad W1 S1 Hall) as (i2 & f2 & E2 & S2 & W2).
  change (concat (map (stuffed_words pad) (s :: rest)))
    with (stuffed_words pad s ++ concat (map (stuffed_words pad) rest)).
  unfold Spec.captured in *. rewrite map_app, fsm_feed_app.
  rewrite E1. cbn [mbind option_bind]. rewrite E2. cbn [mbind option_bind].
  exists i2, (f1 ++ f2). auto.
Qed.

Lemma stuffed_words_range pad s :
  Spec.byte pad -> Spec.valid_burst s.2 ->
  Forall (λ w, 0 <= w < 65536) (stuffed_words pad s).
Proof.
  intros Hpad Hs. unfold stuffed_words. apply Forall_app. split.
  - apply Forall_replicate. lia.
  - exact (burst_words_range _ _ Hpad Hs).
Qed.

Lemma stuffed_stream_range pad stuffed :
  Spec.byte pad -> Forall (λ s, Spec.valid_burst s.2) stuffed ->
  Forall (λ w, 0 <= w < 65536) (concat (map (stuffed_words pad) stuffed)).
Proof.
  intros Hpad. induction 1 as [|s rest Hs _ IH]; [constructor|].
  change (concat (map (stuffed_words pad) (s :: rest)))
    with (stuffed_words pad s ++ concat (map (stuffed_words pad) rest)).
  apply Forall_app. split; [exact (stuffed_words_range _ _ Hpad Hs) | exact IH].
Qed.

Lemma chunk_samples_app a b :
  Nat.even (length a) = true -> chunk_samples (a ++ b) = chunk_samples a ++ chunk_samples b.
Proof.
  intros He. pattern a. apply pairs_ind; [| |exact He]; clear a He.
  - reflexivity.
  - intros x y a IH. simpl. now rewrite IH.
Qed.

Lemma even_app {A} (a b : list A) :
  Nat.even (length a) = true -> Nat.even (length b) = true ->
  Nat.even (length (a ++ b)) = true.
Proof. intros Ha Hb. rewrite length_app, Nat.even_add, Ha, Hb. reflexivity. Qed.

Lemma even_concat {A} (chunks : list (list A)) :
  Forall (λ c, Nat.even (length c) = true) chunks ->
  Nat.even (length (concat chunks)) = true.
Proof.
  induction 1 as [|c rest Hc _ IH]; [reflexivity|]. simpl. now apply even_app.
Qed.

(** Cutting a stream of bytes into chunks changes neither the machine
    nor the callbacks. *)
Lemma process_chunks_concat chunks : ∀ f,
  Forall (λ c, Nat.even (length c) = true) chunks ->
  (λ r, (r.1.1, existsb id r.1.2, r.2)) <$> process_chunks f chunks
  = Arbiter.process_chunk_iec_61937 f (concat chunks).
Proof.
  induction chunks as [|c rest IH]; intros f Hall; [reflexivity|].
  apply Forall_cons in Hall as [Hc Hall].
  pose proof (even_concat rest Hall) as Hrest.
  cbn [process_chunks concat].
  rewrite (process_chunk_samples (c ++ concat rest) (even_app _ _ Hc Hrest)).
  rewrite (chunk_samples_app _ _ Hc), fsm_feed_app.
  rewrite (process_chunk_samples c Hc).
  destruct (fsm_feed f (chunk_samples c)) as [[[f1 fl1] p1]|]; [|reflexivity].
  cbn [mbind option_bind].
  specialize (IH f1 Hall). rewrite (process_chunk_samples _ Hrest) in IH.
  destruct (process_chunks f1 rest) as [[[f2 ls] p2]|];
    destruct (fsm_feed f1 (chunk_samples (concat rest))) as [[[f2' fl2] p2']|];
    try discriminate IH; [|reflexivity].
  cbn in IH. injection IH as -> E ->. cbn. rewrite existsb_app, E. reflexivity.
Qed.

(** The arbiter runs the state machine over the chunks whatever state it
    is in. *)
Lemma run_drives_fsm chunks : ∀ inst f' flags pkts,
  process_chunks (Arbiter.iec_61937_fsm_inst inst) chunks = Some (f', flags, pkts) ->
  ∃ inst' calls,
    Arbiter.iec_60958_run inst chunks = Some (inst', calls) ∧
    Arbiter.iec_61937_fsm_inst inst' = f'.
Proof.
  induction chunks as [|c rest IH]; intros inst f' flags pkts E.
  { injection E as <- _ _. exists inst, []. auto. }
  cbn [process_chunks] in E.
  destruct (Arbiter.process_chunk_iec_61937 _ c) as [[[f1 l1] p1]|] eqn:Pc; [|discriminate].
  cbn [mbind option_bind] in E.
  destruct (process_chunks f1 rest) as [[[f2 ls] p2]|] eqn:Pr; [|discriminate].
  injection E as <- _ _.
  assert (Hstep : ∃ inst1 calls1,
            Arbiter.iec_60958_process inst c = Some (inst1, calls1) ∧
            Arbiter.iec_61937_fsm_inst inst1 = f1).
  { unfold Arbiter.iec_60958_process, Arbiter.run_chunk. rewrite Pc.
    cbn [mbind option_bind].
    destruct (Arbiter.state inst); destruct l1; cbv zeta;
      repeat match goal with |- context [if ?b then _ else _] => destruct b end;
      do 2 eexists; split; reflexivity. }
  destruct Hstep as (inst1 & calls1 & E1 & F1).
  rewrite <- F1 in Pr.
  destruct (IH inst1 _ _ _ Pr) as (inst2 & calls2 & E2 & F2).
  exists inst2, (calls1 ++ calls2). cbn [Arbiter.iec_60958_run].
  rewrite E1. cbn [mbind option_bind]. rewrite E2. auto.
Qed.

(** The chunks of a stuffed stream of bursts, through the state machine. *)
Lemma stuffed_chunks_phase (pad : Z) (f : iec_61937_fsm)
    (stuffed : list (nat * Spec.burst)) (tail : nat) (chunks : list (list Z)) :
  Spec.byte pad -> fsm_wf f -> state f = IEC_61937_STATE_FIRST_0 ->
  Forall (λ s, Spec.valid_burst s.2) stuffed ->
  Forall (λ c, Nat.even (length c) = true) chunks ->
  concat chunks
  = bytes_of_words (concat (map (stuffed_words pad) stuffed) ++ replicate tail 0) ->
  ∃ f' flags,
    process_chunks f chunks = Some (f', flags, map (λ s, Spec.burst_packet s.2) stuffed) ∧
    state f' = after_zeros IEC_61937_STATE_FIRST_0 tail.
Proof.
  intros Hpad Hwf Hst Hall Heven Hbytes.
  pose proof (stuffed_stream_range pad stuffed Hpad Hall) as Hr.
  assert (Hr' : Forall (λ w, 0 <= w < 65536)
                  (concat (map (stuffed_words pad) stuffed) ++ replicate tail 0)).
  { apply Forall_app. split; [exact Hr | apply Forall_replicate; lia]. }
  destruct (stuffed_stream_phase pad stuffed f Hpad Hwf Hst Hall)
    as (f1 & fl1 & E1 & S1 & W1).
  pose proof (process_chunks_concat chunks f Heven) as Hcut.
  rewrite Hbytes in Hcut.
  rewrite (process_chunk_samples _ (bytes_of_words_even _)) in Hcut.
  rewrite (chunk_samples_be _ (bytes_of_words_bytes _ Hr')) in Hcut.
  rewrite (be_words_of_bytes _ Hr') in Hcut.
  unfold Spec.captured in Hcut, E1. rewrite map_app, fsm_feed_app, E1 in Hcut.
  cbn [mbind option_bind] in Hcut.
  fold (Spec.captured (replicate tail 0)) in Hcut.
  rewrite zeros_phase in Hcut by (rewrite S1; unfold hunting; simpl; lia).
  cbn [mbind option_bind] in Hcut.
  destruct (process_chunks f chunks) as [[[f' flags] pkts]|] eqn:Pc; [|discriminate Hcut].
  cbn in Hcut. injection Hcut as -> _ ->.
  rewrite app_nil_r, S1.
  exists (set_state f1 (after_zeros IEC_61937_STATE_FIRST_0 tail)), flags.
  split; reflexivity.
Qed.

(** X14: bursts survive stuffing and chunking. A byte stream that
    carries valid AC-3 bursts, each preceded by any number of zero words
    besides the four of its preamble and the last followed by any number
    of zero words, cut into chunks of even length at any places (bursts
    may straddle chunks), makes the callback run exactly once per burst,
    in order, with the burst's payload; the machine ends looking for the
    next preamble; and the arbiter, in whatever state, is defined on these
    chunks and drives the machine to that same state. *)
Theorem stuffed_bursts_survive_chunking (pad : Z) (f : iec_61937_fsm)
    (stuffed : list (nat * Spec.burst)) (tail : nat) (chunks : list (list Z)) :
  Spec.byte pad -> fsm_wf f -> state f = IEC_61937_STATE_FIRST_0 ->
  Forall (λ s, Spec.valid_burst s.2) stuffed ->
  Forall (λ c, Nat.even (length c) = true) chunks ->
  concat chunks
  = bytes_of_words (concat (map (stuffed_words pad) stuffed) ++ replicate tail 0) ->
  ∃ f' flags,
    process_chunks f chunks = Some (f', flags, map (λ s, Spec.burst_packet s.2) stuffed) ∧
    state f' = after_zeros IEC_61937_STATE_FIRST_0 tail ∧
    ∀ inst, Arbiter.iec_61937_fsm_inst inst = f ->
      ∃ inst' calls,
        Arbiter.iec_60958_run inst chunks = Some (inst', calls) ∧
        Arbiter.iec_61937_fsm_inst inst' = f'.
Proof.
  intros Hpad Hwf Hst Hall Heven Hbytes.
  destruct (stuffed_chunks_phase pad f stuffed tail chunks Hpad Hwf Hst Hall Heven Hbytes)
    as (f' & flags & Pcs & St').
  exists f', flags. split; [exact Pcs|]. split; [exact St'|].
  intros inst <-. exact (run_drives_fsm chunks inst _ _ _ Pcs).
Qed.

Lemma stuffed_example_valid : Forall (λ s, Spec.valid_burst s.2) stuffed_example.
Proof.
  unfold stuffed_example.
  repeat (constructor;
          [unfold Spec.valid_burst; simpl;
           repeat split; try lia; repeat constructor; unfold Spec.byte; lia|]).
  constructor.
Qed.

Lemma stuffed_bursts_survive_chunking_witness :
  ∃ f' flags,
    process_chunks iec_61937_fsm_init stuffed_chunks
    = Some (f', flags, map (λ s, Spec.burst_packet s.2) stuffed_example) ∧
    state f' = after_zeros IEC_61937_STATE_FIRST_0 3 ∧
    ∀ inst, Arbiter.iec_61937_fsm_inst inst = iec_61937_fsm_init ->
      ∃ inst' calls,
        Arbiter.iec_60958_run inst stuffed_chunks = Some (inst', calls) ∧
        Arbiter.iec_61937_fsm_inst inst' = f'.
Proof.
  apply (stuffed_bursts_survive_chunking 0 iec_61937_fsm_init stuffed_example 3
           stuffed_chunks).
  - unfold Spec.byte. lia.
  - exact fsm_init_wf.
  - reflexivity.
  - exact stuffed_example_valid.
  - repeat constructor.
  - vm_compute. reflexivity.
Defined.

End StuffedBursts.
(** ** What reaches the AC-3 sink *)

Section WholePayloads.
Import Iec61937.

(** A length word below 8 bits in an AC-3 header. *)
Lemma fsm_switch_short inst s :
  0 <= s < 8 -> fsm_wf inst -> state inst = IEC_61937_STATE_LENGTH ->
  data_type inst = IEC_61937_DATA_TYPE_AC3 ->
  ∃ inst', fsm_switch inst s = Some (inst', None) ∧ fsm_stuck inst'.
Proof.
  intros Hs Hwf St Dt. unfold fsm_switch. rewrite St, Dt. cbn [Z.eqb Pos.eqb].
  change (IEC_61937_DATA_TYPE_AC3 =? IEC_61937_DATA_TYPE_AC3) with true. cbv iota.
  eexists. split; [reflexivity|].
  unfold fsm_stuck. cbn. repeat split; try assumption; try lia.
  apply Z.div_small. lia.
Qed.

(** Once stuck, stuck for as long as the array lasts. *)
Lemma fsm_switch_stuck inst s inst' cb :
  fsm_stuck inst -> fsm_switch inst s = Some (inst', cb) ->
  fsm_stuck inst' ∧ cb = None.
Proof.
  intros (Hwf & St & Pl & Br) E. unfold fsm_switch in E. rewrite St, Pl in E.
  assert (Hpush : ∀ i v i', state i = IEC_61937_STATE_PAYLOAD -> payload_len i = 0 ->
                    0 <= bytes_received i -> fsm_wf i ->
                    payload_push i v = Some i' ->
                    fsm_wf i' ∧ state i' = IEC_61937_STATE_PAYLOAD ∧ payload_len i' = 0 ∧
                    bytes_received i' = bytes_received i + 1).
  { intros i v i' S0 P0 B0 W0 Ep.
    destruct (payload_push_inv _ _ _ Ep) as (S1 & _ & P1 & B1 & _ & Py).
    unfold fsm_wf in *. rewrite Py, length_insert.
    repeat split; try congruence. }
  destruct (2 <=? to_size (0 - bytes_received inst)).
  - destruct (payload_push inst (Z.shiftr s 8)) as [i1|] eqn:E1; [|discriminate].
    cbn [mbind option_bind] in E.
    destruct (payload_push i1 s) as [i2|] eqn:E2; [|discriminate].
    cbn [mbind option_bind] in E.
    destruct (Hpush _ _ _ St Pl Br Hwf E1) as (W1 & S1 & P1 & B1).
    destruct (Hpush _ _ _ S1 P1 ltac:(lia) W1 E2) as (W2 & S2 & P2 & B2).
    replace (payload_len i2 =? bytes_received i2) with false in E
      by (symmetry; apply Z.eqb_neq; lia).
    injection E as <- <-. unfold fsm_stuck. repeat split; try assumption. lia.
  - destruct (payload_push inst (Z.shiftr s 8)) as [i1|] eqn:E1; [|discriminate].
    cbn [mbind option_bind] in E.
    destruct (Hpush _ _ _ St Pl Br Hwf E1) as (W1 & S1 & P1 & B1).
    replace (payload_len i1 =? bytes_received i1) with false in E
      by (symmetry; apply Z.eqb_neq; lia).
    injection E as <- <-. unfold fsm_stuck. repeat split; try assumption. lia.
Qed.

(** Whatever the input, every callback carries a whole payload. *)
Lemma fsm_feed_packets_ok samples : ∀ inst inst' flags pkts,
  fsm_safe inst ∨ fsm_stuck inst ->
  fsm_feed inst samples = Some (inst', flags, pkts) ->
  (fsm_safe inst' ∨ fsm_stuck inst') ∧ Forall packet_ok pkts.
Proof.
  induction samples as [|x rest IH]; intros inst inst' flags pkts Hinv E.
  { injection E as <- _ <-. split; [assumption | constructor]. }
  simpl in E.
  destruct (iec_61937_fsm_run inst x) as [[[i1 r] cb]|] eqn:Run; [|discriminate].
  simpl in E.
  destruct (fsm_feed i1 rest) as [[[i2 rs] cbs]|] eqn:Feed; [|discriminate].
  injection E as <- _ <-.
  apply fsm_run_switch in Run as [Sw _].
  assert (Hstep : (fsm_safe i1 ∨ fsm_stuck i1) ∧ ∀ p, cb = Some p -> packet_ok p).
  { destruct Hinv as [Hsafe|Hstuck].
    - assert (Hcase : (state inst = IEC_61937_STATE_LENGTH
                       ∧ data_type inst = IEC_61937_DATA_TYPE_AC3 ∧ bswap16 x < 8)
                      ∨ (state inst = IEC_61937_STATE_LENGTH ->
                         data_type inst = IEC_61937_DATA_TYPE_AC3 -> 8 <= bswap16 x)).
      { destruct (Z_lt_dec (bswap16 x) 8) as [Short|Long]; [|right; lia].
        destruct (Z.eq_dec (data_type inst) IEC_61937_DATA_TYPE_AC3) as [Dt|Dt];
          [|right; intros; contradiction].
        destruct (state inst); try (right; discriminate). left. repeat split; assumption. }
      pose proof (bswap16_range x) as Hx.
      destruct Hcase as [(St & Dt & Short)|Hok].
      + destruct (fsm_switch_short inst (bswap16 x) ltac:(lia) (proj1 Hsafe) St Dt)
          as (i & Ei & Hi).
        rewrite Ei in Sw. injection Sw as <- <-. split; [now right | discriminate].
      + destruct (fsm_switch_safe inst (bswap16 x) Hx Hsafe Hok)
          as (i & cb' & Ei & Hi & Hcb).
        rewrite Ei in Sw. injection Sw as <- <-. split; [now left | exact Hcb].
    - destruct (fsm_switch_stuck _ _ _ _ Hstuck Sw) as [Hi ->].
      split; [now right | discriminate]. }
  destruct Hstep as [Hinv1 Hcb].
  destruct (IH _ _ _ _ Hinv1 Feed) as [Hinv2 Hpk].
  split; [exact Hinv2|]. apply Forall_app. split; [|exact Hpk].
  destruct cb as [p|]; simpl; [|constructor]. constructor; [now apply Hcb | constructor].
Qed.

Lemma handler_payloads inst pkts :
  Forall packet_ok pkts ->
  Forall call_payload_ok (concat (map (Arbiter.iec_61937_packet_handler inst) pkts)).
Proof.
  induction 1 as [|p ps Hp _ IH]; [constructor|].
  simpl. apply Forall_app. split; [|exact IH].
  unfold Arbiter.iec_61937_packet_handler.
  destruct (Arbiter.state inst); try constructor.
  destruct (pkt_data_type p =? IEC_61937_DATA_TYPE_AC3); constructor; [|constructor].
  exact Hp.
Qed.

Lemma process_payloads inst chunk inst' calls :
  fsm_safe (Arbiter.iec_61937_fsm_inst inst) ∨ fsm_stuck (Arbiter.iec_61937_fsm_inst inst) ->
  Arbiter.iec_60958_process inst chunk = Some (inst', calls) ->
  (fsm_safe (Arbiter.iec_61937_fsm_inst inst')
   ∨ fsm_stuck (Arbiter.iec_61937_fsm_inst inst')) ∧
  Forall call_payload_ok calls.
Proof.
  intros Hinv E.
  destruct (process_unfold _ _ _ _ E) as (inst1 & locked & cbs & Rc & Hres).
  destruct (run_chunk_inv _ _ _ _ _ Rc) as (f & pkts & Pc & -> & ->).
  destruct (process_chunk_feed _ _ _ _ _ Pc) as (flags & Feed & _).
  destruct (fsm_feed_packets_ok _ _ _ _ _ Hinv Feed) as [Hinv' Hpk].
  pose proof (handler_payloads inst pkts Hpk) as Hcalls.
  destruct (Arbiter.state inst); destruct locked;
    repeat match type of Hres with context [if ?b then _ else _] => destruct b end;
    injection Hres as -> ->; cbn [Arbiter.iec_61937_fsm_inst Arbiter.set_state
      Arbiter.set_non_61937_chunks Arbiter.set_fsm];
    (split; [exact Hinv'|]);
    try exact Hcalls;
    (apply Forall_app; split; [exact Hcalls | repeat constructor]).
Qed.

Lemma run_payloads chunks : ∀ inst inst' calls,
  fsm_safe (Arbiter.iec_61937_fsm_inst inst) ∨ fsm_stuck (Arbiter.iec_61937_fsm_inst inst) ->
  Arbiter.iec_60958_run inst chunks = Some (inst', calls) ->
  Forall call_payload_ok calls.
Proof.
  induction chunks as [|c rest IH]; intros inst inst' calls Hinv E.
  { injection E as _ <-. constructor. }
  simpl in E.
  destruct (Arbiter.iec_60958_process inst c) as [[i1 c1]|] eqn:E1; [|discriminate].
  simpl in E.
  destruct (Arbiter.iec_60958_run i1 rest) as [[i2 c2]|] eqn:E2; [|discriminate].
  injection E as _ <-.
  destruct (process_payloads _ _ _ _ Hinv E1) as [Hinv1 H1].
  apply Forall_app. split; [exact H1 | exact (IH _ _ _ Hinv1 E2)].
Qed.

(** X15: the AC-3 sink is only ever given whole payloads. Whatever
    bytes the input delivers and however they are cut into chunks, every
    call of [ac3_sink_process] the arbiter makes passes a length between 1
    and 8191 and exactly that many payload bytes: the decoder is never
    handed an empty or a partial burst. *)
Theorem ac3_sink_gets_whole_payloads (latency : Z) (chunks : list (list Z)) inst calls :
  Arbiter.iec_60958_run (Arbiter.iec_60958_init latency) chunks = Some (inst, calls) ->
  Forall call_payload_ok calls.
Proof.
  intros E. apply (run_payloads chunks (Arbiter.iec_60958_init latency) inst calls); [|exact E].
  left. exact fsm_init_safe.
Qed.

End WholePayloads.
Section WholePayloadsExample.

Example two_bursts_view :
  arbiter_view <$> Arbiter.iec_60958_run (Arbiter.iec_60958_init 0) two_burst_chunks
  = Some (Arbiter.IEC_60958_STATE_61937, 0,
          [Arbiter.ac3_sink_open 0; Arbiter.ac3_sink_process [0xAB] 1]).
Proof. vm_compute. reflexivity. Qed.

Lemma ac3_sink_gets_whole_payloads_witness :
  ∃ inst calls,
    Arbiter.iec_60958_run (Arbiter.iec_60958_init 0) two_burst_chunks = Some (inst, calls) ∧
    Forall call_payload_ok calls.
Proof.
  pose proof two_bursts_view as Hv.
  destruct (Arbiter.iec_60958_run (Arbiter.iec_60958_init 0) two_burst_chunks)
    as [[inst calls]|] eqn:E; [|discriminate Hv].
  exists inst, calls. split; [reflexivity|].
  exact (ac3_sink_gets_whole_payloads 0 two_burst_chunks inst calls E).
Defined.

End WholePayloadsExample.
Section LockedArbiter.
Import Arbiter.

Lemma handler_by_state a b pkts :
  state a = state b ->
  concat (map (iec_61937_packet_handler a) pkts)
  = concat (map (iec_61937_packet_handler b) pkts).
Proof.
  intros E. induction pkts as [|p ps IH]; [reflexivity|].
  simpl. rewrite IH. unfold iec_61937_packet_handler. now rewrite E.
Qed.

(** While the arbiter stays in state 61937 its calls are the callbacks. *)
Lemma run_locked_calls chunks : ∀ inst inst' calls f' flags pkts,
  state inst = IEC_60958_STATE_61937 ->
  iec_60958_run inst chunks = Some (inst', calls) ->
  process_chunks (iec_61937_fsm_inst inst) chunks = Some (f', flags, pkts) ->
  ¬ In ac3_sink_close calls ->
  calls = concat (map (iec_61937_packet_handler inst) pkts) ∧
  state inst' = IEC_60958_STATE_61937.
Proof.
  induction chunks as [|c rest IH]; intros inst inst' calls f' flags pkts St Run Pcs Hno.
  { injection Run as <- <-. injection Pcs as _ _ <-. auto. }
  cbn [iec_60958_run] in Run.
  destruct (iec_60958_process inst c) as [[i1 c1]|] eqn:E1; [|discriminate].
  cbn [mbind option_bind] in Run.
  destruct (iec_60958_run i1 rest) as [[i2 c2]|] eqn:E2; [|discriminate].
  injection Run as <- <-.
  cbn [process_chunks] in Pcs.
  destruct (process_chunk_iec_61937 _ c) as [[[f1 l1] p1]|] eqn:Pc; [|discriminate].
  cbn [mbind option_bind] in Pcs.
  destruct (process_chunks f1 rest) as [[[f2 ls] p2]|] eqn:Pr; [|discriminate].
  injection Pcs as _ _ <-.
  destruct (process_unfold _ _ _ _ E1) as (inst1 & locked & cbs & Rc & Hres).
  destruct (run_chunk_inv _ _ _ _ _ Rc) as (f & pk & Pc' & -> & ->).
  rewrite Pc in Pc'. injection Pc' as <- <- <-.
  rewrite St in Hres.
  assert (Hstep : c1 = concat (map (iec_61937_packet_handler inst) p1) ∧
                  state i1 = IEC_60958_STATE_61937 ∧ iec_61937_fsm_inst i1 = f1).
  { destruct l1.
    - injection Hres as -> ->. cbn. auto.
    - destruct (IEC_61937_DETECTION_WINDOW <=? _).
      + injection Hres as -> ->. exfalso. apply Hno.
        apply in_or_app. left. apply in_or_app. right. now left.
      + injection Hres as -> ->. cbn. auto. }
  destruct Hstep as (-> & St1 & F1).
  rewrite <- F1 in Pr.
  destruct (IH i1 i2 c2 f2 ls p2 St1 E2 Pr) as [-> St2].
  { intros Hin. apply Hno. apply in_or_app. now right. }
  split; [|exact St2].
  rewrite map_app, concat_app. f_equal. apply handler_by_state. congruence.
Qed.

(** X17: a locked arbiter delivers every burst. In state 61937, with
    the machine in FIRST_0, a byte stream of valid AC-3 bursts with any
    zero stuffing, cut into chunks of even length at any places, is
    always processed, and unless the arbiter gave up the stream (it then
    calls [ac3_sink_close], after 64 chunks in a row without lock) its
    calls are exactly one [ac3_sink_process] per burst, in order, with the
    burst's payload and length, and it is still in state 61937. *)
Theorem locked_arbiter_delivers_every_burst (pad : Z) (inst : iec_60958)
    (stuffed : list (nat * Spec.burst)) (tail : nat) (chunks : list (list Z)) :
  Spec.byte pad -> fsm_wf (iec_61937_fsm_inst inst) ->
  Iec61937.state (iec_61937_fsm_inst inst) = Iec61937.IEC_61937_STATE_FIRST_0 ->
  state inst = IEC_60958_STATE_61937 ->
  Forall (λ s, Spec.valid_burst s.2) stuffed ->
  Forall (λ c, Nat.even (length c) = true) chunks ->
  concat chunks
  = bytes_of_words (concat (map (stuffed_words pad) stuffed) ++ replicate tail 0) ->
  ∃ inst' calls,
    iec_60958_run inst chunks = Some (inst', calls) ∧
    (¬ In ac3_sink_close calls ->
     calls = map (λ s, burst_call s.2) stuffed ∧ state inst' = IEC_60958_STATE_61937).
Proof.
  intros Hpad Hwf Hst St Hall Heven Hbytes.
  destruct (stuffed_chunks_phase pad _ stuffed tail chunks Hpad Hwf Hst Hall Heven Hbytes)
    as (f' & flags & Pcs & _).
  destruct (run_drives_fsm chunks inst _ _ _ Pcs) as (inst' & calls & Run & _).
  exists inst', calls. split; [exact Run|]. intros Hno.
  destruct (run_locked_calls chunks _ _ _ _ _ _ St Run Pcs Hno) as [-> St'].
  split; [|exact St'].
  rewrite <- (map_map snd Spec.burst_packet), handler_on_bursts, St.
  now rewrite map_map.
Qed.

Example stuffed_chunks_view :
  arbiter_view <$> iec_60958_run locked_arbiter stuffed_chunks
  = Some (IEC_60958_STATE_61937, 0,
          [ac3_sink_process [0xAB] 1; ac3_sink_process [0xCD] 1]).
Proof. vm_compute. reflexivity. Qed.

Lemma locked_arbiter_delivers_every_burst_witness :
  ∃ inst' calls,
    iec_60958_run locked_arbiter stuffed_chunks = Some (inst', calls) ∧
    (¬ In ac3_sink_close calls ->
     calls = map (λ s, burst_call s.2) stuffed_example ∧
     state inst' = IEC_60958_STATE_61937).
Proof.
  apply (locked_arbiter_delivers_every_burst 0 locked_arbiter stuffed_example 3
           stuffed_chunks).
  - unfold Spec.byte. lia.
  - exact fsm_init_wf.
  - reflexivity.
  - reflexivity.
  - exact stuffed_example_valid.
  - repeat constructor.
  - vm_compute. reflexivity.
Defined.

End LockedArbiter.
(** ** The rings as queues *)

Section RingQueue.
Variable size : Z.
Hypothesis size_pos : 0 < size.

Lemma ring_read_length ring n : ∀ r,
  Z.of_nat (length ring) = size -> 0 <= r < size ->
  length (ring_read size ring r n) = n.
Proof.
  induction n as [|n IH]; intros r Hlen Hr; [reflexivity|].
  cbn [ring_read]. rewrite length_app, IH;
    [|assumption | apply Z.mod_pos_bound; lia].
  destruct (lookup_lt_is_Some_2 ring (Z.to_nat r) ltac:(lia)) as [v ->]. reflexivity.
Qed.

Lemma ring_read_lookup ring n : ∀ r (k : nat),
  Z.of_nat (length ring) = size -> 0 <= r < size -> (k < n)%nat ->
  ring_read size ring r n !! k = ring !! Z.to_nat ((r + Z.of_nat k) mod size).
Proof.
  induction n as [|n IH]; intros r k Hlen Hr Hk; [lia|].
  cbn [ring_read].
  destruct (lookup_lt_is_Some_2 ring (Z.to_nat r) ltac:(lia)) as [v Hv].
  rewrite Hv. destruct k as [|k].
  - simpl. rewrite Z.add_0_r, Z.mod_small by lia. now rewrite Hv.
  - simpl. rewrite IH; [|assumption | apply Z.mod_pos_bound; lia | lia].
    rewrite Z.add_mod_idemp_l by lia. do 3 f_equal. lia.
Qed.

Lemma ring_read_app ring a : ∀ r b,
  0 <= r < size ->
  ring_read size ring r (a + b)
  = ring_read size ring r a ++ ring_read size ring ((r + Z.of_nat a) mod size) b.
Proof.
  induction a as [|a IH]; intros r b Hr.
  - simpl. now rewrite Z.add_0_r, Z.mod_small by lia.
  - cbn [ring_read Nat.add]. rewrite IH by (apply Z.mod_pos_bound; lia).
    rewrite <- app_assoc, Z.add_mod_idemp_l by lia.
    now replace (r + 1 + Z.of_nat a) with (r + Z.of_nat (S a)) by lia.
Qed.

(** Reading depends only on the slots read. *)
Lemma ring_read_ext ring ring' n : ∀ r,
  0 <= r < size ->
  (∀ k, (k < n)%nat ->
        ring' !! Z.to_nat ((r + Z.of_nat k) mod size)
        = ring !! Z.to_nat ((r + Z.of_nat k) mod size)) ->
  ring_read size ring' r n = ring_read size ring r n.
Proof.
  induction n as [|n IH]; intros r Hr Hsame; [reflexivity|].
  cbn [ring_read]. f_equal.
  - specialize (Hsame 0%nat ltac:(lia)).
    rewrite Z.add_0_r, Z.mod_small in Hsame by lia. now rewrite Hsame.
  - apply IH; [apply Z.mod_pos_bound; lia|].
    intros k Hk. specialize (Hsame (S k) ltac:(lia)).
    rewrite Z.add_mod_idemp_l by lia.
    replace (r + 1 + Z.of_nat k) with (r + Z.of_nat (S k)) by lia. exact Hsame.
Qed.

(** What is written behind the queue is read back after it: the ring is
    a queue. [used] is the fill before the write. *)
Lemma ring_read_write ring r w vs (used : nat) :
  Z.of_nat (length ring) = size -> 0 <= r < size ->
  w = (r + Z.of_nat used) mod size ->
  Z.of_nat used + Z.of_nat (length vs) <= size ->
  let '(ring', w') := ring_write size ring w vs in
  Z.of_nat (length ring') = size ∧
  w' = (w + Z.of_nat (length vs)) mod size ∧
  ring_read size ring' r (used + length vs) = ring_read size ring r used ++ vs.
Proof.
  intros Hlen Hr Hw Hfit.
  assert (Hwr : 0 <= w < size) by (subst w; apply Z.mod_pos_bound; lia).
  pose proof (ring_write_spec size vs ring w Hlen Hwr ltac:(lia)) as Hspec.
  destruct (ring_write size ring w vs) as [ring' w'].
  destruct Hspec as (L & W & Hin & Hout).
  split; [exact L|]. split; [exact W|].
  rewrite ring_read_app by assumption. rewrite <- Hw. f_equal.
  - apply ring_read_ext; [assumption|]. intros k Hk.
    apply Hout; [apply Z.mod_pos_bound; lia|].
    intros j Hj. rewrite Hw, Z.add_mod_idemp_l by lia.
    rewrite <- Z.add_assoc. apply slots_differ; lia.
  - apply list_eq. intros k.
    destruct (vs !! k) as [v|] eqn:Hv.
    + rewrite ring_read_lookup; [|assumption | assumption|].
      * now apply Hin.
      * apply lookup_lt_Some in Hv. exact Hv.
    + apply lookup_ge_None_2. rewrite ring_read_length by assumption.
      now apply lookup_ge_None_1.
Qed.

(** Taking the oldest [n] values leaves the rest in order. *)
Lemma ring_read_split ring r (n used : nat) :
  0 <= r < size -> (n <= used)%nat ->
  ring_read size ring r used
  = ring_read size ring r n ++ ring_read size ring ((r + Z.of_nat n) mod size) (used - n).
Proof.
  intros Hr Hn. replace used with (n + (used - n))%nat at 1 by lia.
  now apply ring_read_app.
Qed.

End RingQueue.
(** ** The PCM sink as a queue *)

Section PcmSinkQueue.
Import PcmSink.

Lemma pcm_mask x :
  Z.land (to_u32 x) PCM_SINK_SAMPLE_BUFFER_SIZE_MASK = x mod PCM_SINK_SAMPLE_BUFFER_SIZE.
Proof.
  change PCM_SINK_SAMPLE_BUFFER_SIZE_MASK with (Z.ones 11).
  rewrite Z.land_ones by lia. unfold to_u32.
  change PCM_SINK_SAMPLE_BUFFER_SIZE with (2 ^ 11).
  apply Z.mod_mod_divide. exists (2 ^ 21). reflexivity.
Qed.

Lemma pcm_buffer_used inst :
  buffer_used inst = (write_idx inst - read_idx inst) mod PCM_SINK_SAMPLE_BUFFER_SIZE.
Proof. unfold buffer_used, ControlLoop.buffer_used. apply pcm_mask. Qed.

Lemma pcm_buffer_used_range inst : 0 <= buffer_used inst < PCM_SINK_SAMPLE_BUFFER_SIZE.
Proof. rewrite pcm_buffer_used. apply Z.mod_pos_bound. reflexivity. Qed.

Lemma pcm_buffer_space_avail inst :
  buffer_space_avail inst = PCM_SINK_SAMPLE_BUFFER_SIZE - 1 - buffer_used inst.
Proof.
  unfold buffer_space_avail, ControlLoop.buffer_space_avail. fold (buffer_used inst).
  pose proof (pcm_buffer_used_range inst) as H.
  unfold to_u32. change PCM_SINK_SAMPLE_BUFFER_SIZE_MASK with (PCM_SINK_SAMPLE_BUFFER_SIZE - 1).
  apply Z.mod_small. unfold PCM_SINK_SAMPLE_BUFFER_SIZE in *. lia.
Qed.

(** The write index is the read index plus the fill. *)
Lemma pcm_write_idx_of_fill inst :
  0 <= write_idx inst < PCM_SINK_SAMPLE_BUFFER_SIZE ->
  write_idx inst
  = (read_idx inst + Z.of_nat (Z.to_nat (buffer_used inst))) mod PCM_SINK_SAMPLE_BUFFER_SIZE.
Proof.
  intros Hw. pose proof (pcm_buffer_used_range inst) as Hu.
  rewrite Z2Nat.id by lia. rewrite pcm_buffer_used.
  rewrite Zplus_mod_idemp_r.
  replace (read_idx inst + (write_idx inst - read_idx inst)) with (write_idx inst) by lia.
  symmetry. apply Z.mod_small. exact Hw.
Qed.

(** The copy loop of the producer writes [n] samples of the resampler's
    output, from sample [i] on, behind the write index. *)
Lemma pcm_queue_loop_ok tmp n : ∀ i buffer w,
  0 <= i -> i + Z.of_nat n <= Z.of_nat (length tmp) ->
  0 <= w < PCM_SINK_SAMPLE_BUFFER_SIZE ->
  queue_loop n i tmp buffer w
  = Some (ring_write PCM_SINK_SAMPLE_BUFFER_SIZE buffer w (take n (drop (Z.to_nat i) tmp))).
Proof.
  induction n as [|n IH]; intros i buffer w Hi Hn Hw; [reflexivity|].
  cbn [queue_loop]. unfold array_load, array_store.
  replace (0 <=? i) with true by (symmetry; apply Z.leb_le; lia).
  destruct (lookup_lt_is_Some_2 tmp (Z.to_nat i) ltac:(lia)) as [v Hv].
  rewrite Hv. cbn [mbind option_bind].
  replace ((0 <=? w) && (w <? PCM_SINK_SAMPLE_BUFFER_SIZE)) with true.
  2:{ symmetry. apply andb_true_iff. split; [apply Z.leb_le | apply Z.ltb_lt]; lia. }
  cbn [mbind option_bind]. rewrite pcm_mask.
  rewrite IH; [|lia|lia|apply Z.mod_pos_bound; reflexivity].
  rewrite (drop_S _ _ _ Hv). cbn [take ring_write].
  replace (Z.to_nat (i + 1)) with (S (Z.to_nat i)) by lia. reflexivity.
Qed.

(** The copy loop of the worker reads the [n] oldest samples. *)
Lemma pcm_copy_loop_ok buffer n : ∀ r,
  Z.of_nat (length buffer) = PCM_SINK_SAMPLE_BUFFER_SIZE ->
  0 <= r < PCM_SINK_SAMPLE_BUFFER_SIZE ->
  copy_loop n buffer r
  = Some (ring_read PCM_SINK_SAMPLE_BUFFER_SIZE buffer r n,
          (r + Z.of_nat n) mod PCM_SINK_SAMPLE_BUFFER_SIZE).
Proof.
  induction n as [|n IH]; intros r Hlen Hr.
  { simpl. now rewrite Z.add_0_r, Z.mod_small by lia. }
  cbn [copy_loop ring_read]. unfold array_load.
  replace (0 <=? r) with true by (symmetry; apply Z.leb_le; lia).
  destruct (lookup_lt_is_Some_2 buffer (Z.to_nat r) ltac:(lia)) as [v Hv].
  rewrite Hv. cbn [mbind option_bind]. rewrite pcm_mask.
  rewrite IH by (try assumption; apply Z.mod_pos_bound; reflexivity).
  cbn [mbind option_bind option_list app]. rewrite Z.add_mod_idemp_l by (unfold PCM_SINK_SAMPLE_BUFFER_SIZE; lia).
  now replace (r + 1 + Z.of_nat n) with (r + Z.of_nat (S n)) by lia.
Qed.

Lemma pcm_rate_ratio_ok inst :
  control_ok PCM_SINK_BUFFER_TARGET_SAMPLES PCM_SINK_BUFFER_HIST_SIZE (ctl inst) ->
  ∃ c ratio,
    calculate_rate_ratio inst = Some (c, ratio) ∧
    control_ok PCM_SINK_BUFFER_TARGET_SAMPLES PCM_SINK_BUFFER_HIST_SIZE c ∧
    ratio_in_bounds PCM_SINK_LOOP_GAIN PCM_SINK_BUFFER_TARGET_SAMPLES ratio = true.
Proof.
  intros Hctl.
  exact (calculate_rate_ratio_ok PCM_SINK_BUFFER_TARGET_SAMPLES
           PCM_SINK_SAMPLE_BUFFER_SIZE_MASK PCM_SINK_LOOP_GAIN
           ltac:(unfold PCM_SINK_BUFFER_TARGET_SAMPLES; lia) pcm_sums_checked
           (ctl inst) (write_idx inst) (read_idx inst) Hctl).
Qed.

(** One producer step, as a queue operation. *)
Lemma pcm_push inst tmp gen :
  pcm_ok inst -> 0 <= gen -> 2 * gen <= Z.of_nat (length tmp) ->
  ∃ inst',
    pcm_sink_process inst tmp gen = Some inst' ∧ pcm_ok inst' ∧
    thread_run inst' = thread_run inst ∧ read_idx inst' = read_idx inst ∧
    buffer_used inst' = buffer_used inst + Z.min (buffer_space_avail inst) (2 * gen) ∧
    pcm_queue inst'
    = pcm_queue inst ++ take (Z.to_nat (Z.min (buffer_space_avail inst) (2 * gen))) tmp ∧
    ratio_in_bounds PCM_SINK_LOOP_GAIN PCM_SINK_BUFFER_TARGET_SAMPLES (src_ratio inst') = true.
Proof.
  intros (Hlen & Hw & Hr & Hctl) Hgen Htmp.
  destruct (pcm_rate_ratio_ok inst Hctl) as (c & ratio & E & Hc & Hratio).
  unfold pcm_sink_process. rewrite E. cbn [mbind option_bind].
  pose proof (pcm_buffer_used_range inst) as Hu.
  pose proof (pcm_buffer_space_avail inst) as Hs.
  set (k := Z.min (buffer_space_avail inst) (2 * gen)).
  assert (Hk : (if buffer_space_avail inst <? gen * 2 then buffer_space_avail inst
                else to_u32 (gen * 2)) = k).
  { unfold k. destruct (Z.ltb_spec (buffer_space_avail inst) (gen * 2)) as [Lt|Ge].
    - lia.
    - unfold to_u32. rewrite Z.mod_small; [lia|].
      unfold PCM_SINK_SAMPLE_BUFFER_SIZE in *. lia. }
  rewrite Hk.
  assert (Hk0 : 0 <= k <= buffer_space_avail inst ∧ k <= 2 * gen).
  { unfold k. unfold PCM_SINK_SAMPLE_BUFFER_SIZE in *. lia. }
  rewrite pcm_queue_loop_ok by lia.
  change (drop (Z.to_nat 0) tmp) with tmp.
  set (vs := take (Z.to_nat k) tmp).
  assert (Hvs : length vs = Z.to_nat k) by (unfold vs; rewrite length_take; lia).
  pose proof (ring_read_write PCM_SINK_SAMPLE_BUFFER_SIZE ltac:(reflexivity)
                (buffer inst) (read_idx inst) (write_idx inst) vs
                (Z.to_nat (buffer_used inst)) Hlen Hr
                (pcm_write_idx_of_fill inst Hw)) as Hq.
  rewrite Hvs in Hq.
  specialize (Hq ltac:(unfold PCM_SINK_SAMPLE_BUFFER_SIZE in *; lia)).
  destruct (ring_write PCM_SINK_SAMPLE_BUFFER_SIZE (buffer inst) (write_idx inst) vs)
    as [ring' w'].
  destruct Hq as (L & W & Q).
  cbn [mbind option_bind]. eexists. split; [reflexivity|].
  assert (Hused' : (w' - read_idx inst) mod PCM_SINK_SAMPLE_BUFFER_SIZE
                   = buffer_used inst + k).
  { rewrite W, Zminus_mod_idemp_l.
    replace (write_idx inst + Z.of_nat (Z.to_nat k) - read_idx inst)
      with (write_idx inst - read_idx inst + k) by lia.
    rewrite <- Z.add_mod_idemp_l, <- pcm_buffer_used by (unfold PCM_SINK_SAMPLE_BUFFER_SIZE; lia).
    apply Z.mod_small. unfold PCM_SINK_SAMPLE_BUFFER_SIZE in *. lia. }
  split; [|split; [reflexivity|split; [reflexivity|]]].
  { unfold pcm_ok. cbn [buffer write_idx read_idx ctl].
    split; [exact L|]. split; [rewrite W; apply Z.mod_pos_bound; reflexivity|].
    split; assumption. }
  split; [rewrite pcm_buffer_used; exact Hused'|].
  split; [|exact Hratio].
  unfold pcm_queue at 1. rewrite pcm_buffer_used. cbn [buffer write_idx read_idx].
  rewrite Hused'. rewrite Z2Nat.inj_add by lia. exact Q.
Qed.

(** One turn of the worker, as a queue operation. *)
Lemma pcm_pop inst :
  pcm_ok inst ->
  ∃ inst' t,
    output_thread inst = Some (inst', t) ∧ pcm_ok inst' ∧
    thread_run inst' = thread_run inst ∧
    write_idx inst' = write_idx inst ∧ buffer inst' = buffer inst ∧
    if negb (thread_run inst) then t = Terminated ∧ inst' = inst
    else if buffer_used inst <? PCM_SINK_OUTPUT_CHUNK_SIZE then t = Waiting ∧ inst' = inst
    else t = Written (take 32 (pcm_queue inst)) ∧
         pcm_queue inst' = drop 32 (pcm_queue inst) ∧
         buffer_used inst' = buffer_used inst - 32 ∧
         read_idx inst' = (read_idx inst + 32) mod PCM_SINK_SAMPLE_BUFFER_SIZE.
Proof.
  intros Hok. pose proof Hok as (Hlen & Hw & Hr & Hctl). unfold output_thread.
  destruct (thread_run inst) eqn:Run; cbn [negb andb].
  2:{ rewrite andb_false_r. exists inst, Terminated. split; [reflexivity|]. split; [exact Hok|].
      repeat split; try reflexivity; exact Run. }
  rewrite andb_true_r.
  destruct (buffer_used inst <? PCM_SINK_OUTPUT_CHUNK_SIZE) eqn:Low.
  { exists inst, Waiting. split; [reflexivity|]. split; [exact Hok|].
    repeat split; try reflexivity; exact Run. }
  apply Z.ltb_ge in Low. change PCM_SINK_OUTPUT_CHUNK_SIZE with 32 in *.
  pose proof (pcm_buffer_used_range inst) as Hu.
  rewrite (pcm_copy_loop_ok _ _ _ Hlen Hr). cbn [mbind option_bind].
  do 2 eexists. split; [reflexivity|].
  change (Z.of_nat (Z.to_nat 32)) with 32.
  assert (Hr' : 0 <= (read_idx inst + 32) mod PCM_SINK_SAMPLE_BUFFER_SIZE
                < PCM_SINK_SAMPLE_BUFFER_SIZE) by (apply Z.mod_pos_bound; reflexivity).
  assert (Hused' : (write_idx inst - (read_idx inst + 32) mod PCM_SINK_SAMPLE_BUFFER_SIZE)
                     mod PCM_SINK_SAMPLE_BUFFER_SIZE = buffer_used inst - 32).
  { rewrite Zminus_mod_idemp_r.
    replace (write_idx inst - (read_idx inst + 32))
      with (write_idx inst - read_idx inst - 32) by lia.
    rewrite <- Zminus_mod_idemp_l, <- pcm_buffer_used.
    apply Z.mod_small. unfold PCM_SINK_SAMPLE_BUFFER_SIZE in *. lia. }
  split; [|split; [reflexivity|split; [reflexivity|split; [reflexivity|]]]].
  { unfold pcm_ok. cbn [buffer write_idx read_idx ctl]. auto. }
  pose proof (ring_read_split PCM_SINK_SAMPLE_BUFFER_SIZE ltac:(reflexivity)
                (buffer inst) (read_idx inst) 32 (Z.to_nat (buffer_used inst)) Hr
                ltac:(lia)) as Hsplit.
  fold (pcm_queue inst) in Hsplit.
  assert (Hl32 : length (ring_read PCM_SINK_SAMPLE_BUFFER_SIZE (buffer inst) (read_idx inst) 32)
                 = 32%nat) by (apply ring_read_length; [reflexivity | assumption | assumption]).
  split; [|split; [|split]].
  - f_equal. rewrite Hsplit, take_app_length'; [reflexivity | now rewrite Hl32].
  - unfold pcm_queue at 1. rewrite pcm_buffer_used. cbn [buffer write_idx read_idx].
    rewrite Hused', Hsplit, drop_app_length'; [|now rewrite Hl32].
    f_equal. lia.
  - rewrite pcm_buffer_used. cbn [write_idx read_idx]. exact Hused'.
  - reflexivity.
Qed.

End PcmSinkQueue.
Section PcmSinkStream.
Import PcmSink.

Lemma pcm_sink_open_ok : pcm_ok pcm_sink_open.
Proof.
  unfold pcm_ok, pcm_sink_open. cbn [buffer write_idx read_idx ctl].
  split; [now rewrite length_replicate|].
  split; [unfold PCM_SINK_BUFFER_TARGET_SAMPLES, PCM_SINK_SAMPLE_BUFFER_SIZE; lia|].
  split; [unfold PCM_SINK_SAMPLE_BUFFER_SIZE; lia|].
  apply control_init_ok. unfold PCM_SINK_BUFFER_TARGET_SAMPLES. lia.
Qed.

Lemma pcm_sink_open_queue :
  pcm_queue pcm_sink_open = replicate 128 (S754_zero false).
Proof. vm_compute. reflexivity. Qed.

Lemma pcm_full_after_cut inst inst' gen :
  PcmSink.buffer_used inst'
  = PcmSink.buffer_used inst + Z.min (PcmSink.buffer_space_avail inst) (2 * gen) ->
  PcmSink.buffer_space_avail inst < 2 * gen -> pcm_full inst'.
Proof.
  intros U Lt. unfold pcm_full.
  change 2048 with PCM_SINK_SAMPLE_BUFFER_SIZE. rewrite <- pcm_buffer_used, U.
  rewrite Z.min_l by lia. rewrite pcm_buffer_space_avail.
  unfold PCM_SINK_SAMPLE_BUFFER_SIZE. lia.
Qed.

(** Any schedule from a sink in order: what was written out, followed by
    what is still queued, is what was queued before followed by what each
    producer step kept of its chunk; and a step keeps the whole chunk
    unless the ring is full when it ends. *)
Lemma pcm_run_fifo ops : ∀ inst,
  pcm_ok inst -> Forall pcm_op_ok ops ->
  ∃ inst' out qs,
    run inst ops = Some inst' ∧ pcm_written inst ops = Some out ∧
    pcm_after_pushes inst ops = Some (map snd qs) ∧ pcm_ok inst' ∧
    Forall2 pcm_kept qs (concat (map pcm_generated ops)) ∧
    out ++ pcm_queue inst' = pcm_queue inst ++ concat (map fst qs).
Proof.
  induction ops as [|o rest IH]; intros inst Hok Hops.
  { exists inst, [], []. split; [reflexivity|]. split; [reflexivity|].
    split; [reflexivity|]. split; [assumption|]. split; [constructor|].
    now rewrite app_nil_r. }
  apply Forall_cons in Hops as [Ho Hops].
  destruct o as [tmp gen|].
  - destruct Ho as [Hgen Htmp].
    destruct (pcm_push inst tmp gen Hok Hgen Htmp)
      as (i1 & E1 & Ok1 & _ & _ & U1 & Q1 & _).
    destruct (IH i1 Ok1 Hops) as (i2 & out & qs & Run & Wr & Af & Ok2 & Kept & Q2).
    set (k := Z.to_nat (Z.min (buffer_space_avail inst) (2 * gen))) in *.
    exists i2, out, ((take k tmp, i1) :: qs).
    cbn [run step pcm_written pcm_after_pushes]. rewrite E1. cbn [mbind option_bind].
    rewrite Af. cbn [mbind option_bind].
    split; [exact Run|]. split; [exact Wr|]. split; [reflexivity|].
    split; [exact Ok2|]. split.
    + cbn [map concat pcm_generated app]. constructor; [|exact Kept].
      unfold pcm_kept. cbn [fst snd].
      destruct (Z.lt_ge_cases (buffer_space_avail inst) (2 * gen)) as [Lt|Ge].
      * split; [|right; exact (pcm_full_after_cut inst i1 gen U1 Lt)].
        replace (take k tmp) with (take k (take (Z.to_nat (2 * gen)) tmp)).
        -- apply prefix_take.
        -- rewrite take_take. f_equal. unfold k. lia.
      * replace k with (Z.to_nat (2 * gen)) by (unfold k; lia).
        split; [reflexivity | now left].
    + rewrite Q2, Q1. cbn [map fst concat]. now rewrite app_assoc.
  - destruct (pcm_pop inst Hok) as (i1 & t & E1 & Ok1 & _ & _ & _ & Hturn).
    destruct (IH i1 Ok1 Hops) as (i2 & out & qs & Run & Wr & Af & Ok2 & Kept & Q2).
    exists i2, (turn_output t ++ out), qs.
    cbn [run step pcm_written pcm_after_pushes]. rewrite E1.
    cbn [fmap option_fmap option_map mbind option_bind fst].
    rewrite Wr. cbn [mbind option_bind].
    split; [exact Run|]. split; [reflexivity|]. split; [exact Af|].
    split; [exact Ok2|]. split; [exact Kept|].
    rewrite <- app_assoc, Q2.
    destruct (negb (thread_run inst));
      [|destruct (buffer_used inst <? PCM_SINK_OUTPUT_CHUNK_SIZE)].
    + destruct Hturn as [-> ->]. reflexivity.
    + destruct Hturn as [-> ->]. reflexivity.
    + destruct Hturn as (-> & Q1 & _). cbn [turn_output].
      rewrite Q1, app_assoc, take_drop. reflexivity.
Qed.

(** X7: [pcm_sink_process] on a sink in order appends to the queue: the
    step is defined, the ring holds what it held followed by the first
    [min (space, 2 * output_frames_gen)] samples of the resampler's
    output, the fill grows by that number, the read index and [thread_run]
    do not change, and the new ratio is within the bounds of the loop. *)
Theorem pcm_sink_process_appends (inst : pcm_sink) (tmp_output_buf : list float)
    (output_frames_gen : Z) :
  pcm_ok inst -> 0 <= output_frames_gen ->
  2 * output_frames_gen <= Z.of_nat (length tmp_output_buf) ->
  ∃ inst',
    pcm_sink_process inst tmp_output_buf output_frames_gen = Some inst' ∧ pcm_ok inst' ∧
    thread_run inst' = thread_run inst ∧ read_idx inst' = read_idx inst ∧
    buffer_used inst'
    = buffer_used inst + Z.min (buffer_space_avail inst) (2 * output_frames_gen) ∧
    pcm_queue inst'
    = pcm_queue inst
      ++ take (Z.to_nat (Z.min (buffer_space_avail inst) (2 * output_frames_gen)))
           tmp_output_buf ∧
    ratio_in_bounds PCM_SINK_LOOP_GAIN PCM_SINK_BUFFER_TARGET_SAMPLES (src_ratio inst')
    = true.
Proof. exact (pcm_push inst tmp_output_buf output_frames_gen). Qed.

(** X8: one turn of the PCM worker on a sink in order. If the sink was
    closed the worker terminates; if fewer than 32 samples are queued it
    waits; in both cases nothing changes. Otherwise it writes out the 32
    oldest samples, in the order they were queued, and the rest stays
    queued. The ring contents and the write index are never changed. *)
Theorem pcm_output_thread_takes_oldest (inst : pcm_sink) :
  pcm_ok inst ->
  ∃ inst' t,
    output_thread inst = Some (inst', t) ∧ pcm_ok inst' ∧
    thread_run inst' = thread_run inst ∧
    write_idx inst' = write_idx inst ∧ buffer inst' = buffer inst ∧
    if negb (thread_run inst) then t = Terminated ∧ inst' = inst
    else if buffer_used inst <? PCM_SINK_OUTPUT_CHUNK_SIZE then t = Waiting ∧ inst' = inst
    else t = Written (take 32 (pcm_queue inst)) ∧
         pcm_queue inst' = drop 32 (pcm_queue inst) ∧
         buffer_used inst' = buffer_used inst - 32 ∧
         read_idx inst' = (read_idx inst + 32) mod PCM_SINK_SAMPLE_BUFFER_SIZE.
Proof. exact (pcm_pop inst). Qed.

(** X9: the PCM sink is a queue under every interleaving of producer and
    worker, and loses samples only when it is full. From [pcm_sink_open],
    any schedule of producer steps (each with its frames in the buffer)
    and worker turns is defined, and the samples written out followed by
    the samples still queued are the 128 zero samples of the initial fill
    followed by what each producer step kept of the chunk generated for
    it, in order: nothing is duplicated or reordered. A step keeps the
    whole chunk, or else a prefix of it after which the ring is full (the
    write index one slot behind the read index). *)
Theorem pcm_sink_is_fifo (ops : list op) :
  Forall pcm_op_ok ops ->
  ∃ inst out qs,
    run pcm_sink_open ops = Some inst ∧ pcm_written pcm_sink_open ops = Some out ∧
    pcm_after_pushes pcm_sink_open ops = Some (map snd qs) ∧
    pcm_ok inst ∧
    Forall2 pcm_kept qs (concat (map pcm_generated ops)) ∧
    out ++ pcm_queue inst = replicate 128 (S754_zero false) ++ concat (map fst qs).
Proof.
  intros Hops.
  destruct (pcm_run_fifo ops pcm_sink_open pcm_sink_open_ok Hops)
    as (inst & out & qs & Run & Wr & Af & Ok & Kept & Q).
  exists inst, out, qs. rewrite pcm_sink_open_queue in Q. auto 10.
Qed.

End PcmSinkStream.
(** ** The AC-3 sink as a queue *)

Section Ac3SinkQueue.
Import Ac3Sink.

Lemma ac3_buffer_used_range inst : 0 <= buffer_used inst < AC3_SINK_SAMPLE_BUFFER_SIZE.
Proof. rewrite ac3_buffer_used. apply Z.mod_pos_bound. reflexivity. Qed.

Lemma ac3_write_idx_of_fill inst :
  0 <= write_idx inst < AC3_SINK_SAMPLE_BUFFER_SIZE ->
  write_idx inst
  = (read_idx inst + Z.of_nat (Z.to_nat (buffer_used inst))) mod AC3_SINK_SAMPLE_BUFFER_SIZE.
Proof.
  intros Hw. pose proof (ac3_buffer_used_range inst) as Hu.
  rewrite Z2Nat.id by lia. rewrite ac3_buffer_used.
  rewrite Zplus_mod_idemp_r.
  replace (read_idx inst + (write_idx inst - read_idx inst)) with (write_idx inst) by lia.
  symmetry. apply Z.mod_small. exact Hw.
Qed.

Lemma ac3_copy_loop_ok buffer n : ∀ r,
  Z.of_nat (length buffer) = AC3_SINK_SAMPLE_BUFFER_SIZE ->
  0 <= r < AC3_SINK_SAMPLE_BUFFER_SIZE ->
  copy_loop n buffer r
  = Some (ring_read AC3_SINK_SAMPLE_BUFFER_SIZE buffer r n,
          (r + Z.of_nat n) mod AC3_SINK_SAMPLE_BUFFER_SIZE).
Proof.
  induction n as [|n IH]; intros r Hlen Hr.
  { simpl. now rewrite Z.add_0_r, Z.mod_small by lia. }
  cbn [copy_loop ring_read]. unfold array_load.
  replace (0 <=? r) with true by (symmetry; apply Z.leb_le; lia).
  destruct (lookup_lt_is_Some_2 buffer (Z.to_nat r) ltac:(lia)) as [v Hv].
  rewrite Hv. cbn [mbind option_bind]. rewrite ac3_mask.
  rewrite IH by (try assumption; apply Z.mod_pos_bound; reflexivity).
  cbn [mbind option_bind option_list app].
  rewrite Z.add_mod_idemp_l by (unfold AC3_SINK_SAMPLE_BUFFER_SIZE; lia).
  now replace (r + 1 + Z.of_nat n) with (r + Z.of_nat (S n)) by lia.
Qed.

Lemma ac3_interleaved_length tmp gen :
  0 <= gen -> Z.of_nat (length (ac3_interleaved tmp gen)) = 6 * gen.
Proof. intros H. unfold ac3_interleaved. rewrite frames_from_length. lia. Qed.

(** One producer step, as a queue operation. *)
Lemma ac3_push inst tmp gen :
  ac3_ok inst -> 0 <= gen ->
  (∀ ch i, 0 <= ch < 6 -> 0 <= i < gen -> is_Some (sample_at tmp ch i)) ->
  ∃ inst' queued,
    ac3_sink_process inst tmp gen = Some (inst', queued) ∧ ac3_ok inst' ∧
    thread_run inst' = thread_run inst ∧ read_idx inst' = read_idx inst ∧
    if buffer_space_avail inst <? gen * 6 then
      queued = false ∧ buffer_used inst' = buffer_used inst ∧
      ac3_queue inst' = ac3_queue inst
    else
      queued = true ∧ buffer_used inst' = buffer_used inst + 6 * gen ∧
      ac3_queue inst' = ac3_queue inst ++ ac3_interleaved tmp gen.
Proof.
  intros (Hlen & Hw & Hr & Hctl) Hgen Hsamples.
  unfold ac3_sink_process.
  destruct (calculate_rate_ratio_ok AC3_SINK_BUFFER_TARGET_SAMPLES
              AC3_SINK_SAMPLE_BUFFER_SIZE_MASK AC3_SINK_LOOP_GAIN
              ltac:(unfold AC3_SINK_BUFFER_TARGET_SAMPLES; lia) ac3_sums_checked
              (ctl inst) (write_idx inst) (read_idx inst) Hctl)
    as (c' & ratio & E & Hc' & _).
  unfold calculate_rate_ratio. unfold AC3_SINK_BUFFER_HIST_SIZE at 1. rewrite E.
  cbn [mbind option_bind].
  destruct (buffer_space_avail inst <? gen * 6) eqn:Efree.
  - do 2 eexists. split; [reflexivity|].
    unfold ac3_ok. cbn [read_idx write_idx buffer ctl thread_run].
    split; [exact (conj Hlen (conj Hw (conj Hr Hc')))|].
    repeat split; reflexivity.
  - apply Z.ltb_ge in Efree. rewrite ac3_buffer_space_avail in Efree.
    pose proof (ac3_buffer_used_range inst) as Hu.
    rewrite (queue_loop_ok tmp
               (λ ch i, default (S754_zero false) (sample_at tmp ch i))).
    2:{ intros ch k Hch Hk. destruct (Hsamples ch k Hch ltac:(lia)) as [v ->]. reflexivity. }
    2:{ assumption. }
    fold (ac3_interleaved tmp gen).
    pose proof (ac3_interleaved_length tmp gen Hgen) as Hvs.
    pose proof (ring_read_write AC3_SINK_SAMPLE_BUFFER_SIZE ltac:(reflexivity)
                  (buffer inst) (read_idx inst) (write_idx inst) (ac3_interleaved tmp gen)
                  (Z.to_nat (buffer_used inst)) Hlen Hr
                  (ac3_write_idx_of_fill inst Hw)
                  ltac:(unfold AC3_SINK_SAMPLE_BUFFER_SIZE in *; lia)) as Hq.
    destruct (ring_write AC3_SINK_SAMPLE_BUFFER_SIZE (buffer inst) (write_idx inst) _)
      as [ring' w'].
    destruct Hq as (L & W & Q).
    cbn [mbind option_bind]. do 2 eexists. split; [reflexivity|].
    assert (Hused' : (w' - read_idx inst) mod AC3_SINK_SAMPLE_BUFFER_SIZE
                     = buffer_used inst + 6 * gen).
    { rewrite W, Zminus_mod_idemp_l, Hvs.
      replace (write_idx inst + 6 * gen - read_idx inst)
        with (write_idx inst - read_idx inst + 6 * gen) by lia.
      rewrite <- Z.add_mod_idemp_l, <- ac3_buffer_used
        by (unfold AC3_SINK_SAMPLE_BUFFER_SIZE; lia).
      apply Z.mod_small. unfold AC3_SINK_SAMPLE_BUFFER_SIZE in *. lia. }
    split; [|split; [reflexivity|split; [reflexivity|]]].
    { unfold ac3_ok. cbn [buffer write_idx read_idx ctl].
      split; [exact L|]. split; [rewrite W; apply Z.mod_pos_bound; reflexivity|].
      split; assumption. }
    split; [reflexivity|].
    split; [rewrite ac3_buffer_used; exact Hused'|].
    unfold ac3_queue at 1. rewrite ac3_buffer_used. cbn [buffer write_idx read_idx].
    rewrite Hused'. rewrite Z2Nat.inj_add by lia.
    replace (Z.to_nat (6 * gen)) with (length (ac3_interleaved tmp gen)) by lia.
    exact Q.
Qed.

(** One turn of the worker, as a queue operation. *)
Lemma ac3_pop inst :
  ac3_ok inst ->
  ∃ inst' t,
    output_thread inst = Some (inst', t) ∧ ac3_ok inst' ∧
    thread_run inst' = thread_run inst ∧
    write_idx inst' = write_idx inst ∧ buffer inst' = buffer inst ∧
    if negb (thread_run inst) then t = PcmSink.Terminated ∧ inst' = inst
    else if buffer_used inst <? AC3_SINK_OUTPUT_CHUNK_SIZE
    then t = PcmSink.Waiting ∧ inst' = inst
    else t = PcmSink.Written (take 96 (ac3_queue inst)) ∧
         ac3_queue inst' = drop 96 (ac3_queue inst) ∧
         buffer_used inst' = buffer_used inst - 96 ∧
         read_idx inst' = (read_idx inst + 96) mod AC3_SINK_SAMPLE_BUFFER_SIZE.
Proof.
  intros Hok. pose proof Hok as (Hlen & Hw & Hr & Hctl). unfold output_thread.
  destruct (thread_run inst) eqn:Run; cbn [negb andb].
  2:{ rewrite andb_false_r. exists inst, PcmSink.Terminated.
      split; [reflexivity|]. split; [exact Hok|].
      repeat split; try reflexivity; exact Run. }
  rewrite andb_true_r.
  destruct (buffer_used inst <? AC3_SINK_OUTPUT_CHUNK_SIZE) eqn:Low.
  { exists inst, PcmSink.Waiting. split; [reflexivity|]. split; [exact Hok|].
    repeat split; try reflexivity; exact Run. }
  apply Z.ltb_ge in Low. change AC3_SINK_OUTPUT_CHUNK_SIZE with 96 in *.
  pose proof (ac3_buffer_used_range inst) as Hu.
  rewrite (ac3_copy_loop_ok _ _ _ Hlen Hr). cbn [mbind option_bind].
  do 2 eexists. split; [reflexivity|].
  change (Z.of_nat (Z.to_nat 96)) with 96.
  assert (Hr' : 0 <= (read_idx inst + 96) mod AC3_SINK_SAMPLE_BUFFER_SIZE
                < AC3_SINK_SAMPLE_BUFFER_SIZE) by (apply Z.mod_pos_bound; reflexivity).
  assert (Hused' : (write_idx inst - (read_idx inst + 96) mod AC3_SINK_SAMPLE_BUFFER_SIZE)
                     mod AC3_SINK_SAMPLE_BUFFER_SIZE = buffer_used inst - 96).
  { rewrite Zminus_mod_idemp_r.
    replace (write_idx inst - (read_idx inst + 96))
      with (write_idx inst - read_idx inst - 96) by lia.
    rewrite <- Zminus_mod_idemp_l, <- ac3_buffer_used.
    apply Z.mod_small. unfold AC3_SINK_SAMPLE_BUFFER_SIZE in *. lia. }
  split; [|split; [reflexivity|split; [reflexivity|split; [reflexivity|]]]].
  { unfold ac3_ok. cbn [buffer write_idx read_idx ctl]. auto. }
  pose proof (ring_read_split AC3_SINK_SAMPLE_BUFFER_SIZE ltac:(reflexivity)
                (buffer inst) (read_idx inst) 96 (Z.to_nat (buffer_used inst)) Hr
                ltac:(lia)) as Hsplit.
  fold (ac3_queue inst) in Hsplit.
  assert (Hl96 : length (ring_read AC3_SINK_SAMPLE_BUFFER_SIZE (buffer inst) (read_idx inst) 96)
                 = 96%nat) by (apply ring_read_length; [reflexivity | assumption | assumption]).
  split; [|split; [|split]].
  - f_equal. rewrite Hsplit, take_app_length'; [reflexivity | now rewrite Hl96].
  - unfold ac3_queue at 1. rewrite ac3_buffer_used. cbn [buffer write_idx read_idx].
    rewrite Hused', Hsplit, drop_app_length'; [|now rewrite Hl96].
    f_equal. lia.
  - rewrite ac3_buffer_used. cbn [write_idx read_idx]. exact Hused'.
  - reflexivity.
Qed.

Lemma ac3_sink_open_queue :
  ac3_queue ac3_sink_open = replicate 384 (S754_zero false).
Proof. vm_compute. reflexivity. Qed.

Lemma ac3_sink_open_fill : buffer_used ac3_sink_open mod 6 = 0.
Proof. reflexivity. Qed.

(** Any schedule from a sink in order. *)
Lemma ac3_run_fifo ops : ∀ inst,
  ac3_ok inst -> Forall ac3_op_ok ops -> buffer_used inst mod 6 = 0 ->
  ∃ inst' out accs,
    run inst ops = Some inst' ∧ ac3_written inst ops = Some out ∧ ac3_ok inst' ∧
    buffer_used inst' mod 6 = 0 ∧
    Forall2 whole_or_dropped accs (concat (map ac3_generated ops)) ∧
    out ++ ac3_queue inst' = ac3_queue inst ++ concat accs.
Proof.
  induction ops as [|o rest IH]; intros inst Hok Hops Hfill.
  { exists inst, [], []. split; [reflexivity|]. split; [reflexivity|].
    split; [assumption|]. split; [assumption|]. split; [constructor|].
    now rewrite app_nil_r. }
  apply Forall_cons in Hops as [Ho Hops].
  destruct o as [tmp gen|].
  - destruct Ho as [Hgen Htmp].
    destruct (ac3_push inst tmp gen Hok Hgen Htmp)
      as (i1 & queued & E1 & Ok1 & _ & _ & Hpush).
    cbn [run step ac3_written]. rewrite E1.
    cbn [fmap option_fmap option_map mbind option_bind fst].
    destruct (buffer_space_avail inst <? gen * 6).
    + destruct Hpush as (_ & U1 & Q1).
      destruct (IH i1 Ok1 Hops ltac:(now rewrite U1))
        as (i2 & out & accs & Run & Wr & Ok2 & Fill2 & Pre & Q2).
      exists i2, out, ([] :: accs).
      split; [exact Run|]. split; [exact Wr|]. split; [exact Ok2|].
      split; [exact Fill2|]. split.
      * cbn [map concat ac3_generated app]. constructor; [now left | exact Pre].
      * rewrite Q2, Q1. reflexivity.
    + destruct Hpush as (_ & U1 & Q1).
      assert (Fill1 : buffer_used i1 mod 6 = 0).
      { rewrite U1. replace (buffer_used inst + 6 * gen) with (buffer_used inst + gen * 6) by lia.
        rewrite Z.mod_add by lia. exact Hfill. }
      destruct (IH i1 Ok1 Hops Fill1)
        as (i2 & out & accs & Run & Wr & Ok2 & Fill2 & Pre & Q2).
      exists i2, out, (ac3_interleaved tmp gen :: accs).
      split; [exact Run|]. split; [exact Wr|]. split; [exact Ok2|].
      split; [exact Fill2|]. split.
      * cbn [map concat ac3_generated app]. constructor; [now right | exact Pre].
      * rewrite Q2, Q1. cbn [concat]. now rewrite app_assoc.
  - destruct (ac3_pop inst Hok) as (i1 & t & E1 & Ok1 & _ & _ & _ & Hturn).
    cbn [run step ac3_written]. rewrite E1.
    cbn [fmap option_fmap option_map mbind option_bind fst].
    assert (Fill1 : buffer_used i1 mod 6 = 0).
    { destruct (negb (thread_run inst));
        [|destruct (buffer_used inst <? AC3_SINK_OUTPUT_CHUNK_SIZE)].
      - now destruct Hturn as [_ ->].
      - now destruct Hturn as [_ ->].
      - destruct Hturn as (_ & _ & -> & _).
        replace (buffer_used inst - 96) with (buffer_used inst + (-16) * 6) by lia.
        rewrite Z.mod_add by lia. exact Hfill. }
    destruct (IH i1 Ok1 Hops Fill1)
      as (i2 & out & accs & Run & Wr & Ok2 & Fill2 & Pre & Q2).
    exists i2, (turn_output t ++ out), accs.
    rewrite Wr. cbn [mbind option_bind].
    split; [exact Run|]. split; [reflexivity|]. split; [exact Ok2|].
    split; [exact Fill2|]. split; [exact Pre|].
    rewrite <- app_assoc, Q2.
    destruct (negb (thread_run inst));
      [|destruct (buffer_used inst <? AC3_SINK_OUTPUT_CHUNK_SIZE)].
    + destruct Hturn as [-> ->]. reflexivity.
    + destruct Hturn as [-> ->]. reflexivity.
    + destruct Hturn as (-> & Q1 & _). cbn [turn_output].
      rewrite Q1, app_assoc, take_drop. reflexivity.
Qed.

(** X10: one turn of the AC-3 worker on a sink in order. If the sink was
    closed the worker terminates; if fewer than 96 samples are queued it
    waits; in both cases nothing changes. Otherwise it writes out the 96
    oldest samples (16 frames of 6 channels), in the order they were
    queued, and the rest stays queued. The ring contents and the write
    index are never changed. *)
Theorem ac3_output_thread_takes_oldest (inst : ac3_sink) :
  ac3_ok inst ->
  ∃ inst' t,
    output_thread inst = Some (inst', t) ∧ ac3_ok inst' ∧
    thread_run inst' = thread_run inst ∧
    write_idx inst' = write_idx inst ∧ buffer inst' = buffer inst ∧
    if negb (thread_run inst) then t = PcmSink.Terminated ∧ inst' = inst
    else if buffer_used inst <? AC3_SINK_OUTPUT_CHUNK_SIZE
    then t = PcmSink.Waiting ∧ inst' = inst
    else t = PcmSink.Written (take 96 (ac3_queue inst)) ∧
         ac3_queue inst' = drop 96 (ac3_queue inst) ∧
         buffer_used inst' = buffer_used inst - 96 ∧
         read_idx inst' = (read_idx inst + 96) mod AC3_SINK_SAMPLE_BUFFER_SIZE.
Proof. exact (ac3_pop inst). Qed.

(** X11: the AC-3 sink is a queue of whole frames under every
    interleaving of producer and worker. From [ac3_sink_open], any
    schedule of producer steps (each with its frames in the six channel
    buffers) and worker turns is defined; the samples written out followed
    by the samples still queued are the 384 zero samples of the initial
    fill followed, for each frame generated and in order, by either the
    whole interleaved frame or nothing; and the fill is always a multiple
    of 6, so the channel order of the output never slips. *)
Theorem ac3_sink_is_fifo_of_frames (ops : list op) :
  Forall ac3_op_ok ops ->
  ∃ inst out accs,
    run ac3_sink_open ops = Some inst ∧ ac3_written ac3_sink_open ops = Some out ∧
    ac3_ok inst ∧ buffer_used inst mod 6 = 0 ∧
    Forall2 whole_or_dropped accs (concat (map ac3_generated ops)) ∧
    out ++ ac3_queue inst = replicate 384 (S754_zero false) ++ concat accs.
Proof.
  intros Hops.
  destruct (ac3_run_fifo ops ac3_sink_open ac3_sink_open_ok Hops ac3_sink_open_fill)
    as (inst & out & accs & Run & Wr & Ok & Fill & Pre & Q).
  exists inst, out, accs. rewrite ac3_sink_open_queue in Q. auto 10.
Qed.

End Ac3SinkQueue.
(** ** The direction of the control loop *)

Section ControlLoopDirection.
Import ControlLoop.

Lemma calculate_rate_ratio_inv target mask size gain c w r c' ratio :
  calculate_rate_ratio target mask size gain c w r = Some (c', ratio) ->
  history c'
  = <[Z.to_nat (histidx c) :=
        clamp_offset target (to_i32 (target - to_i32 (buffer_used mask w r)))]> (history c) ∧
  histidx c' = Z.land (to_u32 (histidx c + 1)) (to_u32 (size - 1)) ∧
  ratio = B64.add (B64.mul gain (B64.div (accumulate (history c')) (B64.of_Z size))) B64.one.
Proof.
  unfold calculate_rate_ratio. cbv zeta. intros E.
  destruct (array_store size (history c) (histidx c) _) as [h'|] eqn:St; [|discriminate].
  cbn [mbind option_bind] in E.
  destruct (B64.to_i32 _) as [avg|]; [|discriminate].
  injection E as <- <-. cbn [history histidx].
  unfold array_store in St.
  destruct ((0 <=? histidx c) && (histidx c <? size)); [|discriminate].
  injection St as <-. repeat split.
Qed.

Lemma to_i32_small z : - 2 ^ 31 <= z < 2 ^ 31 -> to_i32 z = z.
Proof. intros H. unfold to_i32. rewrite Z.mod_small; lia. Qed.

Lemma sum_zero (l : list Z) : Forall (λ h, h = 0) l -> foldr Z.add 0 l = 0.
Proof. induction 1 as [|h l -> _ IH]; [reflexivity|]. simpl. exact IH. Qed.

Section Step.
Variables (target mask : Z) (gain : spec_float).
Hypothesis target_range : 0 <= target < 2 ^ 31.
Hypothesis used_range : ∀ w r, 0 <= buffer_used mask w r < 2 ^ 31.
Hypothesis checked : all_sums_in_bounds gain target = true.
Hypothesis directed : all_sums_directed gain target = true.
Hypothesis at_zero : B64.add (B64.mul gain (scale_16 (B64.of_Z 0))) B64.one = B64.one.

(** One call, explicitly: the offset stored is the target less the fill,
    clamped; the sum and the division by 16 are exact, so the ratio is the
    rounded product of the gain and a sixteenth of the sum of the history,
    plus one, rounded. *)
Lemma rate_ratio_explicit c w r :
  control_ok target 16 c ->
  ∃ c',
    calculate_rate_ratio target mask 16 gain c w r
    = Some (c', B64.add (B64.mul gain (scale_16 (B64.of_Z (foldr Z.add 0 (history c')))))
                  B64.one) ∧
    control_ok target 16 c' ∧
    history c'
    = <[Z.to_nat (histidx c) := offset_of_fill target (buffer_used mask w r)]> (history c) ∧
    histidx c' = (histidx c + 1) mod 16.
Proof.
  intros Hc.
  destruct (calculate_rate_ratio_ok target mask gain target_range checked c w r Hc)
    as (c' & ratio & E & Hc' & _).
  destruct (calculate_rate_ratio_inv _ _ _ _ _ _ _ _ _ E) as (Hh & Hi & Hr).
  exists c'. rewrite E. destruct Hc' as (Hlen' & Hidx' & Hall').
  split; [|split; [exact (conj Hlen' (conj Hidx' Hall'))|split]].
  - do 2 f_equal. rewrite Hr.
    rewrite (accumulate_exact target) by (try assumption; lia).
    pose proof (sum_range target (history c') Hall') as Hsum. rewrite Hlen' in Hsum.
    now rewrite div_16 by lia.
  - rewrite Hh. unfold offset_of_fill.
    pose proof (used_range w r) as Hu.
    rewrite (to_i32_small (buffer_used mask w r)) by lia.
    now rewrite to_i32_small by lia.
  - rewrite Hi. change (to_u32 (16 - 1)) with (Z.ones 4).
    rewrite Z.land_ones by lia. unfold to_u32. change (2 ^ 4) with 16.
    apply Z.mod_mod_divide. exists (2 ^ 28). reflexivity.
Qed.

(** The ratio is on the side of 1.0 that the sum of the history is on
    the side of zero. *)
Lemma rate_ratio_sign c w r :
  control_ok target 16 c ->
  ∃ c' ratio,
    calculate_rate_ratio target mask 16 gain c w r = Some (c', ratio) ∧
    control_ok target 16 c' ∧
    history c'
    = <[Z.to_nat (histidx c) := offset_of_fill target (buffer_used mask w r)]> (history c) ∧
    histidx c' = (histidx c + 1) mod 16 ∧
    ratio_sign (foldr Z.add 0 (history c')) ratio.
Proof.
  intros Hc. destruct (rate_ratio_explicit c w r Hc) as (c' & E & Hc' & Hh & Hi).
  exists c'. eexists. split; [exact E|]. split; [exact Hc'|].
  split; [exact Hh|]. split; [exact Hi|].
  destruct Hc' as (Hlen' & _ & Hall').
  pose proof (sum_range target (history c') Hall') as Hsum. rewrite Hlen' in Hsum.
  pose proof directed as Hd. unfold all_sums_directed in Hd. cbv zeta in Hd.
  apply (forall_range_spec _ _ _) with (z := foldr Z.add 0 (history c')) in Hd; [|lia].
  unfold sum_directed in Hd. cbv zeta in Hd. unfold ratio_sign.
  destruct (foldr Z.add 0 (history c') ?= 0) eqn:Cmp; try exact Hd.
  apply Z.compare_eq in Cmp. rewrite Cmp. exact at_zero.
Qed.

(** A call at the target fill stores a zero. *)
Lemma zeros_behind_step k c c' used :
  control_ok target 16 c -> 0 <= k -> zeros_behind k c ->
  used = target ->
  history c' = <[Z.to_nat (histidx c) := offset_of_fill target used]> (history c) ->
  histidx c' = (histidx c + 1) mod 16 ->
  zeros_behind (Z.min (k + 1) 16) c'.
Proof.
  intros (Hlen & Hidx & _) Hk Hz -> Hh Hi j Hj.
  rewrite Hh, Hi.
  assert (Hoff : offset_of_fill target target = 0).
  { unfold offset_of_fill, clamp_offset. rewrite Z.sub_diag.
    destruct (Z.ltb_spec 0 (- target)); [lia|].
    destruct (Z.ltb_spec target 0); [lia | reflexivity]. }
  rewrite Hoff, Zminus_mod_idemp_l.
  assert (Hslot : 0 <= (histidx c + 1 - j) mod 16 < 16) by (apply Z.mod_pos_bound; lia).
  destruct (Z.eq_dec ((histidx c + 1 - j) mod 16) (histidx c)) as [Eq|Ne].
  - rewrite Eq. apply list_lookup_insert_eq. lia.
  - rewrite list_lookup_insert_ne by lia.
    assert (j ≠ 1).
    { intros ->. apply Ne. replace (histidx c + 1 - 1) with (histidx c) by lia.
      apply Z.mod_small. lia. }
    replace (histidx c + 1 - j) with (histidx c - (j - 1)) by lia.
    apply Hz. lia.
Qed.

Lemma zeros_behind_all c :
  control_ok target 16 c -> zeros_behind 16 c -> foldr Z.add 0 (history c) = 0.
Proof.
  intros (Hlen & Hidx & _) Hz. apply sum_zero. apply Forall_lookup. intros i h Hih.
  assert (Hi : (i < 16)%nat) by (apply lookup_lt_Some in Hih; lia).
  set (j := (histidx c - Z.of_nat i) mod 16).
  assert (Hj : 0 <= j < 16) by (apply Z.mod_pos_bound; lia).
  assert (Hslot : ∀ j', j' mod 16 = j -> (histidx c - j') mod 16 = Z.of_nat i).
  { intros j' Hj'. rewrite <- Zminus_mod_idemp_r, Hj'. unfold j.
    rewrite Zminus_mod_idemp_r.
    replace (histidx c - (histidx c - Z.of_nat i)) with (Z.of_nat i) by lia.
    apply Z.mod_small. lia. }
  destruct (Z.eq_dec j 0) as [J0|J0].
  - specialize (Hz 16 ltac:(lia)). rewrite (Hslot 16) in Hz by (rewrite J0; reflexivity).
    rewrite Nat2Z.id in Hz. congruence.
  - specialize (Hz j ltac:(lia)). rewrite (Hslot j) in Hz by (apply Z.mod_small; lia).
    rewrite Nat2Z.id in Hz. congruence.
Qed.

(** Calls at the target fill: from the sixteenth on the ratio is 1.0. *)
Lemma control_run_settles indices : ∀ c k,
  control_ok target 16 c -> 0 <= k <= 16 -> zeros_behind k c ->
  Forall (λ '(w, r), buffer_used mask w r = target) indices ->
  ∃ ratios,
    control_run target mask 16 gain c indices = Some ratios ∧
    length ratios = length indices ∧
    Forall (λ ratio, ratio = B64.one) (drop (Z.to_nat (15 - k)) ratios).
Proof.
  induction indices as [|[w r] rest IH]; intros c k Hc Hk Hz Hall.
  { exists []. split; [reflexivity|]. split; [reflexivity|]. rewrite drop_nil. constructor. }
  apply Forall_cons in Hall as [Hwr Hall].
  destruct (rate_ratio_sign c w r Hc) as (c' & ratio & E & Hc' & Hh & Hi & Hsign).
  pose proof (zeros_behind_step k c c' _ Hc ltac:(lia) Hz Hwr Hh Hi) as Hz'.
  destruct (IH c' (Z.min (k + 1) 16) Hc' ltac:(lia) Hz' Hall) as (ratios & Run & Len & Hones).
  exists (ratio :: ratios). cbn [control_run]. rewrite E. cbn [mbind option_bind].
  rewrite Run. cbn [mbind option_bind]. split; [reflexivity|].
  split; [simpl; now rewrite Len|].
  destruct (Z_lt_dec k 15) as [Lt|Ge].
  - replace (Z.to_nat (15 - k)) with (S (Z.to_nat (15 - Z.min (k + 1) 16))) by lia.
    exact Hones.
  - replace (Z.to_nat (15 - k)) with 0%nat by lia. cbn [drop].
    replace (Z.to_nat (15 - Z.min (k + 1) 16)) with 0%nat in Hones by lia.
    constructor; [|exact Hones].
    replace (Z.min (k + 1) 16) with 16 in Hz' by lia.
    rewrite (zeros_behind_all c' Hc' Hz') in Hsign. exact Hsign.
Qed.

End Step.

Lemma pcm_used_range w r :
  0 <= buffer_used PcmSink.PCM_SINK_SAMPLE_BUFFER_SIZE_MASK w r < 2 ^ 31.
Proof.
  unfold buffer_used. rewrite pcm_mask.
  pose proof (Z.mod_pos_bound (w - r) PcmSink.PCM_SINK_SAMPLE_BUFFER_SIZE ltac:(reflexivity)).
  unfold PcmSink.PCM_SINK_SAMPLE_BUFFER_SIZE in *. lia.
Qed.

Lemma ac3_used_range w r :
  0 <= buffer_used Ac3Sink.AC3_SINK_SAMPLE_BUFFER_SIZE_MASK w r < 2 ^ 31.
Proof.
  unfold buffer_used. rewrite ac3_mask.
  pose proof (Z.mod_pos_bound (w - r) Ac3Sink.AC3_SINK_SAMPLE_BUFFER_SIZE ltac:(reflexivity)).
  unfold Ac3Sink.AC3_SINK_SAMPLE_BUFFER_SIZE in *. lia.
Qed.

Lemma pcm_sums_directed :
  all_sums_directed PcmSink.PCM_SINK_LOOP_GAIN PcmSink.PCM_SINK_BUFFER_TARGET_SAMPLES = true.
Proof. vm_compute. reflexivity. Qed.

Lemma ac3_sums_directed :
  all_sums_directed Ac3Sink.AC3_SINK_LOOP_GAIN Ac3Sink.AC3_SINK_BUFFER_TARGET_SAMPLES = true.
Proof. vm_compute. reflexivity. Qed.

Lemma pcm_at_zero :
  B64.add (B64.mul PcmSink.PCM_SINK_LOOP_GAIN (scale_16 (B64.of_Z 0))) B64.one = B64.one.
Proof. vm_compute. reflexivity. Qed.

Lemma ac3_at_zero :
  B64.add (B64.mul Ac3Sink.AC3_SINK_LOOP_GAIN (scale_16 (B64.of_Z 0))) B64.one = B64.one.
Proof. vm_compute. reflexivity. Qed.

End ControlLoopDirection.
Section ControlLoopSinks.
Import ControlLoop.

Lemma zeros_behind_init k : k <= 16 -> zeros_behind k (control_init 16).
Proof.
  intros Hk j Hj. unfold control_init. cbn [history histidx].
  apply lookup_replicate_2.
  pose proof (Z.mod_pos_bound (0 - j) 16 ltac:(lia)). lia.
Qed.

Lemma zeros_behind_none c : zeros_behind 0 c.
Proof. intros j Hj. lia. Qed.

(** X12: the correction has the sign of the stored offsets. A call of
    [calculate_rate_ratio] on control fields in order stores the offset
    (target less fill, clamped to the target) in the history, and the
    ratio it returns is below 1.0 when the 16 stored offsets add up to
    less than zero (the ring was fuller than the target), exactly 1.0 when
    they add up to zero, and above 1.0 when they add up to more; for the
    PCM sink and for the AC-3 sink. *)
Theorem rate_ratio_opposes_fill :
  (∀ inst : PcmSink.pcm_sink,
     control_ok PcmSink.PCM_SINK_BUFFER_TARGET_SAMPLES 16 (PcmSink.ctl inst) ->
     ∃ c ratio,
       PcmSink.calculate_rate_ratio inst = Some (c, ratio) ∧
       history c
       = <[Z.to_nat (histidx (PcmSink.ctl inst)) :=
             offset_of_fill PcmSink.PCM_SINK_BUFFER_TARGET_SAMPLES (PcmSink.buffer_used inst)]>
           (history (PcmSink.ctl inst)) ∧
       ratio_sign (foldr Z.add 0 (history c)) ratio) ∧
  (∀ inst : Ac3Sink.ac3_sink,
     control_ok Ac3Sink.AC3_SINK_BUFFER_TARGET_SAMPLES 16 (Ac3Sink.ctl inst) ->
     ∃ c ratio,
       Ac3Sink.calculate_rate_ratio inst = Some (c, ratio) ∧
       history c
       = <[Z.to_nat (histidx (Ac3Sink.ctl inst)) :=
             offset_of_fill Ac3Sink.AC3_SINK_BUFFER_TARGET_SAMPLES (Ac3Sink.buffer_used inst)]>
           (history (Ac3Sink.ctl inst)) ∧
       ratio_sign (foldr Z.add 0 (history c)) ratio).
Proof.
  split; intros inst Hc.
  - destruct (rate_ratio_sign PcmSink.PCM_SINK_BUFFER_TARGET_SAMPLES
                PcmSink.PCM_SINK_SAMPLE_BUFFER_SIZE_MASK PcmSink.PCM_SINK_LOOP_GAIN
                ltac:(unfold PcmSink.PCM_SINK_BUFFER_TARGET_SAMPLES; lia) pcm_used_range
                pcm_sums_checked pcm_sums_directed pcm_at_zero
                (PcmSink.ctl inst) (PcmSink.write_idx inst) (PcmSink.read_idx inst) Hc)
      as (c & ratio & E & _ & Hh & _ & Hs).
    exists c, ratio. split; [exact E|]. split; [exact Hh | exact Hs].
  - destruct (rate_ratio_sign Ac3Sink.AC3_SINK_BUFFER_TARGET_SAMPLES
                Ac3Sink.AC3_SINK_SAMPLE_BUFFER_SIZE_MASK Ac3Sink.AC3_SINK_LOOP_GAIN
                ltac:(unfold Ac3Sink.AC3_SINK_BUFFER_TARGET_SAMPLES; lia) ac3_used_range
                ac3_sums_checked ac3_sums_directed ac3_at_zero
                (Ac3Sink.ctl inst) (Ac3Sink.write_idx inst) (Ac3Sink.read_idx inst) Hc)
      as (c & ratio & E & _ & Hh & _ & Hs).
    exists c, ratio. split; [exact E|]. split; [exact Hh | exact Hs].
Qed.

(** X13: the loop settles. If the ring is at its target fill at every
    call, then whatever the history held before, every ratio from the
    sixteenth call on is exactly 1.0; and from the control fields of a
    freshly opened sink every ratio is exactly 1.0; for the PCM sink and
    for the AC-3 sink. *)
Theorem rate_ratio_settles_at_one :
  (∀ c indices,
     control_ok PcmSink.PCM_SINK_BUFFER_TARGET_SAMPLES 16 c ->
     on_target PcmSink.PCM_SINK_SAMPLE_BUFFER_SIZE_MASK
       PcmSink.PCM_SINK_BUFFER_TARGET_SAMPLES indices ->
     ∃ ratios,
       control_run PcmSink.PCM_SINK_BUFFER_TARGET_SAMPLES
         PcmSink.PCM_SINK_SAMPLE_BUFFER_SIZE_MASK PcmSink.PCM_SINK_BUFFER_HIST_SIZE
         PcmSink.PCM_SINK_LOOP_GAIN c indices = Some ratios ∧
       length ratios = length indices ∧
       Forall (λ ratio, ratio = B64.one) (drop 15 ratios) ∧
       (c = control_init PcmSink.PCM_SINK_BUFFER_HIST_SIZE ->
        Forall (λ ratio, ratio = B64.one) ratios)) ∧
  (∀ c indices,
     control_ok Ac3Sink.AC3_SINK_BUFFER_TARGET_SAMPLES 16 c ->
     on_target Ac3Sink.AC3_SINK_SAMPLE_BUFFER_SIZE_MASK
       Ac3Sink.AC3_SINK_BUFFER_TARGET_SAMPLES indices ->
     ∃ ratios,
       control_run Ac3Sink.AC3_SINK_BUFFER_TARGET_SAMPLES
         Ac3Sink.AC3_SINK_SAMPLE_BUFFER_SIZE_MASK Ac3Sink.AC3_SINK_BUFFER_HIST_SIZE
         Ac3Sink.AC3_SINK_LOOP_GAIN c indices = Some ratios ∧
       length ratios = length indices ∧
       Forall (λ ratio, ratio = B64.one) (drop 15 ratios) ∧
       (c = control_init Ac3Sink.AC3_SINK_BUFFER_HIST_SIZE ->
        Forall (λ ratio, ratio = B64.one) ratios)).
Proof.
  split; intros c indices Hc Hon.
  - pose proof (control_run_settles PcmSink.PCM_SINK_BUFFER_TARGET_SAMPLES
                  PcmSink.PCM_SINK_SAMPLE_BUFFER_SIZE_MASK PcmSink.PCM_SINK_LOOP_GAIN
                  ltac:(unfold PcmSink.PCM_SINK_BUFFER_TARGET_SAMPLES; lia) pcm_used_range
                  pcm_sums_checked pcm_sums_directed pcm_at_zero indices c) as H.
    destruct (H 0 Hc ltac:(lia) (zeros_behind_none c) Hon) as (ratios & Run & Len & Hones).
    exists ratios. split; [exact Run|]. split; [exact Len|]. split; [exact Hones|].
    intros ->.
    destruct (H 16 Hc ltac:(lia) (zeros_behind_init 16 ltac:(lia)) Hon)
      as (ratios' & Run' & _ & Hones').
    change PcmSink.PCM_SINK_BUFFER_HIST_SIZE with 16 in *.
    assert (ratios' = ratios) as <- by congruence. exact Hones'.
  - pose proof (control_run_settles Ac3Sink.AC3_SINK_BUFFER_TARGET_SAMPLES
                  Ac3Sink.AC3_SINK_SAMPLE_BUFFER_SIZE_MASK Ac3Sink.AC3_SINK_LOOP_GAIN
                  ltac:(unfold Ac3Sink.AC3_SINK_BUFFER_TARGET_SAMPLES; lia) ac3_used_range
                  ac3_sums_checked ac3_sums_directed ac3_at_zero indices c) as H.
    destruct (H 0 Hc ltac:(lia) (zeros_behind_none c) Hon) as (ratios & Run & Len & Hones).
    exists ratios. split; [exact Run|]. split; [exact Len|]. split; [exact Hones|].
    intros ->.
    destruct (H 16 Hc ltac:(lia) (zeros_behind_init 16 ltac:(lia)) Hon)
      as (ratios' & Run' & _ & Hones').
    change Ac3Sink.AC3_SINK_BUFFER_HIST_SIZE with 16 in *.
    assert (ratios' = ratios) as <- by congruence. exact Hones'.
Qed.

End ControlLoopSinks.
(** ** Examples for the sinks *)

Section SinkExamples.

Lemma pcm_sink_process_appends_witness :
  ∃ inst',
    PcmSink.pcm_sink_process PcmSink.pcm_sink_open (replicate 256 (B64.of_Z 1)) 128
    = Some inst' ∧ pcm_ok inst' ∧
    PcmSink.thread_run inst' = PcmSink.thread_run PcmSink.pcm_sink_open ∧
    PcmSink.read_idx inst' = PcmSink.read_idx PcmSink.pcm_sink_open ∧
    PcmSink.buffer_used inst'
    = PcmSink.buffer_used PcmSink.pcm_sink_open
      + Z.min (PcmSink.buffer_space_avail PcmSink.pcm_sink_open) (2 * 128) ∧
    pcm_queue inst'
    = pcm_queue PcmSink.pcm_sink_open
      ++ take (Z.to_nat (Z.min (PcmSink.buffer_space_avail PcmSink.pcm_sink_open) (2 * 128)))
           (replicate 256 (B64.of_Z 1)) ∧
    ratio_in_bounds PcmSink.PCM_SINK_LOOP_GAIN PcmSink.PCM_SINK_BUFFER_TARGET_SAMPLES
      (PcmSink.src_ratio inst') = true.
Proof.
  apply (pcm_sink_process_appends PcmSink.pcm_sink_open (replicate 256 (B64.of_Z 1)) 128).
  - exact pcm_sink_open_ok.
  - lia.
  - rewrite length_replicate. lia.
Defined.

Lemma pcm_output_thread_takes_oldest_witness :
  ∃ inst' t,
    PcmSink.output_thread PcmSink.pcm_sink_open = Some (inst', t) ∧ pcm_ok inst' ∧
    PcmSink.thread_run inst' = PcmSink.thread_run PcmSink.pcm_sink_open ∧
    PcmSink.write_idx inst' = PcmSink.write_idx PcmSink.pcm_sink_open ∧
    PcmSink.buffer inst' = PcmSink.buffer PcmSink.pcm_sink_open ∧
    if negb (PcmSink.thread_run PcmSink.pcm_sink_open)
    then t = PcmSink.Terminated ∧ inst' = PcmSink.pcm_sink_open
    else if PcmSink.buffer_used PcmSink.pcm_sink_open <? PcmSink.PCM_SINK_OUTPUT_CHUNK_SIZE
    then t = PcmSink.Waiting ∧ inst' = PcmSink.pcm_sink_open
    else t = PcmSink.Written (take 32 (pcm_queue PcmSink.pcm_sink_open)) ∧
         pcm_queue inst' = drop 32 (pcm_queue PcmSink.pcm_sink_open) ∧
         PcmSink.buffer_used inst' = PcmSink.buffer_used PcmSink.pcm_sink_open - 32 ∧
         PcmSink.read_idx inst'
         = (PcmSink.read_idx PcmSink.pcm_sink_open + 32)
           mod PcmSink.PCM_SINK_SAMPLE_BUFFER_SIZE.
Proof.
  apply (pcm_output_thread_takes_oldest PcmSink.pcm_sink_open). exact pcm_sink_open_ok.
Defined.

Lemma pcm_schedule_ok : Forall pcm_op_ok pcm_schedule.
Proof.
  unfold pcm_schedule.
  repeat (constructor; [first [exact I | split; [lia | rewrite length_replicate; lia]]|]).
  constructor.
Qed.

Lemma pcm_sink_is_fifo_witness :
  ∃ inst out qs,
    PcmSink.run PcmSink.pcm_sink_open pcm_schedule = Some inst ∧
    pcm_written PcmSink.pcm_sink_open pcm_schedule = Some out ∧
    pcm_after_pushes PcmSink.pcm_sink_open pcm_schedule = Some (map snd qs) ∧
    pcm_ok inst ∧
    Forall2 pcm_kept qs (concat (map pcm_generated pcm_schedule)) ∧
    out ++ pcm_queue inst = replicate 128 (S754_zero false) ++ concat (map fst qs).
Proof. apply (pcm_sink_is_fifo pcm_schedule). exact pcm_schedule_ok. Defined.

Lemma ac3_output_thread_takes_oldest_witness :
  ∃ inst' t,
    Ac3Sink.output_thread Ac3Sink.ac3_sink_open = Some (inst', t) ∧ ac3_ok inst' ∧
    Ac3Sink.thread_run inst' = Ac3Sink.thread_run Ac3Sink.ac3_sink_open ∧
    Ac3Sink.write_idx inst' = Ac3Sink.write_idx Ac3Sink.ac3_sink_open ∧
    Ac3Sink.buffer inst' = Ac3Sink.buffer Ac3Sink.ac3_sink_open ∧
    if negb (Ac3Sink.thread_run Ac3Sink.ac3_sink_open)
    then t = PcmSink.Terminated ∧ inst' = Ac3Sink.ac3_sink_open
    else if Ac3Sink.buffer_used Ac3Sink.ac3_sink_open <? Ac3Sink.AC3_SINK_OUTPUT_CHUNK_SIZE
    then t = PcmSink.Waiting ∧ inst' = Ac3Sink.ac3_sink_open
    else t = PcmSink.Written (take 96 (ac3_queue Ac3Sink.ac3_sink_open)) ∧
         ac3_queue inst' = drop 96 (ac3_queue Ac3Sink.ac3_sink_open) ∧
         Ac3Sink.buffer_used inst' = Ac3Sink.buffer_used Ac3Sink.ac3_sink_open - 96 ∧
         Ac3Sink.read_idx inst'
         = (Ac3Sink.read_idx Ac3Sink.ac3_sink_open + 96)
           mod Ac3Sink.AC3_SINK_SAMPLE_BUFFER_SIZE.
Proof.
  apply (ac3_output_thread_takes_oldest Ac3Sink.ac3_sink_open). exact ac3_sink_open_ok.
Defined.

Lemma one_frame_samples ch i :
  0 <= ch < 6 -> 0 <= i < 1 -> is_Some (Ac3Sink.sample_at one_frame ch i).
Proof.
  intros Hch Hi. assert (i = 0) as -> by lia.
  assert (ch = 0 ∨ ch = 1 ∨ ch = 2 ∨ ch = 3 ∨ ch = 4 ∨ ch = 5) as Hc by lia.
  destruct Hc as [->|[->|[->|[->|[->| ->]]]]]; eexists; reflexivity.
Qed.

Lemma ac3_schedule_ok : Forall ac3_op_ok ac3_schedule.
Proof.
  unfold ac3_schedule.
  repeat (constructor; [first [exact I | split; [lia | exact one_frame_samples]]|]).
  constructor.
Qed.

Lemma ac3_sink_is_fifo_of_frames_witness :
  ∃ inst out accs,
    Ac3Sink.run Ac3Sink.ac3_sink_open ac3_schedule = Some inst ∧
    ac3_written Ac3Sink.ac3_sink_open ac3_schedule = Some out ∧
    ac3_ok inst ∧ Ac3Sink.buffer_used inst mod 6 = 0 ∧
    Forall2 whole_or_dropped accs (concat (map ac3_generated ac3_schedule)) ∧
    out ++ ac3_queue inst = replicate 384 (S754_zero false) ++ concat accs.
Proof. apply (ac3_sink_is_fifo_of_frames ac3_schedule). exact ac3_schedule_ok. Defined.

Lemma pcm_open_control_ok :
  control_ok PcmSink.PCM_SINK_BUFFER_TARGET_SAMPLES 16 (PcmSink.ctl PcmSink.pcm_sink_open).
Proof. apply control_init_ok. unfold PcmSink.PCM_SINK_BUFFER_TARGET_SAMPLES. lia. Qed.

Lemma ac3_open_control_ok :
  control_ok Ac3Sink.AC3_SINK_BUFFER_TARGET_SAMPLES 16 (Ac3Sink.ctl Ac3Sink.ac3_sink_open).
Proof. apply control_init_ok. unfold Ac3Sink.AC3_SINK_BUFFER_TARGET_SAMPLES. lia. Qed.

Lemma rate_ratio_opposes_fill_witness :
  (∃ c ratio,
     PcmSink.calculate_rate_ratio PcmSink.pcm_sink_open = Some (c, ratio) ∧
     ControlLoop.history c
     = <[Z.to_nat (ControlLoop.histidx (PcmSink.ctl PcmSink.pcm_sink_open)) :=
           offset_of_fill PcmSink.PCM_SINK_BUFFER_TARGET_SAMPLES
             (PcmSink.buffer_used PcmSink.pcm_sink_open)]>
         (ControlLoop.history (PcmSink.ctl PcmSink.pcm_sink_open)) ∧
     ratio_sign (foldr Z.add 0 (ControlLoop.history c)) ratio) ∧
  (∃ c ratio,
     Ac3Sink.calculate_rate_ratio Ac3Sink.ac3_sink_open = Some (c, ratio) ∧
     ControlLoop.history c
     = <[Z.to_nat (ControlLoop.histidx (Ac3Sink.ctl Ac3Sink.ac3_sink_open)) :=
           offset_of_fill Ac3Sink.AC3_SINK_BUFFER_TARGET_SAMPLES
             (Ac3Sink.buffer_used Ac3Sink.ac3_sink_open)]>
         (ControlLoop.history (Ac3Sink.ctl Ac3Sink.ac3_sink_open)) ∧
     ratio_sign (foldr Z.add 0 (ControlLoop.history c)) ratio).
Proof.
  split.
  - apply (proj1 rate_ratio_opposes_fill PcmSink.pcm_sink_open). exact pcm_open_control_ok.
  - apply (proj2 rate_ratio_opposes_fill Ac3Sink.ac3_sink_open). exact ac3_open_control_ok.
Defined.

Lemma pcm_steady_on_target :
  on_target PcmSink.PCM_SINK_SAMPLE_BUFFER_SIZE_MASK PcmSink.PCM_SINK_BUFFER_TARGET_SAMPLES
    pcm_steady.
Proof. apply Forall_replicate. reflexivity. Qed.

Lemma ac3_steady_on_target :
  on_target Ac3Sink.AC3_SINK_SAMPLE_BUFFER_SIZE_MASK Ac3Sink.AC3_SINK_BUFFER_TARGET_SAMPLES
    ac3_steady.
Proof. apply Forall_replicate. reflexivity. Qed.

Lemma rate_ratio_settles_at_one_witness :
  (∃ ratios,
     ControlLoop.control_run PcmSink.PCM_SINK_BUFFER_TARGET_SAMPLES
       PcmSink.PCM_SINK_SAMPLE_BUFFER_SIZE_MASK PcmSink.PCM_SINK_BUFFER_HIST_SIZE
       PcmSink.PCM_SINK_LOOP_GAIN (PcmSink.ctl PcmSink.pcm_sink_open) pcm_steady
     = Some ratios ∧
     length ratios = length pcm_steady ∧
     Forall (λ ratio, ratio = B64.one) (drop 15 ratios)) ∧
  (∃ ratios,
     ControlLoop.control_run Ac3Sink.AC3_SINK_BUFFER_TARGET_SAMPLES
       Ac3Sink.AC3_SINK_SAMPLE_BUFFER_SIZE_MASK Ac3Sink.AC3_SINK_BUFFER_HIST_SIZE
       Ac3Sink.AC3_SINK_LOOP_GAIN (Ac3Sink.ctl Ac3Sink.ac3_sink_open) ac3_steady
     = Some ratios ∧
     length ratios = length ac3_steady ∧
     Forall (λ ratio, ratio = B64.one) (drop 15 ratios)).
Proof.
  split.
  - destruct (proj1 rate_ratio_settles_at_one (PcmSink.ctl PcmSink.pcm_sink_open) pcm_steady
                pcm_open_control_ok pcm_steady_on_target) as (ratios & Run & Len & Hones & _).
    exists ratios. auto.
  - destruct (proj2 rate_ratio_settles_at_one (Ac3Sink.ctl Ac3Sink.ac3_sink_open) ac3_steady
                ac3_open_control_ok ac3_steady_on_target) as (ratios & Run & Len & Hones & _).
    exists ratios. auto.
Defined.

End SinkExamples.
(** ** The conversion of PCM samples *)

Section PcmConversion.
Import PcmSink.

Lemma samples_exact scale n s :
  all_samples_exact scale n = true -> - 32768 <= s < - 32768 + Z.of_nat n ->
  scaled 15 (f32_mul (f32_of_Z s) scale) = Some s.
Proof.
  intros H Hs. unfold all_samples_exact in H.
  apply (forall_range_spec _ _ _) with (z := s) in H; [|exact Hs].
  unfold sample_exact in H.
  destruct (scaled 15 _) as [z|]; [|discriminate].
  apply Z.eqb_eq in H. now subst.
Qed.

Lemma all_samples_checked : all_samples_exact PCM_SCALE (Z.to_nat 65536) = true.
Proof. vm_compute. reflexivity. Qed.

Lemma sample_to_float_exact s :
  - 32768 <= s <= 32767 -> scaled 15 (sample_to_float s) = Some s.
Proof.
  intros Hs. apply (samples_exact PCM_SCALE (Z.to_nat 65536) s all_samples_checked).
  rewrite Z2Nat.id by lia. lia.
Qed.

Lemma to_i16_value lo hi :
  Spec.byte lo -> Spec.byte hi -> to_i16 (hi * 256 + lo) = s16le_value lo hi.
Proof.
  unfold Spec.byte, to_i16, s16le_value. intros Hlo Hhi.
  change (2 ^ 15) with 32768. change (2 ^ 16) with 65536.
  destruct (Z.ltb_spec hi 128).
  - rewrite Z.mod_small by lia. lia.
  - rewrite mod_once by lia. lia.
Qed.

Lemma s16le_sample_value data i lo hi :
  0 <= i < 2 ^ 30 ->
  data !! Z.to_nat (2 * i) = Some lo -> data !! Z.to_nat (2 * i + 1) = Some hi ->
  Spec.byte lo -> Spec.byte hi ->
  s16le_sample data i = Some (s16le_value lo hi).
Proof.
  intros Hi Hlo Hhi Blo Bhi. unfold s16le_sample, array_load, to_u32.
  rewrite (Z.mod_small (i * 2)) by lia. rewrite (Z.mod_small (i * 2 + 1)) by lia.
  replace (0 <=? i * 2 + 1) with true by (symmetry; apply Z.leb_le; lia).
  replace (0 <=? i * 2) with true by (symmetry; apply Z.leb_le; lia).
  rewrite (Z.mul_comm i 2), Hhi, Hlo. cbn [mbind option_bind].
  f_equal. rewrite <- (to_i16_value lo hi Blo Bhi). f_equal.
  pose proof (lor_shiftl_8 lo hi Blo Bhi) as Hlor.
  assert (Hsh : Z.shiftl hi 8 = hi * 256) by (now rewrite Z.shiftl_mul_pow2 by lia).
  unfold Spec.byte in *. unfold to_u16. change (2 ^ 16) with 65536.
  rewrite (Z.mod_small hi) by lia.
  rewrite (Z.mod_small (Z.shiftl hi 8)) by lia.
  rewrite Z.lor_comm, Hlor.
  rewrite Z.mod_small by lia. lia.
Qed.

(** The conversion loop: every sample of the chunk, in order. *)
Lemma convert_loop_ok data n : ∀ i,
  Forall Spec.byte data -> 0 <= i -> i + Z.of_nat n <= 2 ^ 30 ->
  2 * (i + Z.of_nat n) <= Z.of_nat (length data) ->
  ∃ out,
    convert_loop n i data = Some out ∧ length out = n ∧
    ∀ (j : nat) lo hi, (j < n)%nat ->
      data !! Z.to_nat (2 * (i + Z.of_nat j)) = Some lo ->
      data !! Z.to_nat (2 * (i + Z.of_nat j) + 1) = Some hi ->
      ∃ x, out !! j = Some x ∧ scaled 15 x = Some (s16le_value lo hi).
Proof.
  induction n as [|n IH]; intros i Hb Hi Hn Hlen.
  { exists []. split; [reflexivity|]. split; [reflexivity|]. intros j lo hi Hj. lia. }
  destruct (lookup_lt_is_Some_2 data (Z.to_nat (2 * i)) ltac:(lia)) as [lo0 Hlo0].
  destruct (lookup_lt_is_Some_2 data (Z.to_nat (2 * i + 1)) ltac:(lia)) as [hi0 Hhi0].
  pose proof (proj1 (Forall_lookup _ _) Hb _ _ Hlo0) as Blo0.
  pose proof (proj1 (Forall_lookup _ _) Hb _ _ Hhi0) as Bhi0.
  cbn [convert_loop].
  rewrite (s16le_sample_value data i lo0 hi0) by (try assumption; lia).
  cbn [mbind option_bind].
  unfold to_u32. rewrite (Z.mod_small (i + 1)) by lia.
  destruct (IH (i + 1) Hb ltac:(lia) ltac:(lia) ltac:(lia)) as (out & E & Len & Hout).
  rewrite E. cbn [mbind option_bind]. eexists. split; [reflexivity|].
  split; [simpl; now rewrite Len|].
  intros [|j] lo hi Hj Hlo Hhi.
  - rewrite Z.add_0_r in Hlo, Hhi.
    assert (lo = lo0) as -> by congruence. assert (hi = hi0) as -> by congruence.
    eexists. split; [reflexivity|]. apply sample_to_float_exact.
    unfold s16le_value, Spec.byte in *. destruct (hi0 <? 128) eqn:Hh.
    + apply Z.ltb_lt in Hh. lia.
    + apply Z.ltb_ge in Hh. lia.
  - replace (i + Z.of_nat (S j)) with (i + 1 + Z.of_nat j) in Hlo, Hhi by lia.
    apply (Hout j lo hi); [lia | assumption | assumption].
Qed.

(** X16: the conversion of a PCM chunk to float is exact. For a chunk of
    at least 512 bytes, the loop at the head of [pcm_sink_process] is
    defined and yields 256 floats, and the float at position [i] is
    exactly the signed little-endian 16-bit sample made of bytes [2i]
    (low) and [2i+1] (high) divided by 32768: nothing is rounded, so the
    conversion loses nothing and silence stays 0.0. *)
Theorem pcm_conversion_is_exact (data : list Z) :
  Forall Spec.byte data -> INPUT_CHUNK_SIZE <= Z.of_nat (length data) ->
  ∃ out,
    convert_chunk data = Some out ∧ length out = 256%nat ∧
    ∀ (i : nat) lo hi, (i < 256)%nat ->
      data !! (2 * i)%nat = Some lo -> data !! (2 * i + 1)%nat = Some hi ->
      ∃ x, out !! i = Some x ∧ scaled 15 x = Some (s16le_value lo hi).
Proof.
  intros Hb Hlen. unfold INPUT_CHUNK_SIZE in Hlen.
  destruct (convert_loop_ok data 256 0 Hb ltac:(lia) ltac:(lia) ltac:(lia))
    as (out & E & Len & Hout).
  exists out. split; [exact E|]. split; [exact Len|].
  intros i lo hi Hi Hlo Hhi. apply (Hout i lo hi Hi).
  - now replace (Z.to_nat (2 * (0 + Z.of_nat i))) with (2 * i)%nat by lia.
  - now replace (Z.to_nat (2 * (0 + Z.of_nat i) + 1)) with (2 * i + 1)%nat by lia.
Qed.

Lemma pcm_chunk_bytes : Forall Spec.byte pcm_chunk.
Proof.
  unfold pcm_chunk. apply Forall_app. split.
  - repeat constructor; unfold Spec.byte; lia.
  - apply Forall_replicate. unfold Spec.byte. lia.
Qed.

Lemma pcm_conversion_is_exact_witness :
  ∃ out,
    convert_chunk pcm_chunk = Some out ∧ length out = 256%nat ∧
    ∀ (i : nat) lo hi, (i < 256)%nat ->
      pcm_chunk !! (2 * i)%nat = Some lo -> pcm_chunk !! (2 * i + 1)%nat = Some hi ->
      ∃ x, out !! i = Some x ∧ scaled 15 x = Some (s16le_value lo hi).
Proof.
  apply (pcm_conversion_is_exact pcm_chunk).
  - exact pcm_chunk_bytes.
  - unfold pcm_chunk. rewrite length_app, length_replicate. cbn. unfold INPUT_CHUNK_SIZE. lia.
Defined.

End PcmConversion.
(** ** The ratio against the bounds in real numbers *)

Section RealBounds.
Import ControlLoop.


(** The other bounds, against the real numbers: the upper bound of the
    PCM sink is above 1.000512 by less than 2^-52, its lower bound is not
    below 0.999488, and the bounds of the AC-3 sink are inside
    [0.9994879744, 1.0005120256]. *)
Example ratio_bounds_against_reals :
  ratio_upper PcmSink.PCM_SINK_LOOP_GAIN 128 = pcm_max_ratio ∧
  exceeds pcm_max_ratio (1000512 * 2 ^ 52 + 1000000) (1000000 * 2 ^ 52) = false ∧
  below (ratio_lower PcmSink.PCM_SINK_LOOP_GAIN 128) 999488 1000000 = false ∧
  exceeds (ratio_upper Ac3Sink.AC3_SINK_LOOP_GAIN 384) 10005120256 10000000000 = false ∧
  below (ratio_lower Ac3Sink.AC3_SINK_LOOP_GAIN 384) 9994879744 10000000000 = false.
Proof. repeat split; vm_compute; reflexivity. Qed.

End RealBounds.
